(** * GraphR1 reward scoring engine: [examples/reward_function/dapo_graph.py]

    A shallow embedding of the reward function of the repository and the
    properties of its specification.

    Modelling conventions.

    - A Python [str] is a list of Unicode code points ([list N]); [len] is
      [length].  String literals of this file are written with the apostrophe
      standing for the double quote (see [dq]).
    - A value produced by [json.loads] is a [json] term; Python's [None] is
      [JNull].  A [dict] is an association list in insertion order whose first
      binding of a key is the live one; [dict_set] updates in place, which is
      what [json.loads] does on a repeated key.
    - Python [float] scores are exact rationals ([Q]); the literals [0.98],
      [0.1], ... denote the rationals they spell.  A float read from JSON text
      denotes its exact decimal value.  Rounding is not modelled: where the
      source adds or divides floats ([edge_score += best_match],
      [total_score / 5.0]) the model adds and divides exactly.  A value or an
      equation stated below is that of exact arithmetic; the binary64 result
      can differ from it in the last place, and with it the bucket of a
      similarity that lies on a threshold of the accuracy mapping.
    - A Python call either returns or raises: [result A] is [Ok a] or
      [Raise e].  The evaluation order of the source is kept, so that the
      exception raised is the one Python raises first.
    - [json.loads] and [re.search] are library code: they are modelled by a
      JSON reader ([json_loads]) and a small backtracking matcher
      ([re_search]).  Interpreter resource limits (recursion depth, the digit
      limit of integer conversion) are not modelled. *)

From Stdlib Require Import String Ascii.
From Stdlib Require Import List Bool Arith ZArith NArith QArith Qminmax Lia Lqa.
From Stdlib Require Import Permutation.
Import ListNotations.

Set Warnings "-register-all".
Local Open Scope Z_scope.

(* ===================================================================== *)
(** * The model *)
(* ===================================================================== *)

(* ===================================================================== *)
(** ** Strings of code points *)
(* ===================================================================== *)

Definition str := list N.

Fixpoint str_eqb (a b : str) : bool :=
  match a, b with
  | [], [] => true
  | x :: a', y :: b' => N.eqb x y && str_eqb a' b'
  | _, _ => false
  end.

(** [u s]: the Python string with the characters of the literal [s]. *)
Definition u (s : string) : str :=
  map N_of_ascii (list_ascii_of_string s).
Arguments u s%_string.

(** [dq s]: as [u s], with every apostrophe of the literal standing for a
    double quote. *)
Definition dq (s : string) : str :=
  map (fun c => if N.eqb c 39 then 34%N else c) (u s).
Arguments dq s%_string.

(** [Py_UNICODE_ISSPACE]: the characters [\s] matches in a [str] pattern and
    [str.strip()] removes. *)
Definition is_space (c : N) : bool :=
  ((9 <=? c) && (c <=? 13) || (28 <=? c) && (c <=? 32)
   || (c =? 133) || (c =? 160) || (c =? 5760)
   || (8192 <=? c) && (c <=? 8202)
   || (c =? 8232) || (c =? 8233) || (c =? 8239) || (c =? 8287)
   || (c =? 12288))%N.

Fixpoint lstrip (s : str) : str :=
  match s with
  | c :: t => if is_space c then lstrip t else s
  | [] => []
  end.

Definition rstrip (s : str) : str := rev (lstrip (rev s)).

(** [s.strip()] *)
Definition strip (s : str) : str := rstrip (lstrip s).

(** [needle in haystack] for two strings *)
Fixpoint str_prefixb (p s : str) : bool :=
  match p, s with
  | [], _ => true
  | x :: p', y :: s' => N.eqb x y && str_prefixb p' s'
  | _ :: _, [] => false
  end.

Fixpoint str_infixb (p s : str) : bool :=
  str_prefixb p s || match s with [] => false | _ :: t => str_infixb p t end.

(* ===================================================================== *)
(** ** Exceptions *)
(* ===================================================================== *)

Inductive exn : Type :=
| TypeError | AttributeError | ValueError | ZeroDivisionError.

Inductive result (A : Type) : Type :=
| Ok (a : A)
| Raise (e : exn).
Arguments Ok {A} a.
Arguments Raise {A} e.

Definition bind {A B : Type} (r : result A) (k : A -> result B) : result B :=
  match r with
  | Ok a => k a
  | Raise e => Raise e
  end.

Declare Scope py_scope.
Delimit Scope py_scope with py.
Notation "x <- e ;; k" := (bind e (fun x => k))
  (at level 61, e at next level, right associativity) : py_scope.
Local Open Scope py_scope.

(* ===================================================================== *)
(** ** JSON values as Python objects *)
(* ===================================================================== *)

(** A Python float read from JSON text: [NaN], [Infinity], [-Infinity], or the
    decimal [m * 10^e]. *)
Inductive pyfloat : Type :=
| FNaN
| FInf (negative : bool)
| FDec (m e : Z).

Inductive json : Type :=
| JNull
| JBool (b : bool)
| JInt (z : Z)
| JFloat (f : pyfloat)
| JStr (s : str)
| JArr (l : list json)
| JObj (d : list (str * json)).

Definition dict := list (str * json).

Fixpoint dict_get (k : str) (d : dict) : option json :=
  match d with
  | [] => None
  | (k', v) :: r => if str_eqb k k' then Some v else dict_get k r
  end.

Definition dict_mem (k : str) (d : dict) : bool :=
  match dict_get k d with Some _ => true | None => false end.

(** [d[k] = v] *)
Fixpoint dict_set (k : str) (v : json) (d : dict) : dict :=
  match d with
  | [] => [(k, v)]
  | (k', v') :: r =>
      if str_eqb k k' then (k, v) :: r else (k', v') :: dict_set k v r
  end.

Definition str_mem (k : str) (l : list str) : bool := existsb (str_eqb k) l.

(** The keys of a dict, in insertion order, each once. *)
Fixpoint dict_keys_from (seen : list str) (d : dict) : list str :=
  match d with
  | [] => []
  | (k, _) :: r =>
      if str_mem k seen then dict_keys_from seen r
      else k :: dict_keys_from (k :: seen) r
  end.

Definition dict_keys (d : dict) : list str := dict_keys_from [] d.

(** *** Equality and hashing *)

(** The value two hashable objects are compared by: numbers of all three
    numeric types ([bool], [int], [float]) compare by value. *)
Inductive atom : Type :=
| ANone
| ANum (q : Q)
| ANaN
| AInf (negative : bool)
| AStr (s : str).

Definition dec_value (m e : Z) : Q :=
  if 0 <=? e then inject_Z (m * 10 ^ e)
  else Qmake m (Z.to_pos (10 ^ (- e))).

Definition atom_of (v : json) : option atom :=
  match v with
  | JNull => Some ANone
  | JBool b => Some (ANum (if b then 1 else 0))
  | JInt z => Some (ANum (inject_Z z))
  | JFloat FNaN => Some ANaN
  | JFloat (FInf n) => Some (AInf n)
  | JFloat (FDec m e) => Some (ANum (dec_value m e))
  | JStr s => Some (AStr s)
  | JArr _ => None
  | JObj _ => None
  end.

(** [a is b or a == b] on hashable objects ([NaN] is the one object
    [json.decoder.NaN]). *)
Definition atom_eqb (a b : atom) : bool :=
  match a, b with
  | ANone, ANone => true
  | ANum p, ANum q => Qeq_bool p q
  | ANaN, ANaN => true
  | AInf m, AInf n => Bool.eqb m n
  | AStr s, AStr t => str_eqb s t
  | _, _ => false
  end.

(** [hash(v)] succeeds *)
Definition hashable (v : json) : bool :=
  match atom_of v with Some _ => true | None => false end.

(** [PyObject_RichCompareBool(a, b, Py_EQ)]: [a is b or a == b], the
    comparison containers use for their elements. *)
Fixpoint py_eq_id (a b : json) {struct a} : bool :=
  match a, b with
  | JArr la, JArr lb =>
      (fix go (la lb : list json) {struct la} : bool :=
         match la, lb with
         | [], [] => true
         | x :: la', y :: lb' => py_eq_id x y && go la' lb'
         | _, _ => false
         end) la lb
  | JArr _, _ => false
  | JObj da, JObj db =>
      Nat.eqb (length (dict_keys da)) (length (dict_keys db))
      && (fix go (seen : list str) (l : list (str * json)) {struct l} : bool :=
            match l with
            | [] => true
            | (k, v) :: l' =>
                if str_mem k seen then go seen l'
                else match dict_get k db with
                     | Some w => py_eq_id v w && go (k :: seen) l'
                     | None => false
                     end
            end) [] da
  | JObj _, _ => false
  | _, _ =>
      match atom_of a, atom_of b with
      | Some x, Some y => atom_eqb x y
      | _, _ => false
      end
  end.

(** [a == b]: as above, except that [NaN == NaN] is false. *)
Definition py_eq (a b : json) : bool :=
  match a, b with
  | JFloat FNaN, _ => false
  | _, JFloat FNaN => false
  | _, _ => py_eq_id a b
  end.

(** *** Sets *)

(** A [set] is the list of its elements, each once, in insertion order. *)
Definition pyset := list json.

Definition set_mem (x : json) (s : pyset) : bool := existsb (py_eq_id x) s.

Definition set_add (x : json) (s : pyset) : pyset :=
  if set_mem x s then s else s ++ [x].

(** [set(items)] / the display [{x, y}]: hashes the elements in order. *)
Fixpoint set_of_list (items : list json) (acc : pyset) : result pyset :=
  match items with
  | [] => Ok acc
  | x :: rest =>
      if hashable x then set_of_list rest (set_add x acc)
      else Raise TypeError
  end.

Definition set_intersection (a b : pyset) : pyset :=
  filter (fun x => set_mem x b) a.

Definition set_union (a b : pyset) : pyset :=
  a ++ filter (fun x => negb (set_mem x a)) b.

(** [a == b] on sets *)
Definition set_eq (a b : pyset) : bool :=
  Nat.eqb (length a) (length b) && forallb (fun x => set_mem x b) a.

(** *** Attribute access, iteration, truth *)

(** [v.get(key)] *)
Definition py_get (v : json) (key : str) : result json :=
  match v with
  | JObj d => Ok (match dict_get key d with Some x => x | None => JNull end)
  | _ => Raise AttributeError
  end.

(** [v.get(key, default)] *)
Definition py_get_default (v : json) (key : str) (default : json) : result json :=
  match v with
  | JObj d => Ok (match dict_get key d with Some x => x | None => default end)
  | _ => Raise AttributeError
  end.

(** [iter(v)] run to the end *)
Definition py_iter (v : json) : result (list json) :=
  match v with
  | JArr l => Ok l
  | JStr s => Ok (map (fun c => JStr [c]) s)
  | JObj d => Ok (map JStr (dict_keys d))
  | _ => Raise TypeError
  end.

(** [len(v)] *)
Definition py_len (v : json) : result Z :=
  match v with
  | JArr l => Ok (Z.of_nat (length l))
  | JStr s => Ok (Z.of_nat (length s))
  | JObj d => Ok (Z.of_nat (length (dict_keys d)))
  | _ => Raise TypeError
  end.

(** [bool(v)] *)
Definition py_truthy (v : json) : bool :=
  match v with
  | JNull => false
  | JBool b => b
  | JInt z => negb (z =? 0)
  | JFloat FNaN => true
  | JFloat (FInf _) => true
  | JFloat (FDec m _) => negb (m =? 0)
  | JStr s => match s with [] => false | _ => true end
  | JArr l => match l with [] => false | _ => true end
  | JObj d => match d with [] => false | _ => true end
  end.

(** [set(v)] *)
Definition py_set (v : json) : result pyset :=
  items <- py_iter v ;; set_of_list items [].

(** [key in v], for a string [key] *)
Definition py_contains (v : json) (key : str) : result bool :=
  match v with
  | JObj d => Ok (dict_mem key d)
  | JStr s => Ok (str_infixb key s)
  | JArr l => Ok (existsb (py_eq_id (JStr key)) l)
  | _ => Raise TypeError
  end.

(** [all(field in v for field in fields)] *)
Fixpoint py_all_in (fields : list str) (v : json) : result bool :=
  match fields with
  | [] => Ok true
  | f :: rest =>
      b <- py_contains v f ;;
      if b then py_all_in rest v else Ok false
  end.

(** [x not in S], for a set [S] of strings: hashes [x] first. *)
Definition py_not_in (x : json) (S : list str) : result bool :=
  if hashable x then
    Ok (negb (match x with JStr s => str_mem s S | _ => false end))
  else Raise TypeError.

Definition is_list (v : json) : bool := match v with JArr _ => true | _ => false end.
Definition is_dict (v : json) : bool := match v with JObj _ => true | _ => false end.
Definition is_str (v : json) : bool := match v with JStr _ => true | _ => false end.
Definition is_bool (v : json) : bool := match v with JBool _ => true | _ => false end.
Definition is_none (v : json) : bool := match v with JNull => true | _ => false end.

(* ===================================================================== *)
(** ** [re.search] for the two patterns of the source *)
(* ===================================================================== *)

(** The patterns of the source are sequences of literal characters, greedy
    stars over a character class, and the delimiters of the one capture
    group. *)
Inductive re_item : Type :=
| RLit (c : N)
| RStar (p : N -> bool)
| ROpen
| RClose.

(** The text left where the group opened and where it closed. *)
Definition groups := (option str * option str)%type.

(** Greedy star with backtracking: the longest run first, then shorter
    ones, until the rest of the pattern [k] matches. *)
Fixpoint re_star {R : Type} (p : N -> bool) (k : str -> option R) (s : str)
  : option R :=
  match s with
  | c :: t =>
      if p c then
        match re_star p k t with
        | Some r => Some r
        | None => k s
        end
      else k s
  | [] => k []
  end.

(** A match: the groups and the text left after it. *)
Fixpoint re_match (its : list re_item) (g : groups) (s : str)
  : option (groups * str) :=
  match its with
  | [] => Some (g, s)
  | RLit c :: its' =>
      match s with
      | x :: t => if N.eqb x c then re_match its' g t else None
      | [] => None
      end
  | RStar p :: its' => re_star p (re_match its' g) s
  | ROpen :: its' => re_match its' (Some s, snd g) s
  | RClose :: its' => re_match its' (fst g, Some s) s
  end.

(** [re.search]: the match at the leftmost position that has one. *)
Fixpoint re_search (its : list re_item) (s : str) : option (groups * str) :=
  match re_match its (None, None) s with
  | Some m => Some m
  | None =>
      match s with
      | [] => None
      | _ :: t => re_search its t
      end
  end.

(** [match.group(1)] *)
Definition group1 (g : groups) : str :=
  match g with
  | (Some opened, Some closed) => firstn (length opened - length closed) opened
  | _ => []
  end.

Definition any_char (_ : N) : bool := true.

(** [Answer\s*:\s*] *)
Definition label_items : list re_item :=
  map RLit (u "Answer") ++ [RStar is_space; RLit 58; RStar is_space].

(** [r"Answer\s*:\s*(\{.*\})"] with [re.DOTALL] *)
Definition answer_re : list re_item :=
  label_items ++ [ROpen; RLit 123; RStar any_char; RLit 125; RClose].

(** [r"Answer\s*:\s*\{"] *)
Definition label_re : list re_item :=
  label_items ++ [RLit 123].

(* ===================================================================== *)
(** ** [json.loads] *)
(* ===================================================================== *)

Definition is_json_ws (c : N) : bool :=
  ((c =? 32) || (c =? 9) || (c =? 10) || (c =? 13))%N.

Fixpoint skip_ws (s : str) : str :=
  match s with
  | c :: t => if is_json_ws c then skip_ws t else s
  | [] => []
  end.

Definition is_digit (c : N) : bool := ((48 <=? c) && (c <=? 57))%N.

Definition hex_value (c : N) : option N :=
  if ((48 <=? c) && (c <=? 57))%N then Some (c - 48)%N
  else if ((97 <=? c) && (c <=? 102))%N then Some (c - 87)%N
  else if ((65 <=? c) && (c <=? 70))%N then Some (c - 55)%N
  else None.

Definition hex4 (a b c d : N) : option N :=
  match hex_value a, hex_value b, hex_value c, hex_value d with
  | Some x, Some y, Some z, Some w => Some (((x * 16 + y) * 16 + z) * 16 + w)%N
  | _, _, _, _ => None
  end.

Definition simple_escape (c : N) : option N :=
  if (c =? 34)%N then Some 34%N          (* quote *)
  else if (c =? 92)%N then Some 92%N     (* backslash *)
  else if (c =? 47)%N then Some 47%N     (* slash *)
  else if (c =? 98)%N then Some 8%N      (* b *)
  else if (c =? 102)%N then Some 12%N    (* f *)
  else if (c =? 110)%N then Some 10%N    (* n *)
  else if (c =? 114)%N then Some 13%N    (* r *)
  else if (c =? 116)%N then Some 9%N     (* t *)
  else None.

Definition is_high_surrogate (c : N) : bool := ((55296 <=? c) && (c <=? 56319))%N.
Definition is_low_surrogate (c : N) : bool := ((56320 <=? c) && (c <=? 57343))%N.
Definition join_surrogates (hi lo : N) : N :=
  (65536 + (hi - 55296) * 1024 + (lo - 56320))%N.

(** [scanstring], strict: the text after the opening quote, up to the closing
    one.  [acc] is the decoded text so far, reversed. *)
Fixpoint scanstring (s : str) (acc : str) : option (str * str) :=
  match s with
  | [] => None
  | c :: t =>
      if (c =? 34)%N then Some (rev acc, t)
      else if (c =? 92)%N then
        match t with
        | [] => None
        | e :: t1 =>
            if (e =? 117)%N then
              match t1 with
              | h1 :: h2 :: h3 :: h4 :: t2 =>
                  match hex4 h1 h2 h3 h4 with
                  | None => None
                  | Some uni =>
                      match t2 with
                      | b :: u' :: l1 :: l2 :: l3 :: l4 :: t3 =>
                          if is_high_surrogate uni && (b =? 92)%N && (u' =? 117)%N
                          then
                            match hex4 l1 l2 l3 l4 with
                            | None => None
                            | Some lo =>
                                if is_low_surrogate lo
                                then scanstring t3 (join_surrogates uni lo :: acc)
                                else scanstring t2 (uni :: acc)
                            end
                          else scanstring t2 (uni :: acc)
                      | _ => scanstring t2 (uni :: acc)
                      end
                  end
              | _ => None
              end
            else
              match simple_escape e with
              | Some ch => scanstring t1 (ch :: acc)
              | None => None
              end
        end
      else if (c <=? 31)%N then None
      else scanstring t (c :: acc)
  end.

(** The longest run of digits at the head of [s], and what follows it. *)
Fixpoint span_digits (s : str) : str * str :=
  match s with
  | c :: t =>
      if is_digit c then let (ds, r) := span_digits t in (c :: ds, r)
      else ([], s)
  | [] => ([], [])
  end.

Definition digits_value (ds : str) : Z :=
  fold_left (fun acc c => acc * 10 + Z.of_N (c - 48)) ds 0.

(** [s] starts with the character [c]. *)
Definition head_is (c : N) (s : str) : bool :=
  match s with
  | x :: _ => N.eqb x c
  | [] => false
  end.

(** The pieces of [NUMBER_RE]: an optional minus sign; *)
Definition number_sign (s : str) : bool * str :=
  if head_is 45 s then (true, tl s) else (false, s).

(** either a single zero or a run of digits that starts with a non-zero
    one; *)
Definition number_integer (s : str) : option (str * str) :=
  match s with
  | c :: t =>
      if (c =? 48)%N then Some ([c], t)
      else if is_digit c then Some (span_digits s)
      else None
  | [] => None
  end.

(** optionally, a dot and at least one digit; *)
Definition number_frac (s : str) : str * str :=
  if head_is 46 s then
    match span_digits (tl s) with
    | ([], _) => ([], s)
    | (ds, r) => (ds, r)
    end
  else ([], s).

(** optionally, [e] or [E], an optional sign and at least one digit: the
    exponent, when there is one. *)
Definition number_exp (s : str) : option Z * str :=
  if head_is 101 s || head_is 69 s then
    let t := tl s in
    let (exp_negative, t1) :=
      if head_is 45 t then (true, tl t)
      else if head_is 43 t then (false, tl t)
      else (false, t) in
    match span_digits t1 with
    | ([], _) => (None, s)
    | (ds, r) =>
        (Some (if exp_negative then - digits_value ds else digits_value ds), r)
    end
  else (None, s).

(** [NUMBER_RE.match] and the conversion of what it matched.  A number with
    neither fraction nor exponent is an [int]. *)
Definition match_number (s : str) : option (json * str) :=
  let (negative, s1) := number_sign s in
  match number_integer s1 with
  | None => None
  | Some (int_ds, s2) =>
      let (frac_ds, s3) := number_frac s2 in
      let (exp, s4) := number_exp s3 in
      let sign := if negative then (-1) else 1 in
      match frac_ds, exp with
      | [], None => Some (JInt (sign * digits_value int_ds), s4)
      | _, _ =>
          Some (JFloat (FDec (sign * digits_value (int_ds ++ frac_ds))
                             (match exp with Some e => e | None => 0 end
                              - Z.of_nat (length frac_ds))), s4)
      end
  end.

Inductive scan (A : Type) : Type :=
| Scanned (a : A) (rest : str)
| Fail
| OutOfFuel.
Arguments Scanned {A} a rest.
Arguments Fail {A}.
Arguments OutOfFuel {A}.

(** A string value: the text after the opening quote. *)
Definition scan_string (t : str) : scan json :=
  match scanstring t [] with
  | Some (x, r) => Scanned (JStr x) r
  | None => Fail
  end.

(** The literals, the numbers and the three constants of [scan_once]. *)
Definition scan_atom (s : str) : scan json :=
  if str_prefixb (u "null") s then Scanned JNull (skipn 4 s)
  else if str_prefixb (u "true") s then Scanned (JBool true) (skipn 4 s)
  else if str_prefixb (u "false") s then Scanned (JBool false) (skipn 5 s)
  else
    match match_number s with
    | Some (v, r) => Scanned v r
    | None =>
        if str_prefixb (u "NaN") s
        then Scanned (JFloat FNaN) (skipn 3 s)
        else if str_prefixb (u "Infinity") s
        then Scanned (JFloat (FInf false)) (skipn 8 s)
        else if str_prefixb (u "-Infinity") s
        then Scanned (JFloat (FInf true)) (skipn 9 s)
        else Fail
    end.

(** [scan_once], [JSONObject] and [JSONArray].  The recursion is on a
    bound of the nesting; [2 * length s + 2] is never used up on a text [s]
    ([json_loads_fuel]). *)
Fixpoint scan_once (fuel : nat) (s : str) : scan json :=
  match fuel with
  | O => OutOfFuel
  | S fuel' =>
      if head_is 34 s then scan_string (tl s)
      else if head_is 123 s then
        let t := skip_ws (tl s) in
        if head_is 125 t then Scanned (JObj []) (tl t)
        else parse_members fuel' t []
      else if head_is 91 s then
        let t := skip_ws (tl s) in
        if head_is 93 t then Scanned (JArr []) (tl t)
        else parse_elements fuel' t []
      else scan_atom s
  end

with parse_members (fuel : nat) (s : str) (acc : dict) : scan json :=
  match fuel with
  | O => OutOfFuel
  | S fuel' =>
      if head_is 34 s then
        match scanstring (tl s) [] with
        | None => Fail
        | Some (key, r) =>
            let r := skip_ws r in
            if head_is 58 r then
              match scan_once fuel' (skip_ws (tl r)) with
              | Scanned v r2 =>
                  let acc' := dict_set key v acc in
                  let r2 := skip_ws r2 in
                  if head_is 125 r2 then Scanned (JObj acc') (tl r2)
                  else if head_is 44 r2
                  then parse_members fuel' (skip_ws (tl r2)) acc'
                  else Fail
              | Fail => Fail
              | OutOfFuel => OutOfFuel
              end
            else Fail
        end
      else Fail
  end

with parse_elements (fuel : nat) (s : str) (acc : list json) : scan json :=
  match fuel with
  | O => OutOfFuel
  | S fuel' =>
      match scan_once fuel' s with
      | Scanned v r =>
          let acc' := acc ++ [v] in
          let r := skip_ws r in
          if head_is 93 r then Scanned (JArr acc') (tl r)
          else if head_is 44 r then parse_elements fuel' (skip_ws (tl r)) acc'
          else Fail
      | Fail => Fail
      | OutOfFuel => OutOfFuel
      end
  end.

(** [json.loads(s)]; [None] is [json.JSONDecodeError]. *)
Definition json_loads (s : str) : option json :=
  if head_is 65279 s then None
  else
    match scan_once (2 * length s + 2) (skip_ws s) with
    | Scanned v r =>
        match skip_ws r with
        | [] => Some v
        | _ => None
        end
    | _ => None
    end.

(* ===================================================================== *)
(** ** The reward function *)
(* ===================================================================== *)

Local Open Scope Q_scope.

Definition VALID_ACTION_TYPES : list str :=
  [u "press"; u "rotate"; u "pull"; u "open"; u "push"; u "close"; u "insert"].
Definition VALID_FUNCTIONAL_RELATIONSHIPS : list str :=
  [u "openorclose"; u "adjust"; u "control"; u "providepower"; u "activate"].
Definition VALID_SPATIAL_RELATIONS : list str :=
  [u "left_of"; u "right_of"; u "in_front_of"; u "behind"; u "higher_than";
   u "lower_than"; u "close"; u "far"; u "touching"].

Definition k_task_instruction : str := u "task_instruction".
Definition k_nodes : str := u "nodes".
Definition k_edges : str := u "edges".
Definition k_action_type : str := u "action_type".
Definition k_function_type : str := u "function_type".
Definition k_functional_relationship : str := u "functional_relationship".
Definition k_object1 : str := u "object1".
Definition k_object2 : str := u "object2".
Definition k_spatial_relations : str := u "spatial_relations".
Definition k_is_touching : str := u "is_touching".

(** *** [extract_answer_json] *)

Definition extract_answer_json (response : str) : json :=
  match re_search answer_re response with
  | None => JNull
  | Some (m, _) =>
      let json_str := strip (group1 m) in
      match json_loads json_str with
      | Some v => v
      | None => JNull
      end
  end.

(** *** [format_reward] *)

Definition required_fields : list str :=
  [k_task_instruction; k_nodes; k_edges; k_action_type; k_function_type].
Definition required_edge_fields : list str :=
  [k_functional_relationship; k_object1; k_object2; k_spatial_relations;
   k_is_touching].

(** [for rel in spatial_rels: if rel not in VALID_SPATIAL_RELATIONS: return 0.0];
    [true] when the loop runs to its end. *)
Fixpoint check_spatial_rels (rels : list json) : result bool :=
  match rels with
  | [] => Ok true
  | rel :: rest =>
      bad <- py_not_in rel VALID_SPATIAL_RELATIONS ;;
      if bad then Ok false else check_spatial_rels rest
  end.

(** The body of the loop over the edges (lines 66-88); [false] is
    [return 0.0]. *)
Definition check_edge (edge : json) : result bool :=
  if negb (is_dict edge) then Ok false else
  present <- py_all_in required_edge_fields edge ;;
  if negb present then Ok false else
  fr <- py_get edge k_functional_relationship ;;
  bad <- py_not_in fr VALID_FUNCTIONAL_RELATIONSHIPS ;;
  if bad then Ok false else
  spatial_rels <- py_get_default edge k_spatial_relations (JArr []) ;;
  if negb (is_list spatial_rels) then Ok false else
  rels <- py_iter spatial_rels ;;
  good <- check_spatial_rels rels ;;
  if negb good then Ok false else
  touching <- py_get edge k_is_touching ;;
  if negb (is_bool touching) then Ok false else
  Ok true.

Fixpoint check_edges (edges : list json) : result Q :=
  match edges with
  | [] => Ok 1
  | edge :: rest =>
      good <- check_edge edge ;;
      if good then check_edges rest else Ok 0
  end.

(** Steps 3 to 6 of [format_reward] (lines 47-90), on the parsed answer. *)
Definition format_checks (answer_json : json) : result Q :=
  present <- py_all_in required_fields answer_json ;;
  if negb present then Ok 0 else
  nodes <- py_get answer_json k_nodes ;;
  if negb (is_list nodes) then Ok 0 else
  edges <- py_get answer_json k_edges ;;
  if negb (is_list edges) then Ok 0 else
  instruction <- py_get answer_json k_task_instruction ;;
  if negb (is_str instruction) then Ok 0 else
  action <- py_get answer_json k_action_type ;;
  bad <- py_not_in action VALID_ACTION_TYPES ;;
  if bad then Ok 0 else
  edges <- py_get_default answer_json k_edges (JArr []) ;;
  edge_list <- py_iter edges ;;
  check_edges edge_list.

Definition format_reward (response : str) : result Q :=
  match re_search label_re response with
  | None => Ok 0
  | Some _ =>
      let answer_json := extract_answer_json response in
      if is_none answer_json then Ok 0 else
      format_checks answer_json
  end.

(** *** [calculate_edge_similarity] *)

(** [max(a, b)]: [b] when it is greater than [a], else [a]. *)
Definition py_max (a b : Q) : Q := if Qle_bool b a then a else b.

(** [intersection / union if union > 0 else 0.0], for
    [intersection = len(pred.intersection(gt))] and
    [union = len(pred.union(gt))] (lines 121-123 and 173-175). *)
Definition intersection_over_union (pred gt : pyset) : Q :=
  let intersection := Z.of_nat (length (set_intersection pred gt)) in
  let union := Z.of_nat (length (set_union pred gt)) in
  if (0 <? union)%Z then inject_Z intersection / inject_Z union else 0.

Definition nonempty (s : pyset) : bool :=
  match s with [] => false | _ => true end.

(** The object component (lines 155-160): what the first step adds to
    [score], [1.0] when the two sets of objects are equal and nothing, that
    is [0], otherwise. *)
Definition objects_component (pred_edge gt_edge : json) : result Q :=
  p1 <- py_get pred_edge k_object1 ;;
  p2 <- py_get pred_edge k_object2 ;;
  pred_objects <- set_of_list [p1; p2] [] ;;
  g1 <- py_get gt_edge k_object1 ;;
  g2 <- py_get gt_edge k_object2 ;;
  gt_objects <- set_of_list [g1; g2] [] ;;
  Ok (if set_eq pred_objects gt_objects then 1 else 0).

Definition calculate_edge_similarity (pred_edge gt_edge : json) : result Q :=
  let score := 0 in
  (* Object matching (bidirectional) *)
  objects <- objects_component pred_edge gt_edge ;;
  let score := score + objects in
  (* Functional relationship *)
  pf <- py_get pred_edge k_functional_relationship ;;
  gf <- py_get gt_edge k_functional_relationship ;;
  let score := if py_eq pf gf then score + 1 else score in
  (* Spatial relations *)
  ps <- py_get_default pred_edge k_spatial_relations (JArr []) ;;
  pred_spatial <- py_set ps ;;
  gs <- py_get_default gt_edge k_spatial_relations (JArr []) ;;
  gt_spatial <- py_set gs ;;
  let score :=
    if nonempty gt_spatial
    then score + intersection_over_union pred_spatial gt_spatial
    else score in
  (* Is touching *)
  pt <- py_get pred_edge k_is_touching ;;
  gt <- py_get gt_edge k_is_touching ;;
  let score := if py_eq pt gt then score + 1 else score in
  Ok (score / 4).

(** *** [calculate_graph_similarity] *)

(** The inner loop (lines 134-137): the best match of one ground-truth edge
    among the predicted edges. *)
Fixpoint best_match_loop (pred_edges : list json) (gt_edge : json)
  (best_match : Q) : result Q :=
  match pred_edges with
  | [] => Ok best_match
  | pred_edge :: rest =>
      edge_sim <- calculate_edge_similarity pred_edge gt_edge ;;
      best_match_loop rest gt_edge (py_max best_match edge_sim)
  end.

(** The outer loop (lines 133-138).  The best matches are added exactly; the
    source adds them in floating point, in the order of [gt_edges]. *)
Fixpoint edge_score_loop (gt_edges : list json) (pred_edges : json)
  (edge_score : Q) : result Q :=
  match gt_edges with
  | [] => Ok edge_score
  | gt_edge :: rest =>
      preds <- py_iter pred_edges ;;
      best_match <- best_match_loop preds gt_edge 0 ;;
      edge_score_loop rest pred_edges (edge_score + best_match)
  end.

(** The edges component (lines 128-146): what the fifth step adds to
    [total_score]; nothing, that is [0], when [gt_edges] is empty. *)
Definition edges_similarity (pred_edges gt_edges : json) : result Q :=
  if py_truthy gt_edges then
    gts <- py_iter gt_edges ;;
    edge_score <- edge_score_loop gts pred_edges 0 ;;
    n_gt <- py_len gt_edges ;;
    let edge_score := edge_score / inject_Z n_gt in
    n_pred <- py_len pred_edges ;;
    n_gt <- py_len gt_edges ;;
    if (n_gt <? n_pred)%Z then
      let penalty := inject_Z (n_pred - n_gt) * (1 # 10) in
      Ok (py_max 0 (edge_score - penalty))
    else Ok edge_score
  else Ok 0.

(** The nodes component (lines 117-124): what the fourth step adds to
    [total_score]; nothing, that is [0], when [gt_nodes] is empty. *)
Definition nodes_similarity (pred_json gt_json : json) : result Q :=
  pn <- py_get_default pred_json k_nodes (JArr []) ;;
  pred_nodes <- py_set pn ;;
  gn <- py_get_default gt_json k_nodes (JArr []) ;;
  gt_nodes <- py_set gn ;;
  if nonempty gt_nodes
  then Ok (intersection_over_union pred_nodes gt_nodes)
  else Ok 0.

Definition calculate_graph_similarity (pred_json gt_json : json) : result Q :=
  if is_none pred_json || is_none gt_json then Ok 0 else
  let total_score := 0 in
  (* 1. Task instruction *)
  p <- py_get pred_json k_task_instruction ;;
  g <- py_get gt_json k_task_instruction ;;
  let total_score := if py_eq p g then total_score + 1 else total_score in
  (* 2. Action type *)
  p <- py_get pred_json k_action_type ;;
  g <- py_get gt_json k_action_type ;;
  let total_score := if py_eq p g then total_score + 1 else total_score in
  (* 3. Function type *)
  p <- py_get pred_json k_function_type ;;
  g <- py_get gt_json k_function_type ;;
  let total_score := if py_eq p g then total_score + 1 else total_score in
  (* 4. Nodes *)
  nodes <- nodes_similarity pred_json gt_json ;;
  let total_score := total_score + nodes in
  (* 5. Edges *)
  pred_edges <- py_get_default pred_json k_edges (JArr []) ;;
  gt_edges <- py_get_default gt_json k_edges (JArr []) ;;
  edges <- edges_similarity pred_edges gt_edges ;;
  let total_score := total_score + edges in
  Ok (total_score / 5).

(** *** [accuracy_reward] *)

Definition accuracy_reward (response ground_truth : str) : result Q :=
  let pred_json := extract_answer_json response in
  match json_loads (strip ground_truth) with
  | None => Ok (-5 # 10)
  | Some gt_json =>
      if is_none pred_json then Ok (-5 # 10) else
      fmt <- format_reward response ;;
      if Qeq_bool fmt 0 then Ok 0 else
      similarity <- calculate_graph_similarity pred_json gt_json ;;
      if Qle_bool (98 # 100) similarity then Ok 1
      else if Qle_bool (85 # 100) similarity then Ok (8 # 10)
      else if Qle_bool (7 # 10) similarity then Ok (5 # 10)
      else if Qle_bool (5 # 10) similarity then Ok (2 # 10)
      else if Qle_bool (3 # 10) similarity then Ok 0
      else Ok (-5 # 10)
  end.

(** *** [soft_overlong_punishment] *)

(** [a / b] on two [int]s *)
Definition py_truediv (a b : Z) : result Q :=
  if (b =? 0)%Z then Raise ZeroDivisionError
  else Ok (inject_Z a / inject_Z b).

Definition soft_overlong_punishment
  (response_length max_response_length overlong_buffer_length : Z) : result Q :=
  let expected_len := (max_response_length - overlong_buffer_length)%Z in
  if (response_length <=? expected_len)%Z then Ok 0
  else if (response_length <=? max_response_length)%Z then
    py_truediv (expected_len - response_length) overlong_buffer_length
  else Ok (- 1).

(** *** [compute_score] *)

(** One sample of the batch: a dict with the string-valued keys [response]
    and [ground_truth]. *)
Record reward_input : Type := {
  response : str;
  ground_truth : str
}.

(** What the caller passes as [reward_inputs]: a list, or anything else. *)
Inductive py_batch : Type :=
| PyList (samples : list reward_input)
| PyNotList.

Record reward_record : Type := {
  overall : Q;
  format : Q;
  accuracy : Q;
  overlong : Q;
  accuracy_normalized : Q
}.

Definition score_one (reward_input : reward_input)
  (max_response_length overlong_buffer_length : Z)
  (overlong_penalty_factor format_weight : Q) : result reward_record :=
  let response := response reward_input in
  format_score <- format_reward response ;;
  accuracy_score <- accuracy_reward response (ground_truth reward_input) ;;
  overlong_score <-
    soft_overlong_punishment (Z.of_nat (length response))
      max_response_length overlong_buffer_length ;;
  let overall :=
    format_weight * format_score
    + (1 - format_weight) * accuracy_score
    + overlong_score * overlong_penalty_factor in
  Ok {| overall := overall;
        format := format_score;
        accuracy := accuracy_score;
        overlong := overlong_score;
        accuracy_normalized := (1 # 2) * (accuracy_score + 1) |}.

Fixpoint score_loop (reward_inputs : list reward_input)
  (max_response_length overlong_buffer_length : Z)
  (overlong_penalty_factor format_weight : Q) (scores : list reward_record)
  : result (list reward_record) :=
  match reward_inputs with
  | [] => Ok scores
  | reward_input :: rest =>
      score <- score_one reward_input max_response_length
                 overlong_buffer_length overlong_penalty_factor format_weight ;;
      score_loop rest max_response_length overlong_buffer_length
        overlong_penalty_factor format_weight (scores ++ [score])
  end.

Definition compute_score (reward_inputs : py_batch)
  (max_response_length overlong_buffer_length : Z)
  (overlong_penalty_factor format_weight : Q) : result (list reward_record) :=
  match reward_inputs with
  | PyNotList => Raise ValueError
  | PyList samples =>
      score_loop samples max_response_length overlong_buffer_length
        overlong_penalty_factor format_weight []
  end.

(** The default of [format_weight]. *)
Definition default_format_weight : Q := 2 # 10.

(* ===================================================================== *)
(** * Predicates and fixtures of the properties *)
(* ===================================================================== *)

(* ===================================================================== *)
(** ** Accuracy mapping *)
(* ===================================================================== *)

(** The step function of the accuracy mapping, as the specification gives
    it: the reward of a similarity. *)
Definition accuracy_step (similarity : Q) : Q :=
  if Qle_bool (98 # 100) similarity then 1
  else if Qle_bool (85 # 100) similarity then 8 # 10
  else if Qle_bool (7 # 10) similarity then 5 # 10
  else if Qle_bool (5 # 10) similarity then 2 # 10
  else if Qle_bool (3 # 10) similarity then 0
  else -5 # 10.

(** The bucket table of the accuracy mapping, as a relation between a
    similarity and a reward. *)
Definition in_bucket (similarity a : Q) : Prop :=
  (98 # 100 <= similarity -> a = 1)
  /\ (85 # 100 <= similarity < 98 # 100 -> a = 8 # 10)
  /\ (7 # 10 <= similarity < 85 # 100 -> a = 5 # 10)
  /\ (5 # 10 <= similarity < 7 # 10 -> a = 2 # 10)
  /\ (3 # 10 <= similarity < 5 # 10 -> a = 0)
  /\ (similarity < 3 # 10 -> a = -5 # 10).

(* ===================================================================== *)
(** ** The similarity functions on the data model *)
(* ===================================================================== *)

(** The value [d.get(k)] of a dict. *)
Definition field (d : dict) (k : str) : json :=
  match dict_get k d with Some x => x | None => JNull end.

Definition is_str_list (v : json) : bool :=
  match v with JArr l => forallb is_str l | _ => false end.

(** The data model: an [Edge] has three string fields, a list of strings and
    a boolean; a [SceneGraph] has three string fields, a list of strings and
    a list of edges. *)
Definition is_edge (e : json) : bool :=
  match e with
  | JObj d =>
      is_str (field d k_functional_relationship)
      && is_str (field d k_object1)
      && is_str (field d k_object2)
      && is_str_list (field d k_spatial_relations)
      && is_bool (field d k_is_touching)
  | _ => false
  end.

Definition is_edge_list (v : json) : bool :=
  match v with JArr l => forallb is_edge l | _ => false end.

Definition is_scene_graph (g : json) : bool :=
  match g with
  | JObj d =>
      is_str (field d k_task_instruction)
      && is_str_list (field d k_nodes)
      && is_edge_list (field d k_edges)
      && is_str (field d k_action_type)
      && is_str (field d k_function_type)
  | _ => false
  end.

(* ===================================================================== *)
(** ** The reference scenario *)
(* ===================================================================== *)

Module Scenario.

(** The ground truth of the reference fixture. *)
Definition ground_truth_text : str :=
  dq "{'task_instruction':'Power on the toaster.','nodes':['electric outlet','toaster'],'edges':[{'functional_relationship':'providepower','object1':'electric outlet','object2':'toaster','spatial_relations':['higher_than','right_of','in_front_of','close'],'is_touching':false}],'action_type':'insert','function_type':'power_supply'}".

(** The same payload with [action_type] changed to [press]. *)
Definition press_text : str :=
  dq "{'task_instruction':'Power on the toaster.','nodes':['electric outlet','toaster'],'edges':[{'functional_relationship':'providepower','object1':'electric outlet','object2':'toaster','spatial_relations':['higher_than','right_of','in_front_of','close'],'is_touching':false}],'action_type':'press','function_type':'power_supply'}".



Definition preamble : str :=
  u "I see an outlet and toaster that need to be connected." ++ [10; 10]%N.

Definition exact_response : str := preamble ++ u "Answer: " ++ ground_truth_text.
Definition press_response : str := preamble ++ u "Answer: " ++ press_text.

(** A response with no [Answer:] field. *)
Definition no_answer_response : str :=
  u "I analyze the image and see an outlet and toaster." ++ [10]%N
  ++ u "The outlet is higher than the toaster and they need to be connected.".

(** A payload that lacks three of the required fields. *)
Definition missing_fields_response : str :=
  dq "Answer: {'task_instruction': 'Power on the toaster.', 'nodes': ['electric outlet', 'toaster']}".

Definition ground_truth_json : json :=
  JObj
    [(k_task_instruction, JStr (u "Power on the toaster."));
     (k_nodes, JArr [JStr (u "electric outlet"); JStr (u "toaster")]);
     (k_edges,
      JArr
        [JObj
           [(k_functional_relationship, JStr (u "providepower"));
            (k_object1, JStr (u "electric outlet"));
            (k_object2, JStr (u "toaster"));
            (k_spatial_relations,
             JArr [JStr (u "higher_than"); JStr (u "right_of");
                   JStr (u "in_front_of"); JStr (u "close")]);
            (k_is_touching, JBool false)]]);
     (k_action_type, JStr (u "insert"));
     (k_function_type, JStr (u "power_supply"))].

End Scenario.

(* ===================================================================== *)
(** ** Extra predicted edges *)
(* ===================================================================== *)

Module ExtraEdge.

Definition toaster_edge : json :=
  JObj
    [(k_functional_relationship, JStr (u "providepower"));
     (k_object1, JStr (u "electric outlet"));
     (k_object2, JStr (u "toaster"));
     (k_spatial_relations,
      JArr [JStr (u "higher_than"); JStr (u "right_of");
            JStr (u "in_front_of"); JStr (u "close")]);
     (k_is_touching, JBool false)].

(** An edge that shares nothing with [toaster_edge]. *)
Definition unrelated_edge : json :=
  JObj
    [(k_functional_relationship, JStr (u "control"));
     (k_object1, JStr (u "switch"));
     (k_object2, JStr (u "lamp"));
     (k_spatial_relations, JArr [JStr (u "far")]);
     (k_is_touching, JBool true)].

End ExtraEdge.

(* ===================================================================== *)
(** ** Similarity bounds *)
(* ===================================================================== *)

Module Unhashable.


End Unhashable.

(* ===================================================================== *)
(** ** The batch contract *)
(* ===================================================================== *)

Module Malformed.

(** A payload whose [action_type] is a list. *)
Definition list_action_response : str :=
  dq "Answer: {'task_instruction':'Power on the toaster.','nodes':['electric outlet','toaster'],'edges':[],'action_type':['insert'],'function_type':'power_supply'}".

(** A payload that passes [format_reward] and has a list among its nodes. *)
Definition list_node_response : str :=
  dq "Answer: {'task_instruction':'Power on the toaster.','nodes':[['electric outlet'],'toaster'],'edges':[],'action_type':'insert','function_type':'power_supply'}".

End Malformed.

(* ===================================================================== *)
(** ** The object component of the edge similarity *)
(* ===================================================================== *)

(** The edge with [object1] and [object2] exchanged. *)
Definition swap_objects (edge : dict) : dict :=
  dict_set k_object1 (field edge k_object2)
    (dict_set k_object2 (field edge k_object1) edge).

(** Equality of the unordered pairs [{a, b}] and [{c, d}] of strings. *)
Definition same_pair (a b c d : str) : Prop :=
  forall x, In x [a; b] <-> In x [c; d].

Definition same_pairb (a b c d : str) : bool :=
  (str_eqb a c && str_eqb b d) || (str_eqb a d && str_eqb b c).

Module Alias.

(** The edge of the slash-alias test, between [object1] and the kitchen
    sink. *)
Definition sink_edge (object1 : str) : dict :=
  [(k_functional_relationship, JStr (u "control"));
   (k_object1, JStr object1);
   (k_object2, JStr (u "kitchen sink"));
   (k_spatial_relations,
    JArr [JStr (u "higher_than"); JStr (u "behind"); JStr (u "close")]);
   (k_is_touching, JBool true)].

Definition faucet : str := u "faucet".
Definition handle : str := u "handle".
Definition faucet_or_handle : str := u "faucet / handle".

End Alias.

(* ===================================================================== *)
(** ** What the format check does not look at *)
(* ===================================================================== *)

Module Untyped.

(** A payload whose [function_type] is a number, whose nodes are a number,
    [null] and a list, and whose edge has a number and an object as
    [object1] and [object2]. *)
Definition response : str :=
  dq "Answer: {'task_instruction':'Power on the toaster.','nodes':[1,null,['toaster']],'edges':[{'functional_relationship':'providepower','object1':7,'object2':{'name':'toaster'},'spatial_relations':['close'],'is_touching':false}],'action_type':'insert','function_type':3.5}".

End Untyped.

(* ===================================================================== *)
(** ** The span [extract_answer_json] captures *)
(* ===================================================================== *)

(** The text after [Answer], optional whitespace, a colon and optional
    whitespace, when [s] starts so. *)
Definition after_label (s : str) : option str :=
  if str_prefixb (u "Answer") s then
    match lstrip (skipn 6 s) with
    | 58%N :: t => Some (lstrip t)
    | _ => None
    end
  else None.

(** The text up to and including its last closing brace. *)
Fixpoint upto_last_rbrace (s : str) : option str :=
  match s with
  | [] => None
  | c :: t =>
      match upto_last_rbrace t with
      | Some body => Some (c :: body)
      | None => if N.eqb c 125 then Some [c] else None
      end
  end.

Definition has_rbrace (s : str) : bool := existsb (N.eqb 125) s.

(** The extraction as the specification words it: the span from the first
    opening brace that follows the label to the end of the text, trailing
    whitespace trimmed, is what is parsed. *)
Definition extract_to_end_of_text (response : str) : json :=
  match re_search label_re response with
  | None => JNull
  | Some (_, tail) =>
      match json_loads (rstrip (123%N :: tail)) with
      | Some v => v
      | None => JNull
      end
  end.

(** A pattern that starts with a character that is not whitespace. *)
Definition starts_with_lit (its : list re_item) : Prop :=
  forall g c t, is_space c = true -> re_match its g (c :: t) = None.

Module Spans.

(** A payload followed by more text. *)
Definition trailing_response : str := dq "Answer: {} trailing".

(** Two answers. *)
Definition first_answer : str := dq "{'a': 1}".
Definition second_answer : str := dq "{'b': 2}".
Definition two_answers_response : str :=
  u "Answer: " ++ first_answer ++ [10%N] ++ u "Answer: " ++ second_answer.

(** A label that no brace follows, then an answer. *)
Definition late_answer_response : str :=
  u "Answer: invalid" ++ [10%N] ++ u "Answer: " ++ second_answer.

End Spans.

(* ===================================================================== *)
(** ** The fuel of the JSON reader *)
(* ===================================================================== *)

(** With fuel for twice the text, the reader never runs out, and what it
    scans is at least one character long. *)
Definition fuelled (fuel : nat) (s : str) (out : scan json) : Prop :=
  out <> OutOfFuel
  /\ forall v r, out = Scanned v r -> (length r < length s)%nat.

(* ===================================================================== *)
(** ** A ground truth without edges *)
(* ===================================================================== *)

Module NoEdges.

(** The ground truth of the edge-case tests: one node, no edge. *)
Definition ground_truth_text : str :=
  dq "{'task_instruction': 'Test task', 'nodes': ['obj1'], 'edges': [], 'action_type': 'press', 'function_type': 'control'}".

Definition ground_truth_json : json :=
  JObj
    [(k_task_instruction, JStr (u "Test task"));
     (k_nodes, JArr [JStr (u "obj1")]);
     (k_edges, JArr []);
     (k_action_type, JStr (u "press"));
     (k_function_type, JStr (u "control"))].

(** The response that repeats it. *)
Definition same_response : str := u "Answer: " ++ ground_truth_text.

End NoEdges.

(* ===================================================================== *)
(** ** Graphs with content *)
(* ===================================================================== *)

Definition nonempty_list (v : json) : bool :=
  match v with JArr (_ :: _) => true | _ => false end.

(** A data-model edge with at least one spatial relation. *)
Definition is_full_edge (e : json) : bool :=
  is_edge e
  && match e with
     | JObj d => nonempty_list (field d k_spatial_relations)
     | _ => false
     end.

(** A data-model scene graph with at least one node and one edge, each edge
    with at least one spatial relation. *)
Definition is_full_scene_graph (g : json) : bool :=
  is_scene_graph g
  && match g with
     | JObj d =>
         nonempty_list (field d k_nodes)
         && nonempty_list (field d k_edges)
         && match field d k_edges with
            | JArr l => forallb is_full_edge l
            | _ => false
            end
     | _ => false
     end.

(* ===================================================================== *)
(** ** Records and batches *)
(* ===================================================================== *)

(** The six rewards of the accuracy mapping. *)
Definition accuracy_value (a : Q) : Prop :=
  a = -5 # 10 \/ a = 0 \/ a = 2 # 10 \/ a = 5 # 10 \/ a = 8 # 10 \/ a = 1.

(** What every record of a scored batch satisfies, for the weight and the
    penalty factor of the call. *)
Definition record_ok (format_weight overlong_penalty_factor : Q)
  (r : reward_record) : Prop :=
  (format r = 0 \/ format r = 1)
  /\ accuracy_value (accuracy r)
  /\ (format r = 0 -> accuracy r <= 0)
  /\ -1 <= overlong r <= 0
  /\ 1 # 4 <= accuracy_normalized r <= 1
  /\ (0 <= format_weight <= 1 -> 0 <= overlong_penalty_factor ->
      - (1 # 2) - overlong_penalty_factor <= overall r <= 1
      /\ (format r = 0 -> overall r <= 0)).




Module Batch.

Definition exact_sample : reward_input :=
  {| response := Scenario.exact_response;
     ground_truth := Scenario.ground_truth_text |}.

Definition no_answer_sample : reward_input :=
  {| response := Scenario.no_answer_response;
     ground_truth := Scenario.ground_truth_text |}.

Definition list_action_sample : reward_input :=
  {| response := Malformed.list_action_response;
     ground_truth := Scenario.ground_truth_text |}.

End Batch.

(* ===================================================================== *)
(** ** The schema of the format check *)
(* ===================================================================== *)

(** A string that is one of the strings of [S]. *)
Definition valid_string (S : list str) (v : json) : Prop :=
  exists s, v = JStr s /\ In s S.

(** An edge that passes the format check: a dict in which [object1] and
    [object2] are present, [functional_relationship] is a valid name,
    [spatial_relations] is a list of valid names and [is_touching] is a
    boolean. *)
Definition edge_schema (e : json) : Prop :=
  exists d,
    e = JObj d
    /\ dict_mem k_object1 d = true
    /\ dict_mem k_object2 d = true
    /\ valid_string VALID_FUNCTIONAL_RELATIONSHIPS
         (field d k_functional_relationship)
    /\ (exists rels,
           field d k_spatial_relations = JArr rels
           /\ Forall (valid_string VALID_SPATIAL_RELATIONS) rels)
    /\ is_bool (field d k_is_touching) = true.

(** An answer that passes the format check: a dict in which [function_type]
    is present, [nodes] is a list, [task_instruction] is a string,
    [action_type] is a valid name and [edges] is a list of edges that
    pass. *)
Definition answer_schema (a : json) : Prop :=
  exists d,
    a = JObj d
    /\ dict_mem k_function_type d = true
    /\ is_list (field d k_nodes) = true
    /\ is_str (field d k_task_instruction) = true
    /\ valid_string VALID_ACTION_TYPES (field d k_action_type)
    /\ (exists edges,
           field d k_edges = JArr edges /\ Forall edge_schema edges).

(* ===================================================================== *)
(** ** Graphs up to the order of their nodes and edges *)
(* ===================================================================== *)

(** Two graphs with the same three string fields, node lists of strings
    with the same elements (in any order, with any repetition), and edge
    lists that are permutations of each other. *)
Definition same_up_to_order (g g' : json) : Prop :=
  exists d d' nodes nodes' edges edges',
    g = JObj d /\ g' = JObj d'
    /\ field d' k_task_instruction = field d k_task_instruction
    /\ field d' k_action_type = field d k_action_type
    /\ field d' k_function_type = field d k_function_type
    /\ field d k_nodes = JArr nodes /\ field d' k_nodes = JArr nodes'
    /\ forallb is_str nodes = true
    /\ (forall x, In x nodes <-> In x nodes')
    /\ field d k_edges = JArr edges /\ field d' k_edges = JArr edges'
    /\ Permutation edges edges'.

(** Two graphs with the same three string fields, node lists of strings
    with the same elements, and the same edges in the same order. *)
Definition same_up_to_node_order (g g' : json) : Prop :=
  exists d d' nodes nodes',
    g = JObj d /\ g' = JObj d'
    /\ field d' k_task_instruction = field d k_task_instruction
    /\ field d' k_action_type = field d k_action_type
    /\ field d' k_function_type = field d k_function_type
    /\ field d k_nodes = JArr nodes /\ field d' k_nodes = JArr nodes'
    /\ forallb is_str nodes = true
    /\ (forall x, In x nodes <-> In x nodes')
    /\ dict_get k_edges d' = dict_get k_edges d.

Module Reordered.

Definition graph : json :=
  JObj
    [(k_task_instruction, JStr (u "Power on the toaster."));
     (k_nodes,
      JArr [JStr (u "electric outlet"); JStr (u "toaster"); JStr (u "switch")]);
     (k_edges, JArr [ExtraEdge.toaster_edge; ExtraEdge.unrelated_edge]);
     (k_action_type, JStr (u "insert"));
     (k_function_type, JStr (u "power_supply"))].

(** The same graph with its keys, nodes and edges in another order, and a
    node repeated. *)
Definition shuffled : json :=
  JObj
    [(k_function_type, JStr (u "power_supply"));
     (k_edges, JArr [ExtraEdge.unrelated_edge; ExtraEdge.toaster_edge]);
     (k_nodes,
      JArr [JStr (u "toaster"); JStr (u "switch"); JStr (u "electric outlet");
            JStr (u "toaster")]);
     (k_action_type, JStr (u "insert"));
     (k_task_instruction, JStr (u "Power on the toaster."))].

End Reordered.

(* ===================================================================== *)
(** * Properties *)
(* ===================================================================== *)

(* ===================================================================== *)
(** ** Generic facts *)
(* ===================================================================== *)

Lemma bind_ok {A B : Type} (r : result A) (k : A -> result B) (b : B) :
  bind r k = Ok b -> exists a, r = Ok a /\ k a = Ok b.
Proof.
  destruct r as [a | e]; simpl; intros H.
  - exists a. split; [reflexivity | exact H].
  - discriminate H.
Qed.

(** Take a chain of binds that returned apart. *)
Ltac bind_inv H :=
  let a := fresh "v" in
  let Ha := fresh "E" in
  apply bind_ok in H; destruct H as (a & Ha & H).

Lemma str_eqb_refl (a : str) : str_eqb a a = true.
Proof.
  induction a as [| x a IH]; simpl; [reflexivity |].
  rewrite N.eqb_refl. exact IH.
Qed.

Lemma str_eqb_eq (a b : str) : str_eqb a b = true <-> a = b.
Proof.
  split.
  - revert b. induction a as [| x a IH]; intros [| y b]; simpl; intros H;
      try discriminate; [reflexivity |].
    apply andb_true_iff in H. destruct H as [Hx Hr].
    apply N.eqb_eq in Hx. apply IH in Hr. congruence.
  - intros ->. apply str_eqb_refl.
Qed.

Lemma str_eqb_sym (a b : str) : str_eqb a b = str_eqb b a.
Proof.
  destruct (str_eqb a b) eqn:E1, (str_eqb b a) eqn:E2; try reflexivity.
  - apply str_eqb_eq in E1. subst. rewrite str_eqb_refl in E2. discriminate.
  - apply str_eqb_eq in E2. subst. rewrite str_eqb_refl in E1. discriminate.
Qed.

(* ===================================================================== *)
(** ** Length penalty *)
(* ===================================================================== *)

(** The penalty is always defined (the division is never by zero) and lies
    between [-1] and [0]. *)
Lemma soft_overlong_punishment_range (len max buffer : Z) :
  exists q, soft_overlong_punishment len max buffer = Ok q /\ -1 <= q <= 0.
Proof.
  unfold soft_overlong_punishment.
  destruct (len <=? max - buffer)%Z eqn:E1.
  - exists 0. split; [reflexivity | split; discriminate].
  - destruct (len <=? max)%Z eqn:E2.
    + apply Z.leb_gt in E1. apply Z.leb_le in E2.
      unfold py_truediv.
      destruct (buffer =? 0)%Z eqn:E3; [apply Z.eqb_eq in E3; lia |].
      eexists. split; [reflexivity |].
      assert (Hb : 0 < inject_Z buffer).
      { change 0 with (inject_Z 0). rewrite <- Zlt_Qlt. lia. }
      split.
      * apply Qle_shift_div_l; [exact Hb |].
        setoid_replace (-1 * inject_Z buffer) with (inject_Z (- buffer))
          by (rewrite inject_Z_opp; ring).
        rewrite <- Zle_Qle. lia.
      * apply Qle_shift_div_r; [exact Hb |].
        setoid_replace (0 * inject_Z buffer) with (inject_Z 0) by ring.
        rewrite <- Zle_Qle. lia.
    + exists (-1). split; [reflexivity | split; discriminate].
Qed.

Lemma overlong_at_max (max buffer : Z) :
  exists q, soft_overlong_punishment max max buffer = Ok q
            /\ (q == -1 <-> (0 < buffer)%Z).
Proof.
  unfold soft_overlong_punishment.
  destruct (max <=? max - buffer)%Z eqn:E1.
  - apply Z.leb_le in E1. exists 0. split; [reflexivity |].
    split; [discriminate | lia].
  - apply Z.leb_gt in E1. rewrite Z.leb_refl. unfold py_truediv.
    destruct (buffer =? 0)%Z eqn:E3; [apply Z.eqb_eq in E3; lia |].
    eexists. split; [reflexivity |]. split; [lia | intros Hb].
    replace (max - buffer - max)%Z with (- buffer)%Z by lia.
    rewrite inject_Z_opp. field.
    change 0 with (inject_Z 0). rewrite inject_Z_injective. lia.
Qed.

(** C4, the claim as written: [overlong(max, max, buffer) = -1.0] would
    force [expected = max - buffer] to be [0].  It does not: at [max = 100],
    [buffer = 20] the penalty is [-1] and [expected] is [80]. *)
Lemma overlong_at_max_only_when_expected_zero_fails :
  ~ (forall max buffer q,
        soft_overlong_punishment max max buffer = Ok q ->
        q == -1 -> (max - buffer = 0)%Z).
Proof.
  intros H.
  specialize (H 100%Z 20%Z (inject_Z (100 - 20 - 100) / inject_Z 20)).
  assert (Hc : (100 - 20 = 0)%Z) by (apply H; reflexivity).
  discriminate Hc.
Qed.

(** C4, amended: [overlong(max - buffer, max, buffer) = 0.0];
    [overlong(max, max, buffer)] is [-1.0] exactly when [buffer > 0],
    whatever [max - buffer] is; [overlong(80,100,20) = 0.0],
    [overlong(90,100,20) = -0.5], [overlong(150,100,20) = -1.0]. *)
Theorem overlong_boundary :
  (forall max buffer,
      soft_overlong_punishment (max - buffer) max buffer = Ok 0)
  /\ (forall max buffer,
        exists q, soft_overlong_punishment max max buffer = Ok q
                  /\ (q == -1 <-> (0 < buffer)%Z))
  /\ soft_overlong_punishment 80 100 20 = Ok 0
  /\ (exists q, soft_overlong_punishment 90 100 20 = Ok q /\ q == - (1 # 2))
  /\ soft_overlong_punishment 150 100 20 = Ok (- 1).
Proof.
  split; [| split; [| split; [| split]]].
  - intros max buffer. unfold soft_overlong_punishment.
    rewrite Z.leb_refl. reflexivity.
  - exact overlong_at_max.
  - reflexivity.
  - eexists. split; reflexivity.
  - reflexivity.
Qed.

Lemma overlong_boundary_witness :
  exists q, soft_overlong_punishment 100 100 20 = Ok q
            /\ (q == -1 <-> (0 < 20)%Z).
Proof. exact (proj1 (proj2 overlong_boundary) 100%Z 20%Z). Defined.

(* ===================================================================== *)
(** ** Accuracy mapping *)
(* ===================================================================== *)

(** The last step of [accuracy_reward], once the three gates are passed. *)
Lemma accuracy_reward_scored (response ground_truth : str) (gt_json : json) :
  json_loads (strip ground_truth) = Some gt_json ->
  extract_answer_json response <> JNull ->
  format_reward response = Ok 1 ->
  accuracy_reward response ground_truth =
  bind (calculate_graph_similarity (extract_answer_json response) gt_json)
       (fun similarity => Ok (accuracy_step similarity)).
Proof.
  intros Hgt Hpred Hfmt. unfold accuracy_reward. rewrite Hgt, Hfmt.
  destruct (extract_answer_json response) eqn:E;
    try (contradiction Hpred; reflexivity);
    cbn [is_none bind]; change (Qeq_bool 1 0) with false; cbv iota;
    destruct (calculate_graph_similarity _ gt_json) as [similarity | e];
    cbn [bind]; try reflexivity; unfold accuracy_step;
    repeat match goal with
           | |- context [if ?b then _ else _] => destruct b
           end; reflexivity.
Qed.

Lemma Qle_bool_false (x y : Q) : Qle_bool x y = false -> y < x.
Proof.
  intros H. apply Qnot_le_lt. intros Hle.
  apply Qle_bool_iff in Hle. congruence.
Qed.

Lemma accuracy_step_in_bucket (similarity : Q) :
  in_bucket similarity (accuracy_step similarity).
Proof.
  unfold in_bucket, accuracy_step.
  destruct (Qle_bool (98 # 100) similarity) eqn:E1;
    [apply Qle_bool_iff in E1 | apply Qle_bool_false in E1;
     destruct (Qle_bool (85 # 100) similarity) eqn:E2;
     [apply Qle_bool_iff in E2 | apply Qle_bool_false in E2;
      destruct (Qle_bool (7 # 10) similarity) eqn:E3;
      [apply Qle_bool_iff in E3 | apply Qle_bool_false in E3;
       destruct (Qle_bool (5 # 10) similarity) eqn:E4;
       [apply Qle_bool_iff in E4 | apply Qle_bool_false in E4;
        destruct (Qle_bool (3 # 10) similarity) eqn:E5;
        [apply Qle_bool_iff in E5 | apply Qle_bool_false in E5]]]]];
    repeat split; intros; try reflexivity; exfalso; lra.
Qed.

Lemma in_bucket_monotone (s1 s2 a1 a2 : Q) :
  in_bucket s1 a1 -> in_bucket s2 a2 -> s1 <= s2 -> a1 <= a2.
Proof.
  unfold in_bucket.
  intros (A1 & A2 & A3 & A4 & A5 & A6) (B1 & B2 & B3 & B4 & B5 & B6) Hle.
  destruct (Qlt_le_dec s1 (3 # 10)) as [L1 | L1];
  [ rewrite (A6 L1)
  | destruct (Qlt_le_dec s1 (5 # 10)) as [L2 | L2];
    [ rewrite (A5 (conj L1 L2))
    | destruct (Qlt_le_dec s1 (7 # 10)) as [L3 | L3];
      [ rewrite (A4 (conj L2 L3))
      | destruct (Qlt_le_dec s1 (85 # 100)) as [L4 | L4];
        [ rewrite (A3 (conj L3 L4))
        | destruct (Qlt_le_dec s1 (98 # 100)) as [L5 | L5];
          [ rewrite (A2 (conj L4 L5)) | rewrite (A1 L5) ]]]]];
  (destruct (Qlt_le_dec s2 (3 # 10)) as [M1 | M1];
  [ rewrite (B6 M1)
  | destruct (Qlt_le_dec s2 (5 # 10)) as [M2 | M2];
    [ rewrite (B5 (conj M1 M2))
    | destruct (Qlt_le_dec s2 (7 # 10)) as [M3 | M3];
      [ rewrite (B4 (conj M2 M3))
      | destruct (Qlt_le_dec s2 (85 # 100)) as [M4 | M4];
        [ rewrite (B3 (conj M3 M4))
        | destruct (Qlt_le_dec s2 (98 # 100)) as [M5 | M5];
          [ rewrite (B2 (conj M4 M5)) | rewrite (B1 M5) ]]]]]);
  try discriminate; exfalso; lra.
Qed.

Lemma accuracy_step_monotone (s1 s2 : Q) :
  s1 <= s2 -> accuracy_step s1 <= accuracy_step s2.
Proof.
  apply in_bucket_monotone; apply accuracy_step_in_bucket.
Qed.

(** C2.  When the ground truth parses, a payload is extracted and
    [format_reward] is [1.0], [accuracy_reward] is the step function of the
    graph similarity (and raises what the similarity raises); the step
    function has the lower-inclusive buckets [>= 0.98] to [1.0],
    [[0.85, 0.98)] to [0.8], [[0.70, 0.85)] to [0.5], [[0.50, 0.70)] to
    [0.2], [[0.30, 0.50)] to [0.0] and below [0.30] to [-0.5], and is
    monotone non-decreasing. *)
Theorem accuracy_reward_step_function :
  (forall response ground_truth gt_json,
      json_loads (strip ground_truth) = Some gt_json ->
      extract_answer_json response <> JNull ->
      format_reward response = Ok 1 ->
      accuracy_reward response ground_truth =
      bind (calculate_graph_similarity (extract_answer_json response) gt_json)
           (fun similarity => Ok (accuracy_step similarity)))
  /\ (forall similarity, in_bucket similarity (accuracy_step similarity))
  /\ (forall s1 s2, s1 <= s2 -> accuracy_step s1 <= accuracy_step s2).
Proof.
  split; [exact accuracy_reward_scored |].
  split; [exact accuracy_step_in_bucket | exact accuracy_step_monotone].
Qed.

(** An exception of the similarity computation is the exception of
    [accuracy_reward]. *)
Lemma accuracy_reward_raises (response ground_truth : str) (gt_json : json)
  (e : exn) :
  json_loads (strip ground_truth) = Some gt_json ->
  extract_answer_json response <> JNull ->
  format_reward response = Ok 1 ->
  calculate_graph_similarity (extract_answer_json response) gt_json = Raise e ->
  accuracy_reward response ground_truth = Raise e.
Proof.
  intros Hgt Hpred Hfmt Hsim.
  rewrite (accuracy_reward_scored _ _ _ Hgt Hpred Hfmt), Hsim. reflexivity.
Qed.

(** C5.  When [format_reward] is [0.0], [accuracy_reward] returns, and what
    it returns is at most [0.0], whatever the ground truth and whatever the
    similarity of the payload would be. *)
Theorem format_gate :
  forall response ground_truth,
    format_reward response = Ok 0 ->
    exists a, accuracy_reward response ground_truth = Ok a
              /\ (a = -5 # 10 \/ a = 0) /\ a <= 0.
Proof.
  intros response ground_truth Hfmt. unfold accuracy_reward.
  destruct (json_loads (strip ground_truth)) as [gt_json |].
  - destruct (is_none (extract_answer_json response)).
    + exists (-5 # 10). split; [reflexivity | split; [left; reflexivity | discriminate]].
    + rewrite Hfmt. simpl.
      exists 0. split; [reflexivity | split; [right; reflexivity | discriminate]].
  - exists (-5 # 10). split; [reflexivity | split; [left; reflexivity | discriminate]].
Qed.

(* ===================================================================== *)
(** ** Bounds of the similarity scores *)
(* ===================================================================== *)

Lemma inject_Z_nat_pos (n : nat) : 0 <= inject_Z (Z.of_nat n).
Proof. change 0 with (inject_Z 0). rewrite <- Zle_Qle. lia. Qed.

Lemma intersection_over_union_range (pred gt : pyset) :
  0 <= intersection_over_union pred gt <= 1.
Proof.
  unfold intersection_over_union, set_intersection, set_union.
  set (i := Z.of_nat (length (filter (fun x => set_mem x gt) pred))).
  set (n := Z.of_nat (length (pred ++ filter (fun x => negb (set_mem x pred)) gt))).
  assert (Hi : (0 <= i <= n)%Z).
  { subst i n. rewrite length_app.
    pose proof (filter_length_le (fun x => set_mem x gt) pred). lia. }
  destruct (0 <? n)%Z eqn:E; [| split; discriminate].
  apply Z.ltb_lt in E.
  assert (Hn : 0 < inject_Z n).
  { change 0 with (inject_Z 0). rewrite <- Zlt_Qlt. exact E. }
  split.
  - apply Qle_shift_div_l; [exact Hn |].
    setoid_replace (0 * inject_Z n) with (inject_Z 0) by ring.
    rewrite <- Zle_Qle. lia.
  - apply Qle_shift_div_r; [exact Hn |].
    setoid_replace (1 * inject_Z n) with (inject_Z n) by ring.
    rewrite <- Zle_Qle. lia.
Qed.

Lemma Qdiv_range (x n : Q) : 0 < n -> 0 <= x <= n -> 0 <= x / n <= 1.
Proof.
  intros Hn Hx. split.
  - apply Qle_shift_div_l; [exact Hn | lra].
  - apply Qle_shift_div_r; [exact Hn | lra].
Qed.

Lemma objects_component_values (pred_edge gt_edge : json) (v : Q) :
  objects_component pred_edge gt_edge = Ok v -> v = 1 \/ v = 0.
Proof.
  unfold objects_component. intros H.
  do 6 bind_inv H. injection H as <-.
  destruct (set_eq _ _); [left | right]; reflexivity.
Qed.

Lemma calculate_edge_similarity_range (pred_edge gt_edge : json) (v : Q) :
  calculate_edge_similarity pred_edge gt_edge = Ok v -> 0 <= v <= 1.
Proof.
  unfold calculate_edge_similarity. intros H.
  do 9 bind_inv H. injection H as <-.
  match goal with
  | E : objects_component _ _ = Ok ?o |- _ =>
      apply objects_component_values in E
  end.
  match goal with
  | |- context [intersection_over_union ?p ?g] =>
      pose proof (intersection_over_union_range p g) as Hiou;
      set (iou := intersection_over_union p g) in *
  end.
  repeat match goal with
         | |- context [if ?b then _ else _] => destruct b
         end;
    match goal with
    | E : _ \/ _ |- _ => destruct E; subst
    end; clearbody iou; (apply Qdiv_range; [reflexivity | lra]).
Qed.

Lemma py_max_range (a b : Q) :
  0 <= a <= 1 -> 0 <= b <= 1 -> 0 <= py_max a b <= 1.
Proof. unfold py_max. destruct (Qle_bool b a); tauto. Qed.

Lemma best_match_loop_range (pred_edges : list json) (gt_edge : json) :
  forall best v,
    0 <= best <= 1 ->
    best_match_loop pred_edges gt_edge best = Ok v -> 0 <= v <= 1.
Proof.
  induction pred_edges as [| pe rest IH]; simpl; intros best v Hb H.
  - injection H as <-. exact Hb.
  - bind_inv H.
    apply (IH _ _ (py_max_range _ _ Hb (calculate_edge_similarity_range _ _ _ E)) H).
Qed.

Lemma inject_Z_succ (n : nat) :
  inject_Z (Z.of_nat (S n)) == inject_Z (Z.of_nat n) + 1.
Proof. rewrite Nat2Z.inj_succ. unfold Z.succ. rewrite inject_Z_plus. reflexivity. Qed.

Lemma edge_score_loop_range (gt_edges : list json) (pred_edges : json) :
  forall acc v,
    edge_score_loop gt_edges pred_edges acc = Ok v ->
    acc <= v <= acc + inject_Z (Z.of_nat (length gt_edges)).
Proof.
  induction gt_edges as [| g rest IH]; intros acc v H.
  - simpl in H. injection H as <-. simpl. change (inject_Z 0) with 0. lra.
  - cbn [edge_score_loop] in H. do 2 bind_inv H.
    apply IH in H.
    assert (Hb : 0 <= v1 <= 1).
    { apply (best_match_loop_range v0 g 0 v1); [lra | exact E0]. }
    cbn [length]. rewrite inject_Z_succ. lra.
Qed.

(** [len] counts what iteration yields. *)
Lemma py_iter_len (v : json) (l : list json) :
  py_iter v = Ok l -> py_len v = Ok (Z.of_nat (length l)).
Proof.
  destruct v; simpl; intros H; try discriminate; injection H as <-;
    rewrite ?length_map; reflexivity.
Qed.

Lemma py_truthy_iter_nonempty (v : json) (l : list json) :
  py_truthy v = true -> py_iter v = Ok l -> l <> [].
Proof.
  destruct v; simpl; intros Ht H; try discriminate; injection H as <-.
  - destruct s; [discriminate | discriminate].
  - destruct l0; [discriminate | discriminate].
  - destruct d as [| [k x] d]; [discriminate |].
    unfold dict_keys. simpl. discriminate.
Qed.

Lemma edges_similarity_range (pred_edges gt_edges : json) (v : Q) :
  edges_similarity pred_edges gt_edges = Ok v -> 0 <= v <= 1.
Proof.
  unfold edges_similarity. intros H.
  destruct (py_truthy gt_edges) eqn:Ht;
    [| injection H as <-; split; discriminate].
  do 5 bind_inv H.
  pose proof (py_truthy_iter_nonempty _ _ Ht E) as Hne.
  rewrite (py_iter_len _ _ E) in E1, E3.
  injection E1 as <-. injection E3 as <-.
  apply edge_score_loop_range in E0.
  set (n := inject_Z (Z.of_nat (length v0))) in *.
  assert (Hn : 0 < n).
  { subst n. change 0 with (inject_Z 0). rewrite <- Zlt_Qlt.
    destruct v0; [contradiction Hne; reflexivity | simpl; lia]. }
  assert (Havg : 0 <= v1 / n <= 1) by (apply Qdiv_range; [exact Hn | lra]).
  destruct (Z.of_nat (length v0) <? v3)%Z eqn:Hlt.
  - injection H as <-. apply Z.ltb_lt in Hlt.
    assert (Hp : 0 <= inject_Z (v3 - Z.of_nat (length v0)) * (1 # 10)).
    { apply Qmult_le_0_compat; [| discriminate].
      change 0 with (inject_Z 0). rewrite <- Zle_Qle. lia. }
    unfold py_max.
    destruct (Qle_bool _ 0) eqn:Hm; [split; discriminate |].
    apply Qle_bool_false in Hm. lra.
  - injection H as <-. exact Havg.
Qed.

Lemma nodes_similarity_range (pred_json gt_json : json) (v : Q) :
  nodes_similarity pred_json gt_json = Ok v -> 0 <= v <= 1.
Proof.
  unfold nodes_similarity. intros H. do 4 bind_inv H.
  destruct (nonempty _); injection H as <-.
  - apply intersection_over_union_range.
  - split; discriminate.
Qed.


Lemma accuracy_reward_values (response ground_truth : str) (a : Q) :
  accuracy_reward response ground_truth = Ok a ->
  a = -5 # 10 \/ a = 0 \/ a = 2 # 10 \/ a = 5 # 10 \/ a = 8 # 10 \/ a = 1.
Proof.
  unfold accuracy_reward. intros H.
  destruct (json_loads (strip ground_truth)) as [gt_json |];
    [| injection H as <-; tauto].
  destruct (is_none (extract_answer_json response));
    [injection H as <-; tauto |].
  bind_inv H.
  destruct (Qeq_bool v 0); [injection H as <-; tauto |].
  bind_inv H.
  repeat match type of H with
         | (if ?b then _ else _) = _ => destruct b
         end; injection H as <-; tauto.
Qed.

(* ===================================================================== *)
(** ** The similarity functions on the data model *)
(* ===================================================================== *)

Lemma set_of_list_strings (l : list json) :
  forallb is_str l = true ->
  forall acc, exists s, set_of_list l acc = Ok s.
Proof.
  induction l as [| x l IH]; simpl; intros H acc.
  - exists acc. reflexivity.
  - apply andb_true_iff in H. destruct H as [Hx Hl].
    destruct x; try discriminate. simpl. apply IH. exact Hl.
Qed.

Lemma py_get_default_field (d : dict) (k : str) (default : json) :
  field d k <> JNull ->
  py_get_default (JObj d) k default = Ok (field d k).
Proof.
  unfold py_get_default, field. destruct (dict_get k d); [reflexivity |].
  intros H. contradiction H. reflexivity.
Qed.

Lemma py_set_str_list (v : json) :
  is_str_list v = true -> exists s, py_set v = Ok s.
Proof.
  destruct v; try discriminate. simpl. intros H.
  apply set_of_list_strings. exact H.
Qed.

Lemma is_str_list_not_none (v : json) : is_str_list v = true -> v <> JNull.
Proof. destruct v; discriminate. Qed.

Lemma objects_component_total (pd gd : dict) :
  is_str (field pd k_object1) = true -> is_str (field pd k_object2) = true ->
  is_str (field gd k_object1) = true -> is_str (field gd k_object2) = true ->
  exists v, objects_component (JObj pd) (JObj gd) = Ok v.
Proof.
  unfold objects_component, py_get. fold (field pd k_object1).
  fold (field pd k_object2). fold (field gd k_object1). fold (field gd k_object2).
  destruct (field pd k_object1); try discriminate.
  destruct (field pd k_object2); try discriminate.
  destruct (field gd k_object1); try discriminate.
  destruct (field gd k_object2); try discriminate.
  intros _ _ _ _. eexists. reflexivity.
Qed.

Lemma calculate_edge_similarity_total (pred_edge gt_edge : json) :
  is_edge pred_edge = true -> is_edge gt_edge = true ->
  exists v, calculate_edge_similarity pred_edge gt_edge = Ok v.
Proof.
  destruct pred_edge as [| | | | | | pd]; try discriminate.
  destruct gt_edge as [| | | | | | gd]; try discriminate.
  unfold is_edge. intros Hp Hg.
  repeat (apply andb_true_iff in Hp; destruct Hp as [Hp ?]).
  repeat (apply andb_true_iff in Hg; destruct Hg as [Hg ?]).
  unfold calculate_edge_similarity.
  destruct (objects_component_total pd gd) as [o Ho]; try assumption.
  destruct (py_set_str_list (field pd k_spatial_relations)) as [ps Hps];
    [assumption |].
  destruct (py_set_str_list (field gd k_spatial_relations)) as [gs Hgs];
    [assumption |].
  rewrite Ho. cbn [bind py_get].
  rewrite py_get_default_field by (apply is_str_list_not_none; assumption).
  cbn [bind]. rewrite Hps. cbn [bind].
  rewrite py_get_default_field by (apply is_str_list_not_none; assumption).
  cbn [bind]. rewrite Hgs. cbn [bind]. eexists. reflexivity.
Qed.

Lemma best_match_loop_total (pred_edges : list json) (gt_edge : json) :
  forallb is_edge pred_edges = true -> is_edge gt_edge = true ->
  forall best, exists v, best_match_loop pred_edges gt_edge best = Ok v.
Proof.
  intros Hp Hg. induction pred_edges as [| pe rest IH]; intros best.
  - exists best. reflexivity.
  - simpl in Hp. apply andb_true_iff in Hp. destruct Hp as [Hpe Hrest].
    destruct (calculate_edge_similarity_total pe gt_edge Hpe Hg) as [s Hs].
    cbn [best_match_loop]. rewrite Hs. cbn [bind]. apply IH. exact Hrest.
Qed.

Lemma edge_score_loop_total (gt_edges pred_edges : list json) :
  forallb is_edge gt_edges = true -> forallb is_edge pred_edges = true ->
  forall acc, exists v, edge_score_loop gt_edges (JArr pred_edges) acc = Ok v.
Proof.
  intros Hg Hp. induction gt_edges as [| g rest IH]; intros acc.
  - exists acc. reflexivity.
  - simpl in Hg. apply andb_true_iff in Hg. destruct Hg as [Hge Hrest].
    destruct (best_match_loop_total pred_edges g Hp Hge 0) as [b Hb].
    cbn [edge_score_loop py_iter bind]. rewrite Hb. cbn [bind].
    apply IH. exact Hrest.
Qed.

Lemma edges_similarity_total (pred_edges gt_edges : json) :
  is_edge_list pred_edges = true -> is_edge_list gt_edges = true ->
  exists v, edges_similarity pred_edges gt_edges = Ok v.
Proof.
  destruct pred_edges as [| | | | | pl |]; try discriminate.
  destruct gt_edges as [| | | | | gl |]; try discriminate.
  simpl is_edge_list. intros Hp Hg. unfold edges_similarity.
  destruct (py_truthy (JArr gl)); [| eexists; reflexivity].
  destruct (edge_score_loop_total gl pl Hg Hp 0) as [s Hs].
  cbn [py_iter bind py_len]. rewrite Hs. cbn [bind].
  destruct (_ <? _)%Z; eexists; reflexivity.
Qed.

Lemma is_edge_list_not_none (v : json) : is_edge_list v = true -> v <> JNull.
Proof. destruct v; discriminate. Qed.

Lemma calculate_graph_similarity_total (pred_json gt_json : json) :
  is_scene_graph pred_json = true -> is_scene_graph gt_json = true ->
  exists v, calculate_graph_similarity pred_json gt_json = Ok v.
Proof.
  destruct pred_json as [| | | | | | pd]; try discriminate.
  destruct gt_json as [| | | | | | gd]; try discriminate.
  unfold is_scene_graph. intros Hp Hg.
  repeat (apply andb_true_iff in Hp; destruct Hp as [Hp ?]).
  repeat (apply andb_true_iff in Hg; destruct Hg as [Hg ?]).
  destruct (py_set_str_list (field pd k_nodes)) as [ps Hps]; [assumption |].
  destruct (py_set_str_list (field gd k_nodes)) as [gs Hgs]; [assumption |].
  destruct (edges_similarity_total (field pd k_edges) (field gd k_edges))
    as [es Hes]; try assumption.
  unfold calculate_graph_similarity, nodes_similarity.
  cbn [is_none orb bind py_get].
  rewrite py_get_default_field by (apply is_str_list_not_none; assumption).
  cbn [bind]. rewrite Hps. cbn [bind].
  rewrite py_get_default_field by (apply is_str_list_not_none; assumption).
  cbn [bind]. rewrite Hgs. cbn [bind].
  destruct (nonempty gs); cbn [bind];
    (rewrite py_get_default_field by (apply is_edge_list_not_none; assumption));
    cbn [bind];
    (rewrite py_get_default_field by (apply is_edge_list_not_none; assumption));
    cbn [bind]; rewrite Hes; cbn [bind]; eexists; reflexivity.
Qed.

(* ===================================================================== *)
(** ** The reference scenario *)
(* ===================================================================== *)

Module ScenarioFacts.
Import Scenario.

Example ground_truth_parses :
  json_loads (strip ground_truth_text) = Some ground_truth_json.
Proof. vm_compute. reflexivity. Qed.

Example exact_extracted :
  extract_answer_json exact_response = ground_truth_json.
Proof. vm_compute. reflexivity. Qed.

Example exact_format : format_reward exact_response = Ok 1.
Proof. vm_compute. reflexivity. Qed.

Example exact_accuracy :
  accuracy_reward exact_response ground_truth_text = Ok 1.
Proof. vm_compute. reflexivity. Qed.

Example press_format : format_reward press_response = Ok 1.
Proof. vm_compute. reflexivity. Qed.

Example press_similarity :
  exists s,
    calculate_graph_similarity (extract_answer_json press_response)
      ground_truth_json = Ok s
    /\ s == 4 # 5.
Proof. eexists. split; [vm_compute; reflexivity | reflexivity]. Qed.

Example press_accuracy :
  accuracy_reward press_response ground_truth_text = Ok (5 # 10).
Proof. vm_compute. reflexivity. Qed.

Example no_answer_format : format_reward no_answer_response = Ok 0.
Proof. vm_compute. reflexivity. Qed.

Example no_answer_accuracy :
  accuracy_reward no_answer_response ground_truth_text = Ok (-5 # 10).
Proof. vm_compute. reflexivity. Qed.



Example missing_fields_format : format_reward missing_fields_response = Ok 0.
Proof. vm_compute. reflexivity. Qed.


End ScenarioFacts.

(* ===================================================================== *)
(** ** Extra predicted edges *)
(* ===================================================================== *)

Lemma best_match_loop_app (pred_edges : list json) (e gt_edge : json) :
  forall best,
    best_match_loop (pred_edges ++ [e]) gt_edge best =
    bind (best_match_loop pred_edges gt_edge best)
         (fun b => bind (calculate_edge_similarity e gt_edge)
                        (fun x => Ok (py_max b x))).
Proof.
  induction pred_edges as [| pe rest IH]; intros best; simpl.
  - destruct (calculate_edge_similarity e gt_edge); reflexivity.
  - destruct (calculate_edge_similarity pe gt_edge); simpl;
      [apply IH | reflexivity].
Qed.

Lemma py_max_le (a b c : Q) : a <= c -> b <= c -> py_max a b <= c.
Proof. unfold py_max. destruct (Qle_bool b a); tauto. Qed.

Lemma py_max_ge_l (a b : Q) : a <= py_max a b.
Proof.
  unfold py_max. destruct (Qle_bool b a) eqn:E; [apply Qle_refl |].
  apply Qle_bool_false in E. apply Qlt_le_weak. exact E.
Qed.

Lemma py_max_ge_r (a b : Q) : b <= py_max a b.
Proof.
  unfold py_max. destruct (Qle_bool b a) eqn:E; [| apply Qle_refl].
  apply Qle_bool_iff. exact E.
Qed.

Lemma py_max_keeps (b x : Q) : x <= b -> py_max b x = b.
Proof.
  intros H. unfold py_max. apply Qle_bool_iff in H. rewrite H. reflexivity.
Qed.

(** An appended edge that beats no best match leaves the sum of the best
    matches as it was. *)
Lemma edge_score_loop_app (pred_edges : list json) (e : json)
  (gt_edges : list json) :
  (forall g b, In g gt_edges ->
               best_match_loop pred_edges g 0 = Ok b ->
               exists x, calculate_edge_similarity e g = Ok x /\ x <= b) ->
  forall acc v,
    edge_score_loop gt_edges (JArr pred_edges) acc = Ok v ->
    edge_score_loop gt_edges (JArr (pred_edges ++ [e])) acc = Ok v.
Proof.
  induction gt_edges as [| g rest IH]; intros Hnew acc v H.
  - exact H.
  - cbn [edge_score_loop py_iter bind] in H |- *.
    bind_inv H.
    destruct (Hnew g v0 (or_introl eq_refl) E) as (x & Hx & Hle).
    rewrite best_match_loop_app, E. cbn [bind]. rewrite Hx. cbn [bind].
    rewrite (py_max_keeps _ _ Hle).
    apply IH; [| exact H].
    intros g' b' Hin. apply Hnew. right. exact Hin.
Qed.

Module ExtraEdgeFacts.
Import ExtraEdge.

Example one_unrelated_edge :
  edges_similarity (JArr [unrelated_edge]) (JArr [toaster_edge]) = Ok 0.
Proof. vm_compute. reflexivity. Qed.

Example unrelated_then_exact_edge :
  exists s,
    edges_similarity (JArr ([unrelated_edge] ++ [toaster_edge]))
      (JArr [toaster_edge]) = Ok s
    /\ s == 9 # 10.
Proof. eexists. split; [vm_compute; reflexivity | reflexivity]. Qed.

End ExtraEdgeFacts.

(** C1, the claim as written: with at least as many predicted edges as
    ground-truth edges, one more predicted edge would never raise the edges
    component.  It does when the new edge is a better match: against the one
    ground-truth edge [toaster_edge], the prediction [[unrelated_edge]] scores
    [0] and the prediction [[unrelated_edge; toaster_edge]] scores [0.9]. *)
Lemma extra_edge_can_raise_edges_similarity :
  ~ (forall (gt_edges pred_edges : list json) (e : json) (s s' : Q),
        (length gt_edges <= length pred_edges)%nat ->
        edges_similarity (JArr pred_edges) (JArr gt_edges) = Ok s ->
        edges_similarity (JArr (pred_edges ++ [e])) (JArr gt_edges) = Ok s' ->
        s' <= s).
Proof.
  intros H.
  destruct ExtraEdgeFacts.unrelated_then_exact_edge as (s' & Hs' & Heq).
  specialize (H [ExtraEdge.toaster_edge] [ExtraEdge.unrelated_edge]
                ExtraEdge.toaster_edge 0 s' (le_n 1)
                ExtraEdgeFacts.one_unrelated_edge Hs').
  lra.
Qed.

(** C1, amended: for ground-truth edges [gt_edges] and at least as many
    predicted edges, appending a predicted edge whose similarity to every
    ground-truth edge is at most the best match that edge already has never
    increases the edges component (and the component is still defined). *)
Theorem extra_edge_never_raises_edges_similarity :
  forall (gt_edges pred_edges : list json) (e : json) (s : Q),
    (length gt_edges <= length pred_edges)%nat ->
    edges_similarity (JArr pred_edges) (JArr gt_edges) = Ok s ->
    (forall g b, In g gt_edges ->
                 best_match_loop pred_edges g 0 = Ok b ->
                 exists x, calculate_edge_similarity e g = Ok x /\ x <= b) ->
    exists s',
      edges_similarity (JArr (pred_edges ++ [e])) (JArr gt_edges) = Ok s'
      /\ s' <= s.
Proof.
  intros gt_edges pred_edges e s Hlen H Hnew.
  unfold edges_similarity in H |- *.
  destruct (py_truthy (JArr gt_edges)) eqn:Ht.
  2:{ injection H as <-. exists 0. split; [reflexivity | discriminate]. }
  cbn [py_iter py_len bind] in H |- *.
  bind_inv H.
  rewrite (edge_score_loop_app pred_edges e gt_edges Hnew 0 v E).
  cbn [bind].
  pose proof (edge_score_loop_range _ _ _ _ E) as Hrange.
  assert (Hn : 0 < inject_Z (Z.of_nat (length gt_edges))).
  { change 0 with (inject_Z 0). rewrite <- Zlt_Qlt.
    destruct gt_edges; [discriminate Ht | simpl; lia]. }
  assert (Havg : 0 <= v / inject_Z (Z.of_nat (length gt_edges)) <= 1)
    by (apply Qdiv_range; [exact Hn | lra]).
  set (avg := v / inject_Z (Z.of_nat (length gt_edges))) in *.
  clearbody avg.
  rewrite length_app. cbn [length].
  assert (Hlt : (Z.of_nat (length gt_edges)
                 <? Z.of_nat (length pred_edges + 1))%Z = true)
    by (apply Z.ltb_lt; lia).
  rewrite Hlt.
  replace (Z.of_nat (length pred_edges + 1) - Z.of_nat (length gt_edges))%Z
    with ((Z.of_nat (length pred_edges) - Z.of_nat (length gt_edges)) + 1)%Z
    by lia.
  rewrite inject_Z_plus.
  set (k := inject_Z (Z.of_nat (length pred_edges) - Z.of_nat (length gt_edges))) in *.
  assert (Hk : 0 <= k).
  { subst k. change 0 with (inject_Z 0). rewrite <- Zle_Qle. lia. }
  clearbody k. change (inject_Z 1) with 1.
  eexists. split; [reflexivity |].
  apply py_max_le.
  - destruct (_ <? _)%Z; injection H as <-; [apply py_max_ge_l | lra].
  - destruct (_ <? _)%Z; injection H as <-; [| lra].
    apply Qle_trans with (avg - k * (1 # 10)); [lra | apply py_max_ge_r].
Qed.

Lemma extra_edge_never_raises_edges_similarity_witness :
  exists s',
    edges_similarity
      (JArr ([ExtraEdge.toaster_edge] ++ [ExtraEdge.unrelated_edge]))
      (JArr [ExtraEdge.toaster_edge]) = Ok s'
    /\ s' <= 16 # 16.
Proof.
  apply (extra_edge_never_raises_edges_similarity
           [ExtraEdge.toaster_edge] [ExtraEdge.toaster_edge]
           ExtraEdge.unrelated_edge (16 # 16)).
  - simpl. lia.
  - vm_compute. reflexivity.
  - intros g b [<- | []] Hb. vm_compute in Hb. injection Hb as <-.
    eexists. split; [vm_compute; reflexivity | discriminate].
Defined.

(* ===================================================================== *)
(** ** Similarity bounds *)
(* ===================================================================== *)

Module UnhashableFacts.
Import Unhashable.


End UnhashableFacts.




(* ===================================================================== *)
(** ** The end-to-end scenario *)
(* ===================================================================== *)

(** C7.  With the ground truth of the reference fixture, and whatever the
    length budget and the weights: the response whose payload is that very
    object scores format [1.0] and accuracy [1.0]; the same payload with
    [action_type] changed to [press] scores format [1.0] and accuracy [0.5];
    a response with no [Answer:] field scores format [0.0] and accuracy
    [-0.5]. *)
Theorem reference_scenario :
  forall (max_response_length overlong_buffer_length : Z)
         (overlong_penalty_factor format_weight : Q),
  exists r1 r2 r3,
    compute_score
      (PyList
         [ {| response := Scenario.exact_response;
              ground_truth := Scenario.ground_truth_text |};
           {| response := Scenario.press_response;
              ground_truth := Scenario.ground_truth_text |};
           {| response := Scenario.no_answer_response;
              ground_truth := Scenario.ground_truth_text |} ])
      max_response_length overlong_buffer_length
      overlong_penalty_factor format_weight
    = Ok [r1; r2; r3]
    /\ format r1 = 1 /\ accuracy r1 = 1
    /\ format r2 = 1 /\ accuracy r2 = 5 # 10
    /\ format r3 = 0 /\ accuracy r3 = -5 # 10.
Proof.
  intros max buffer factor weight.
  destruct (soft_overlong_punishment_range
              (Z.of_nat (length Scenario.exact_response)) max buffer)
    as (q1 & Hq1 & _).
  destruct (soft_overlong_punishment_range
              (Z.of_nat (length Scenario.press_response)) max buffer)
    as (q2 & Hq2 & _).
  destruct (soft_overlong_punishment_range
              (Z.of_nat (length Scenario.no_answer_response)) max buffer)
    as (q3 & Hq3 & _).
  unfold compute_score. cbn [score_loop]. unfold score_one.
  cbn [response ground_truth].
  rewrite ScenarioFacts.exact_format, ScenarioFacts.exact_accuracy, Hq1.
  cbn [bind app].
  rewrite ScenarioFacts.press_format, ScenarioFacts.press_accuracy, Hq2.
  cbn [bind app].
  rewrite ScenarioFacts.no_answer_format, ScenarioFacts.no_answer_accuracy, Hq3.
  cbn [bind app].
  do 3 eexists. split; [reflexivity |].
  cbn [format accuracy]. repeat split; reflexivity.
Qed.

(* ===================================================================== *)
(** ** The batch contract *)
(* ===================================================================== *)

Lemma compute_score_not_a_list (max buffer : Z) (factor weight : Q) :
  compute_score PyNotList max buffer factor weight = Raise ValueError.
Proof. reflexivity. Qed.

Lemma score_loop_records (samples : list reward_input) (max buffer : Z)
  (factor weight : Q) :
  forall scores out,
    score_loop samples max buffer factor weight scores = Ok out ->
    exists new,
      out = scores ++ new
      /\ Forall2 (fun sample record =>
                    score_one sample max buffer factor weight = Ok record)
                 samples new.
Proof.
  induction samples as [| sample rest IH]; intros scores out H.
  - simpl in H. injection H as <-. exists []. split.
    + rewrite app_nil_r. reflexivity.
    + constructor.
  - cbn [score_loop] in H. bind_inv H.
    destruct (IH _ _ H) as (new & -> & Hall).
    exists (v :: new). split.
    + rewrite <- app_assoc. reflexivity.
    + constructor; assumption.
Qed.

(** When the batch is scored, there is one record per sample, in the order
    of the samples. *)
Lemma compute_score_records (samples : list reward_input) (max buffer : Z)
  (factor weight : Q) (out : list reward_record) :
  compute_score (PyList samples) max buffer factor weight = Ok out ->
  Forall2 (fun sample record =>
             score_one sample max buffer factor weight = Ok record)
          samples out.
Proof.
  intros H. apply score_loop_records in H.
  destruct H as (new & -> & Hall). exact Hall.
Qed.

Module MalformedFacts.
Import Malformed.

Example list_action_format :
  format_reward list_action_response = Raise TypeError.
Proof. vm_compute. reflexivity. Qed.

Example list_node_format : format_reward list_node_response = Ok 1.
Proof. vm_compute. reflexivity. Qed.

Example list_node_accuracy :
  accuracy_reward list_node_response Scenario.ground_truth_text
  = Raise TypeError.
Proof. vm_compute. reflexivity. Qed.

End MalformedFacts.

(** C9.  On the batch of one sample whose response carries a payload with a
    list as [action_type], and whose ground truth is the reference fixture,
    [compute_score] returns no record: the membership test of
    [format_reward] raises [TypeError]. *)
Theorem compute_score_raises_on_list_action_type :
  compute_score
    (PyList [ {| response := Malformed.list_action_response;
                 ground_truth := Scenario.ground_truth_text |} ])
    1024 128 1 default_format_weight
  = Raise TypeError.
Proof. vm_compute. reflexivity. Qed.

Lemma accuracy_reward_step_function_witness :
  accuracy_reward Scenario.press_response Scenario.ground_truth_text =
  bind (calculate_graph_similarity
          (extract_answer_json Scenario.press_response)
          Scenario.ground_truth_json)
       (fun similarity => Ok (accuracy_step similarity)).
Proof.
  apply (proj1 accuracy_reward_step_function
           Scenario.press_response Scenario.ground_truth_text
           Scenario.ground_truth_json).
  - vm_compute. reflexivity.
  - vm_compute. discriminate.
  - vm_compute. reflexivity.
Defined.

Lemma format_gate_witness :
  exists a,
    accuracy_reward Scenario.missing_fields_response Scenario.ground_truth_text
    = Ok a
    /\ (a = -5 # 10 \/ a = 0) /\ a <= 0.
Proof.
  apply (format_gate Scenario.missing_fields_response Scenario.ground_truth_text).
  vm_compute. reflexivity.
Defined.

(* ===================================================================== *)
(** ** Dictionaries *)
(* ===================================================================== *)

Lemma dict_get_set_same (k : str) (v : json) (d : dict) :
  dict_get k (dict_set k v d) = Some v.
Proof.
  induction d as [| [k' v'] d IH]; simpl.
  - rewrite str_eqb_refl. reflexivity.
  - destruct (str_eqb k k') eqn:E; simpl.
    + rewrite str_eqb_refl. reflexivity.
    + rewrite E. exact IH.
Qed.

Lemma dict_get_set_other (k k' : str) (v : json) (d : dict) :
  str_eqb k k' = false ->
  dict_get k (dict_set k' v d) = dict_get k d.
Proof.
  intros Hk. induction d as [| [k0 v0] d IH]; simpl.
  - rewrite Hk. reflexivity.
  - destruct (str_eqb k' k0) eqn:E; simpl.
    + apply str_eqb_eq in E. subst k0. rewrite Hk. reflexivity.
    + destruct (str_eqb k k0); [reflexivity | exact IH].
Qed.

Lemma field_set_same (k : str) (v : json) (d : dict) :
  field (dict_set k v d) k = v.
Proof. unfold field. rewrite dict_get_set_same. reflexivity. Qed.

Lemma field_set_other (k k' : str) (v : json) (d : dict) :
  str_eqb k k' = false -> field (dict_set k' v d) k = field d k.
Proof. intros H. unfold field. rewrite dict_get_set_other by exact H. reflexivity. Qed.

Lemma dict_mem_set_other (k k' : str) (v : json) (d : dict) :
  str_eqb k k' = false -> dict_mem k (dict_set k' v d) = dict_mem k d.
Proof. intros H. unfold dict_mem. rewrite dict_get_set_other by exact H. reflexivity. Qed.

Lemma dict_mem_set_present (k k' : str) (v : json) (d : dict) :
  dict_mem k' d = true -> dict_mem k (dict_set k' v d) = dict_mem k d.
Proof.
  intros Hp. destruct (str_eqb k k') eqn:E.
  - apply str_eqb_eq in E. subst k'. unfold dict_mem at 1.
    rewrite dict_get_set_same. symmetry. exact Hp.
  - apply dict_mem_set_other. exact E.
Qed.

(* ===================================================================== *)
(** ** Equality of hashable objects *)
(* ===================================================================== *)

Lemma atom_eqb_sym (a b : atom) : atom_eqb a b = atom_eqb b a.
Proof.
  destruct a, b; simpl; try reflexivity.
  - destruct (Qeq_bool q q0) eqn:E1, (Qeq_bool q0 q) eqn:E2; try reflexivity.
    + apply Qeq_bool_iff in E1. symmetry in E1. apply Qeq_bool_iff in E1. congruence.
    + apply Qeq_bool_iff in E2. symmetry in E2. apply Qeq_bool_iff in E2. congruence.
  - destruct negative, negative0; reflexivity.
  - apply str_eqb_sym.
Qed.

Lemma atom_eqb_trans (a b c : atom) :
  atom_eqb a b = true -> atom_eqb b c = true -> atom_eqb a c = true.
Proof.
  destruct a, b, c; simpl; try discriminate; try reflexivity.
  - intros H1 H2. apply Qeq_bool_iff in H1, H2. apply Qeq_bool_iff.
    rewrite H1. exact H2.
  - destruct negative, negative0, negative1; try discriminate; reflexivity.
  - intros H1 H2. apply str_eqb_eq in H1, H2. subst. apply str_eqb_refl.
Qed.

(** Two equal atoms compare alike with every third one. *)
Lemma atom_eqb_congr (a b c : atom) :
  atom_eqb a b = true -> atom_eqb a c = atom_eqb b c.
Proof.
  intros Hab.
  destruct (atom_eqb a c) eqn:E1, (atom_eqb b c) eqn:E2; try reflexivity.
  - rewrite atom_eqb_sym in Hab.
    rewrite (atom_eqb_trans b a c Hab E1) in E2. discriminate.
  - rewrite (atom_eqb_trans a b c Hab E2) in E1. discriminate.
Qed.

(** On a hashable left operand, the comparison is that of the atoms. *)
Lemma py_eq_id_hashable_l (x g : json) :
  hashable x = true ->
  py_eq_id x g =
  match atom_of x, atom_of g with
  | Some a, Some b => atom_eqb a b
  | _, _ => false
  end.
Proof. destruct x; try discriminate; intros _; destruct g; reflexivity. Qed.

Lemma py_eq_id_hashable_r (g x : json) :
  hashable x = true ->
  py_eq_id g x =
  match atom_of g, atom_of x with
  | Some a, Some b => atom_eqb a b
  | _, _ => false
  end.
Proof. destruct x; try discriminate; intros _; destruct g; reflexivity. Qed.

Lemma py_eq_id_sym_hashable (x y : json) :
  hashable x = true -> hashable y = true -> py_eq_id x y = py_eq_id y x.
Proof.
  intros Hx Hy. rewrite (py_eq_id_hashable_l x y Hx), (py_eq_id_hashable_l y x Hy).
  unfold hashable in Hx, Hy.
  destruct (atom_of x), (atom_of y); try discriminate. apply atom_eqb_sym.
Qed.

Lemma py_eq_id_congr_l (x y g : json) :
  hashable x = true -> hashable y = true -> py_eq_id x y = true ->
  py_eq_id x g = py_eq_id y g.
Proof.
  intros Hx Hy. rewrite (py_eq_id_hashable_l x y Hx),
    (py_eq_id_hashable_l x g Hx), (py_eq_id_hashable_l y g Hy).
  unfold hashable in Hx, Hy.
  destruct (atom_of x), (atom_of y); try discriminate.
  destruct (atom_of g); [| reflexivity]. apply atom_eqb_congr.
Qed.

Lemma py_eq_id_congr_r (x y g : json) :
  hashable x = true -> hashable y = true -> py_eq_id x y = true ->
  py_eq_id g x = py_eq_id g y.
Proof.
  intros Hx Hy. rewrite (py_eq_id_hashable_l x y Hx),
    (py_eq_id_hashable_r g x Hx), (py_eq_id_hashable_r g y Hy).
  unfold hashable in Hx, Hy.
  destruct (atom_of x), (atom_of y); try discriminate.
  destruct (atom_of g); [| reflexivity]. intros H.
  rewrite (atom_eqb_sym a1 a), (atom_eqb_sym a1 a0). apply atom_eqb_congr. exact H.
Qed.

Lemma existsb_pointwise {A : Type} (f g : A -> bool) (l : list A) :
  (forall x, f x = g x) -> existsb f l = existsb g l.
Proof.
  intros H. induction l as [| x l IH]; simpl; [reflexivity |].
  rewrite H, IH. reflexivity.
Qed.

Lemma forallb_pointwise {A : Type} (f g : A -> bool) (l : list A) :
  (forall x, f x = g x) -> forallb f l = forallb g l.
Proof.
  intros H. induction l as [| x l IH]; simpl; [reflexivity |].
  rewrite H, IH. reflexivity.
Qed.

(** The set display [{x, y}]. *)
Lemma set_of_pair (x y : json) :
  set_of_list [x; y] [] =
  if hashable x then
    if hashable y then Ok (if py_eq_id y x then [x] else [x; y])
    else Raise TypeError
  else Raise TypeError.
Proof.
  simpl. destruct (hashable x); [| reflexivity].
  destruct (hashable y); [| reflexivity].
  unfold set_add, set_mem. simpl. rewrite orb_false_r.
  destruct (py_eq_id y x); reflexivity.
Qed.

Lemma set_of_pair_swap_raise (x y : json) (e : exn) :
  set_of_list [x; y] [] = Raise e -> set_of_list [y; x] [] = Raise e.
Proof.
  rewrite !set_of_pair.
  destruct (hashable x), (hashable y); try discriminate; intros H; exact H.
Qed.

(** The order of the two objects does not matter to a comparison of the
    set they form. *)
Lemma set_eq_pair_swap_l (x y : json) (s s' G : pyset) :
  set_of_list [x; y] [] = Ok s -> set_of_list [y; x] [] = Ok s' ->
  set_eq s' G = set_eq s G.
Proof.
  rewrite !set_of_pair.
  destruct (hashable x) eqn:Hx; [| discriminate].
  destruct (hashable y) eqn:Hy; [| discriminate].
  rewrite (py_eq_id_sym_hashable x y Hx Hy).
  destruct (py_eq_id y x) eqn:E; intros H1 H2;
    injection H1 as <-; injection H2 as <-; unfold set_eq; simpl.
  - f_equal. f_equal. unfold set_mem.
    apply existsb_pointwise. intros g.
    apply py_eq_id_congr_l; assumption.
  - f_equal. rewrite !andb_true_r. apply andb_comm.
Qed.

Lemma set_eq_pair_swap_r (x y : json) (s s' P : pyset) :
  set_of_list [x; y] [] = Ok s -> set_of_list [y; x] [] = Ok s' ->
  set_eq P s' = set_eq P s.
Proof.
  rewrite !set_of_pair.
  destruct (hashable x) eqn:Hx; [| discriminate].
  destruct (hashable y) eqn:Hy; [| discriminate].
  rewrite (py_eq_id_sym_hashable x y Hx Hy).
  destruct (py_eq_id y x) eqn:E; intros H1 H2;
    injection H1 as <-; injection H2 as <-; unfold set_eq; simpl.
  - f_equal. apply forallb_pointwise. intros g. unfold set_mem. simpl.
    f_equal. apply py_eq_id_congr_r; assumption.
  - f_equal. apply forallb_pointwise. intros g. unfold set_mem. simpl.
    rewrite !orb_false_r. apply orb_comm.
Qed.

(* ===================================================================== *)
(** ** The object component of the edge similarity *)
(* ===================================================================== *)

Lemma py_get_obj (d : dict) (k : str) : py_get (JObj d) k = Ok (field d k).
Proof. reflexivity. Qed.

Lemma field_swap_object1 (d : dict) :
  field (swap_objects d) k_object1 = field d k_object2.
Proof. unfold swap_objects. apply field_set_same. Qed.

Lemma field_swap_object2 (d : dict) :
  field (swap_objects d) k_object2 = field d k_object1.
Proof.
  unfold swap_objects. rewrite field_set_other by reflexivity.
  apply field_set_same.
Qed.

Lemma py_get_swap_other (d : dict) (k : str) :
  str_eqb k k_object1 = false -> str_eqb k k_object2 = false ->
  py_get (JObj (swap_objects d)) k = py_get (JObj d) k.
Proof.
  intros H1 H2. unfold py_get, swap_objects.
  rewrite !dict_get_set_other by assumption. reflexivity.
Qed.

Lemma py_get_default_swap_other (d : dict) (k : str) (default : json) :
  str_eqb k k_object1 = false -> str_eqb k k_object2 = false ->
  py_get_default (JObj (swap_objects d)) k default
  = py_get_default (JObj d) k default.
Proof.
  intros H1 H2. unfold py_get_default, swap_objects.
  rewrite !dict_get_set_other by assumption. reflexivity.
Qed.

Lemma objects_component_swap_pred (pd : dict) (g : json) :
  objects_component (JObj (swap_objects pd)) g = objects_component (JObj pd) g.
Proof.
  unfold objects_component. rewrite !py_get_obj.
  rewrite field_swap_object1, field_swap_object2. cbn [bind].
  destruct (set_of_list [field pd k_object1; field pd k_object2] []) as [s | e] eqn:E1.
  - destruct (set_of_list [field pd k_object2; field pd k_object1] []) as [s' | e'] eqn:E2.
    + cbn [bind].
      destruct (py_get g k_object1); [| reflexivity].
      destruct (py_get g k_object2); [| reflexivity]. cbn [bind].
      destruct (set_of_list [a; a0] []); [| reflexivity]. cbn [bind].
      rewrite (set_eq_pair_swap_l _ _ _ _ a1 E1 E2). reflexivity.
    + apply set_of_pair_swap_raise in E2. congruence.
  - rewrite (set_of_pair_swap_raise _ _ _ E1). reflexivity.
Qed.

Lemma objects_component_swap_gt (p : json) (gd : dict) :
  objects_component p (JObj (swap_objects gd)) = objects_component p (JObj gd).
Proof.
  unfold objects_component.
  destruct (py_get p k_object1); [| reflexivity].
  destruct (py_get p k_object2); [| reflexivity]. cbn [bind].
  destruct (set_of_list [a; a0] []) as [P |]; [| reflexivity]. cbn [bind].
  rewrite !py_get_obj. rewrite field_swap_object1, field_swap_object2.
  cbn [bind].
  destruct (set_of_list [field gd k_object1; field gd k_object2] []) as [s | e] eqn:E1.
  - destruct (set_of_list [field gd k_object2; field gd k_object1] []) as [s' | e'] eqn:E2.
    + cbn [bind]. rewrite (set_eq_pair_swap_r _ _ _ _ P E1 E2). reflexivity.
    + apply set_of_pair_swap_raise in E2. congruence.
  - rewrite (set_of_pair_swap_raise _ _ _ E1). reflexivity.
Qed.

Lemma calculate_edge_similarity_swap_pred (pd : dict) (g : json) :
  calculate_edge_similarity (JObj (swap_objects pd)) g
  = calculate_edge_similarity (JObj pd) g.
Proof.
  unfold calculate_edge_similarity.
  rewrite objects_component_swap_pred.
  rewrite !py_get_swap_other by reflexivity.
  rewrite py_get_default_swap_other by reflexivity.
  reflexivity.
Qed.

Lemma calculate_edge_similarity_swap_gt (p : json) (gd : dict) :
  calculate_edge_similarity p (JObj (swap_objects gd))
  = calculate_edge_similarity p (JObj gd).
Proof.
  unfold calculate_edge_similarity.
  rewrite objects_component_swap_gt.
  rewrite !py_get_swap_other by reflexivity.
  rewrite py_get_default_swap_other by reflexivity.
  reflexivity.
Qed.

Lemma same_pairb_spec (a b c d : str) :
  same_pairb a b c d = true <-> same_pair a b c d.
Proof.
  unfold same_pairb, same_pair. split.
  - intros H. apply orb_true_iff in H.
    destruct H as [H | H]; apply andb_true_iff in H; destruct H as [H1 H2];
      apply str_eqb_eq in H1, H2; subst; intros x; simpl; tauto.
  - intros H.
    assert (Ha : In a [c; d]) by (apply H; left; reflexivity).
    assert (Hb : In b [c; d]) by (apply H; right; left; reflexivity).
    assert (Hc : In c [a; b]) by (apply H; left; reflexivity).
    assert (Hd : In d [a; b]) by (apply H; right; left; reflexivity).
    simpl in Ha, Hb, Hc, Hd.
    destruct Ha as [<- | [<- | []]]; destruct Hb as [<- | [<- | []]];
      destruct Hc as [Hc | [Hc | []]]; destruct Hd as [Hd | [Hd | []]];
      subst; rewrite ?str_eqb_refl; simpl; rewrite ?str_eqb_refl;
      try reflexivity; rewrite ?orb_true_r; reflexivity.
Qed.

Ltac str_cases :=
  repeat match goal with
         | |- context [str_eqb ?x ?y] =>
             let E := fresh "E" in
             destruct (str_eqb x y) eqn:E;
             [apply str_eqb_eq in E; subst | ]
         end.

Lemma objects_component_strings (pd gd : dict) (a b c d : str) :
  field pd k_object1 = JStr a -> field pd k_object2 = JStr b ->
  field gd k_object1 = JStr c -> field gd k_object2 = JStr d ->
  objects_component (JObj pd) (JObj gd)
  = Ok (if same_pairb a b c d then 1 else 0).
Proof.
  intros Ha Hb Hc Hd. unfold objects_component.
  rewrite !py_get_obj, Ha, Hb, Hc, Hd. cbn [bind].
  rewrite !set_of_pair. cbn [hashable atom_of bind].
  unfold same_pairb, set_eq, set_mem.
  cbn [py_eq_id atom_of atom_eqb].
  str_cases; cbn [length forallb existsb Nat.eqb orb andb py_eq_id atom_of atom_eqb];
    rewrite ?str_eqb_refl in *; try discriminate;
    str_cases; cbn [orb andb]; rewrite ?str_eqb_refl in *;
    try discriminate; try reflexivity.
Qed.

Module AliasFacts.
Import Alias.

Example faucet_is_not_the_alias :
  objects_component (JObj (sink_edge faucet)) (JObj (sink_edge faucet_or_handle))
  = Ok 0.
Proof. vm_compute. reflexivity. Qed.

Example handle_is_not_the_alias :
  objects_component (JObj (sink_edge handle)) (JObj (sink_edge faucet_or_handle))
  = Ok 0.
Proof. vm_compute. reflexivity. Qed.

Example alias_is_the_alias :
  objects_component (JObj (sink_edge faucet_or_handle))
    (JObj (sink_edge faucet_or_handle))
  = Ok 1.
Proof. vm_compute. reflexivity. Qed.

Example faucet_edge_similarity :
  exists v,
    calculate_edge_similarity (JObj (sink_edge faucet))
      (JObj (sink_edge faucet_or_handle)) = Ok v
    /\ v == 3 # 4.
Proof.
  destruct (calculate_edge_similarity (JObj (sink_edge faucet))
              (JObj (sink_edge faucet_or_handle))) as [v | e] eqn:H;
    vm_compute in H; [| discriminate].
  exists v. split; [reflexivity |]. injection H as <-. reflexivity.
Qed.

Example handle_edge_similarity :
  exists v,
    calculate_edge_similarity (JObj (sink_edge handle))
      (JObj (sink_edge faucet_or_handle)) = Ok v
    /\ v == 3 # 4.
Proof.
  destruct (calculate_edge_similarity (JObj (sink_edge handle))
              (JObj (sink_edge faucet_or_handle))) as [v | e] eqn:H;
    vm_compute in H; [| discriminate].
  exists v. split; [reflexivity |]. injection H as <-. reflexivity.
Qed.

Example alias_edge_similarity :
  exists v,
    calculate_edge_similarity (JObj (sink_edge faucet_or_handle))
      (JObj (sink_edge faucet_or_handle)) = Ok v
    /\ v == 1.
Proof.
  destruct (calculate_edge_similarity (JObj (sink_edge faucet_or_handle))
              (JObj (sink_edge faucet_or_handle))) as [v | e] eqn:H;
    vm_compute in H; [| discriminate].
  exists v. split; [reflexivity |]. injection H as <-. reflexivity.
Qed.

End AliasFacts.

(** The object comparison is one of the four components of the edge
    similarity: between two predicted edges that differ in their objects
    only, the similarity to a ground-truth edge differs by a quarter of the
    difference of the two object components. *)
Lemma calculate_edge_similarity_objects (pd pd' gd : dict)
  (a b a' b' c d : str) (v : Q) :
  (forall k, k <> k_object1 -> k <> k_object2 ->
             dict_get k pd' = dict_get k pd) ->
  field pd k_object1 = JStr a -> field pd k_object2 = JStr b ->
  field pd' k_object1 = JStr a' -> field pd' k_object2 = JStr b' ->
  field gd k_object1 = JStr c -> field gd k_object2 = JStr d ->
  calculate_edge_similarity (JObj pd) (JObj gd) = Ok v ->
  exists v',
    calculate_edge_similarity (JObj pd') (JObj gd) = Ok v'
    /\ v' - v ==
       (1 # 4) * ((if same_pairb a' b' c d then 1 else 0)
                  - (if same_pairb a b c d then 1 else 0)).
Proof.
  intros Hagree Ha Hb Ha' Hb' Hc Hd H.
  unfold calculate_edge_similarity in *.
  rewrite (objects_component_strings pd gd a b c d Ha Hb Hc Hd) in H.
  rewrite (objects_component_strings pd' gd a' b' c d Ha' Hb' Hc Hd).
  cbn [bind py_get py_get_default] in H |- *.
  rewrite (Hagree k_functional_relationship)
    by (intros Hk; vm_compute in Hk; discriminate).
  rewrite (Hagree k_spatial_relations)
    by (intros Hk; vm_compute in Hk; discriminate).
  rewrite (Hagree k_is_touching)
    by (intros Hk; vm_compute in Hk; discriminate).
  bind_inv H. bind_inv H. injection H as <-.
  rewrite E. cbn [bind]. rewrite E0. cbn [bind].
  eexists. split; [reflexivity |].
  destruct (same_pairb a b c d); destruct (same_pairb a' b' c d);
    destruct (py_eq _ _); destruct (nonempty _); destruct (py_eq _ _);
    field.
Qed.

(** C8.  On edges whose objects are strings, the object component is [1.0]
    when the unordered pairs [{object1, object2}] of the two edges are equal
    as sets of strings and [0] otherwise, and it is one of the four
    components of the edge similarity: between two predicted edges that
    differ in their objects only, [calculate_edge_similarity] to the same
    ground-truth edge is the same when both pairs match or both do not, and
    otherwise is greater for the one whose pair matches, which scores at
    least [0.25] where the other scores at most [0.75]; exchanging
    [object1] and [object2] within the predicted or within the ground-truth
    edge leaves the edge similarity as it is; the label [faucet / handle]
    matches the identical label only, neither [faucet] nor [handle]: against
    the edge of the alias, the edge similarity of an otherwise identical
    edge is [0.75] with [faucet] or with [handle] and [1.0] with the
    alias. *)
Theorem objects_compared_as_unordered_pairs :
  (forall (pd gd : dict) (a b c d : str),
      field pd k_object1 = JStr a -> field pd k_object2 = JStr b ->
      field gd k_object1 = JStr c -> field gd k_object2 = JStr d ->
      exists v,
        objects_component (JObj pd) (JObj gd) = Ok v
        /\ (same_pair a b c d -> v = 1)
        /\ (~ same_pair a b c d -> v = 0))
  /\ (forall (pd : dict) (g : json),
        calculate_edge_similarity (JObj (swap_objects pd)) g
        = calculate_edge_similarity (JObj pd) g)
  /\ (forall (p : json) (gd : dict),
        calculate_edge_similarity p (JObj (swap_objects gd))
        = calculate_edge_similarity p (JObj gd))
  /\ objects_component (JObj (Alias.sink_edge Alias.faucet))
       (JObj (Alias.sink_edge Alias.faucet_or_handle)) = Ok 0
  /\ objects_component (JObj (Alias.sink_edge Alias.handle))
       (JObj (Alias.sink_edge Alias.faucet_or_handle)) = Ok 0
  /\ objects_component (JObj (Alias.sink_edge Alias.faucet_or_handle))
       (JObj (Alias.sink_edge Alias.faucet_or_handle)) = Ok 1
  /\ (forall (pd pd' gd : dict) (a b a' b' c d : str) (v : Q),
        (forall k, k <> k_object1 -> k <> k_object2 ->
                   dict_get k pd' = dict_get k pd) ->
        field pd k_object1 = JStr a -> field pd k_object2 = JStr b ->
        field pd' k_object1 = JStr a' -> field pd' k_object2 = JStr b' ->
        field gd k_object1 = JStr c -> field gd k_object2 = JStr d ->
        calculate_edge_similarity (JObj pd) (JObj gd) = Ok v ->
        exists v',
          calculate_edge_similarity (JObj pd') (JObj gd) = Ok v'
          /\ (same_pair a b c d -> same_pair a' b' c d -> v' == v)
          /\ (~ same_pair a b c d -> ~ same_pair a' b' c d -> v' == v)
          /\ (~ same_pair a b c d -> same_pair a' b' c d ->
              v < v' /\ v <= 3 # 4 /\ 1 # 4 <= v')
          /\ (same_pair a b c d -> ~ same_pair a' b' c d ->
              v' < v /\ v' <= 3 # 4 /\ 1 # 4 <= v))
  /\ (exists v,
        calculate_edge_similarity (JObj (Alias.sink_edge Alias.faucet))
          (JObj (Alias.sink_edge Alias.faucet_or_handle)) = Ok v
        /\ v == 3 # 4)
  /\ (exists v,
        calculate_edge_similarity (JObj (Alias.sink_edge Alias.handle))
          (JObj (Alias.sink_edge Alias.faucet_or_handle)) = Ok v
        /\ v == 3 # 4)
  /\ (exists v,
        calculate_edge_similarity
          (JObj (Alias.sink_edge Alias.faucet_or_handle))
          (JObj (Alias.sink_edge Alias.faucet_or_handle)) = Ok v
        /\ v == 1).
Proof.
  split; [| split; [exact calculate_edge_similarity_swap_pred |
            split; [exact calculate_edge_similarity_swap_gt |
            split; [exact AliasFacts.faucet_is_not_the_alias |
            split; [exact AliasFacts.handle_is_not_the_alias |
            split; [exact AliasFacts.alias_is_the_alias |
            split; [| split; [exact AliasFacts.faucet_edge_similarity |
                      split; [exact AliasFacts.handle_edge_similarity |
                              exact AliasFacts.alias_edge_similarity]]]]]]]]].
  - intros pd gd a b c d Ha Hb Hc Hd.
    rewrite (objects_component_strings pd gd a b c d Ha Hb Hc Hd).
    destruct (same_pairb a b c d) eqn:E.
    + exists 1. split; [reflexivity |]. split; [reflexivity |].
      intros Hn. contradiction Hn. apply same_pairb_spec. exact E.
    + exists 0. split; [reflexivity |]. split; [| reflexivity].
      intros Hs. apply same_pairb_spec in Hs. congruence.
  - intros pd pd' gd a b a' b' c d v Hagree Ha Hb Ha' Hb' Hc Hd H.
    destruct (calculate_edge_similarity_objects pd pd' gd a b a' b' c d v
                Hagree Ha Hb Ha' Hb' Hc Hd H) as (v' & Hv' & Hdiff).
    pose proof (calculate_edge_similarity_range _ _ _ H) as Hr.
    pose proof (calculate_edge_similarity_range _ _ _ Hv') as Hr'.
    exists v'. split; [exact Hv' |].
    assert (Hn : forall x y z w,
               ~ same_pair x y z w -> same_pairb x y z w = false).
    { intros x y z w Hn. destruct (same_pairb x y z w) eqn:E; [| reflexivity].
      contradiction Hn. apply same_pairb_spec. exact E. }
    split; [| split; [| split]]; intros H1 H2.
    + apply same_pairb_spec in H1, H2. rewrite H1, H2 in Hdiff. lra.
    + apply Hn in H1, H2. rewrite H1, H2 in Hdiff. lra.
    + apply Hn in H1. apply same_pairb_spec in H2.
      rewrite H1, H2 in Hdiff. repeat split; lra.
    + apply same_pairb_spec in H1. apply Hn in H2.
      rewrite H1, H2 in Hdiff. repeat split; lra.
Qed.

Lemma objects_compared_as_unordered_pairs_witness :
  (exists v,
      objects_component
        (JObj (swap_objects (Alias.sink_edge Alias.faucet)))
        (JObj (Alias.sink_edge Alias.faucet)) = Ok v
      /\ (same_pair (u "kitchen sink") Alias.faucet
            Alias.faucet (u "kitchen sink") -> v = 1)
      /\ (~ same_pair (u "kitchen sink") Alias.faucet
              Alias.faucet (u "kitchen sink") -> v = 0))
  /\ (exists v v',
        calculate_edge_similarity (JObj (Alias.sink_edge Alias.faucet))
          (JObj (Alias.sink_edge Alias.faucet_or_handle)) = Ok v
        /\ calculate_edge_similarity
             (JObj (Alias.sink_edge Alias.faucet_or_handle))
             (JObj (Alias.sink_edge Alias.faucet_or_handle)) = Ok v'
        /\ v < v').
Proof.
  split.
  - apply (proj1 objects_compared_as_unordered_pairs
             (swap_objects (Alias.sink_edge Alias.faucet))
             (Alias.sink_edge Alias.faucet)); vm_compute; reflexivity.
  - destruct (calculate_edge_similarity (JObj (Alias.sink_edge Alias.faucet))
                (JObj (Alias.sink_edge Alias.faucet_or_handle)))
      as [v | e] eqn:H; [| vm_compute in H; discriminate].
    destruct (proj1 (proj2 (proj2 (proj2 (proj2 (proj2
                (proj2 objects_compared_as_unordered_pairs))))))
                (Alias.sink_edge Alias.faucet)
                (Alias.sink_edge Alias.faucet_or_handle)
                (Alias.sink_edge Alias.faucet_or_handle)
                Alias.faucet (u "kitchen sink")
                Alias.faucet_or_handle (u "kitchen sink")
                Alias.faucet_or_handle (u "kitchen sink") v)
      as (v' & Hv' & _ & _ & Hgain & _).
    + intros k H1 H2. unfold Alias.sink_edge. cbn [dict_get].
      destruct (str_eqb k k_object1) eqn:E1;
        [apply str_eqb_eq in E1; contradiction |].
      reflexivity.
    + reflexivity.
    + reflexivity.
    + reflexivity.
    + reflexivity.
    + reflexivity.
    + reflexivity.
    + exact H.
    + exists v, v'. split; [reflexivity |]. split; [exact Hv' |].
      apply (proj1 (Hgain
               ltac:(intros Hs; apply same_pairb_spec in Hs;
                     vm_compute in Hs; discriminate)
               ltac:(apply same_pairb_spec; vm_compute; reflexivity))).
Defined.

(* ===================================================================== *)
(** ** What the format check does not look at *)
(* ===================================================================== *)

Lemma py_all_in_ext (fields : list str) (d d' : dict) :
  (forall k, In k fields -> dict_mem k d' = dict_mem k d) ->
  py_all_in fields (JObj d') = py_all_in fields (JObj d).
Proof.
  induction fields as [| f rest IH]; intros H; [reflexivity |].
  cbn [py_all_in py_contains bind].
  rewrite (H f (or_introl eq_refl)).
  destruct (dict_mem f d); [| reflexivity].
  apply IH. intros k Hk. apply H. right. exact Hk.
Qed.

(** [check_edge] reads the presence of the five fields and the values of
    [functional_relationship], [spatial_relations] and [is_touching]. *)
Lemma check_edge_ext (e e' : dict) :
  (forall k, In k required_edge_fields -> dict_mem k e' = dict_mem k e) ->
  dict_get k_functional_relationship e' = dict_get k_functional_relationship e ->
  dict_get k_spatial_relations e' = dict_get k_spatial_relations e ->
  dict_get k_is_touching e' = dict_get k_is_touching e ->
  check_edge (JObj e') = check_edge (JObj e).
Proof.
  intros Hmem Hfr Hsp Htouch. unfold check_edge.
  rewrite (py_all_in_ext _ _ _ Hmem).
  unfold py_get, py_get_default. rewrite Hfr, Hsp, Htouch. reflexivity.
Qed.

(** [format_checks] reads the presence of the five fields, whether [nodes]
    is a list, and the values of [edges], [task_instruction] and
    [action_type]. *)
Lemma format_checks_ext (d d' : dict) :
  (forall k, In k required_fields -> dict_mem k d' = dict_mem k d) ->
  is_list (field d' k_nodes) = is_list (field d k_nodes) ->
  dict_get k_task_instruction d' = dict_get k_task_instruction d ->
  dict_get k_action_type d' = dict_get k_action_type d ->
  (forall es, dict_get k_edges d = Some (JArr es) ->
     exists es', dict_get k_edges d' = Some (JArr es')
                 /\ check_edges es' = check_edges es) ->
  (is_list (field d' k_edges) = is_list (field d k_edges)) ->
  format_checks (JObj d') = format_checks (JObj d).
Proof.
  intros Hmem Hnodes Hti Hat Hedges Hel. unfold format_checks.
  rewrite (py_all_in_ext _ _ _ Hmem).
  destruct (py_all_in required_fields (JObj d)) as [[|] |]; try reflexivity.
  cbn [bind negb]. rewrite !py_get_obj. cbn [bind].
  rewrite Hnodes. destruct (is_list (field d k_nodes)); [| reflexivity].
  cbn [negb]. rewrite Hel.
  destruct (is_list (field d k_edges)) eqn:El; [| reflexivity].
  cbn [negb]. unfold field at 1 3. rewrite Hti.
  destruct (is_str _); [| reflexivity]. cbn [negb].
  unfold field at 1 2. rewrite Hat.
  destruct (py_not_in _ VALID_ACTION_TYPES) as [[|] |]; try reflexivity.
  cbn [bind]. unfold py_get_default. unfold field in El.
  destruct (dict_get k_edges d) as [[| | | | | es |] |] eqn:Eg; try discriminate.
  destruct (Hedges es eq_refl) as (es' & Hes' & Hchk).
  rewrite Hes'. cbn [bind py_iter]. exact Hchk.
Qed.

Lemma format_checks_set_function_type (d : dict) (v : json) :
  dict_mem k_function_type d = true ->
  format_checks (JObj (dict_set k_function_type v d)) = format_checks (JObj d).
Proof.
  intros Hp. apply format_checks_ext.
  - intros k _. apply dict_mem_set_present. exact Hp.
  - rewrite field_set_other by reflexivity. reflexivity.
  - apply dict_get_set_other. reflexivity.
  - apply dict_get_set_other. reflexivity.
  - intros es Hes. exists es. split; [| reflexivity].
    rewrite dict_get_set_other by reflexivity. exact Hes.
  - rewrite field_set_other by reflexivity. reflexivity.
Qed.

Lemma format_checks_set_nodes (d : dict) (l l' : list json) :
  dict_get k_nodes d = Some (JArr l) ->
  format_checks (JObj (dict_set k_nodes (JArr l') d)) = format_checks (JObj d).
Proof.
  intros Hn. apply format_checks_ext.
  - intros k _. apply dict_mem_set_present. unfold dict_mem. rewrite Hn. reflexivity.
  - rewrite field_set_same. unfold field. rewrite Hn. reflexivity.
  - apply dict_get_set_other. reflexivity.
  - apply dict_get_set_other. reflexivity.
  - intros es Hes. exists es. split; [| reflexivity].
    rewrite dict_get_set_other by reflexivity. exact Hes.
  - rewrite field_set_other by reflexivity. reflexivity.
Qed.

Lemma check_edge_set_object (k : str) (e : dict) (v : json) :
  k = k_object1 \/ k = k_object2 ->
  dict_mem k e = true ->
  check_edge (JObj (dict_set k v e)) = check_edge (JObj e).
Proof.
  intros Hk Hp. apply check_edge_ext.
  - intros k' _. apply dict_mem_set_present. exact Hp.
  - destruct Hk as [-> | ->]; apply dict_get_set_other; reflexivity.
  - destruct Hk as [-> | ->]; apply dict_get_set_other; reflexivity.
  - destruct Hk as [-> | ->]; apply dict_get_set_other; reflexivity.
Qed.

Lemma check_edges_pointwise (es es' : list json) :
  Forall2 (fun e e' => check_edge e' = check_edge e) es es' ->
  check_edges es' = check_edges es.
Proof.
  induction 1 as [| e e' es es' He _ IH]; [reflexivity |].
  cbn [check_edges]. rewrite He, IH. reflexivity.
Qed.

Lemma format_checks_set_edges (d : dict) (es es' : list json) :
  dict_get k_edges d = Some (JArr es) ->
  Forall2 (fun e e' => check_edge e' = check_edge e) es es' ->
  format_checks (JObj (dict_set k_edges (JArr es') d)) = format_checks (JObj d).
Proof.
  intros Hd Hes. apply format_checks_ext.
  - intros k _. apply dict_mem_set_present. unfold dict_mem. rewrite Hd. reflexivity.
  - rewrite field_set_other by reflexivity. reflexivity.
  - apply dict_get_set_other. reflexivity.
  - apply dict_get_set_other. reflexivity.
  - intros es0 Hes0. rewrite Hd in Hes0. injection Hes0 as <-.
    exists es'. split; [apply dict_get_set_same |].
    apply check_edges_pointwise. exact Hes.
  - rewrite field_set_same. unfold field. rewrite Hd. reflexivity.
Qed.

Module UntypedFacts.
Import Untyped.

Example format : format_reward response = Ok 1.
Proof. vm_compute. reflexivity. Qed.

End UntypedFacts.

(** C10.  [format_reward] looks neither at the value of [function_type], nor
    at the elements of [nodes], nor at the values of [object1] and [object2]
    of an edge: replacing any of them in a payload that has them leaves
    the outcome of the checks as it is, and a payload whose [function_type]
    is a number, whose nodes are not strings and whose edge objects are not
    strings scores [1.0]. *)
Theorem format_checks_ignore_untyped_fields :
  (forall (d : dict) (v : json),
      dict_mem k_function_type d = true ->
      format_checks (JObj (dict_set k_function_type v d)) = format_checks (JObj d))
  /\ (forall (d : dict) (l l' : list json),
        dict_get k_nodes d = Some (JArr l) ->
        format_checks (JObj (dict_set k_nodes (JArr l') d)) = format_checks (JObj d))
  /\ (forall (k : str) (e : dict) (v : json),
        k = k_object1 \/ k = k_object2 ->
        dict_mem k e = true ->
        check_edge (JObj (dict_set k v e)) = check_edge (JObj e))
  /\ (forall (d : dict) (es es' : list json),
        dict_get k_edges d = Some (JArr es) ->
        Forall2 (fun e e' => check_edge e' = check_edge e) es es' ->
        format_checks (JObj (dict_set k_edges (JArr es') d))
        = format_checks (JObj d))
  /\ format_reward Untyped.response = Ok 1.
Proof.
  split; [exact format_checks_set_function_type |].
  split; [exact format_checks_set_nodes |].
  split; [exact check_edge_set_object |].
  split; [exact format_checks_set_edges |].
  exact UntypedFacts.format.
Qed.

Lemma format_checks_ignore_untyped_fields_witness :
  format_checks
    (JObj (dict_set k_function_type (JInt 7)
             match Scenario.ground_truth_json with JObj d => d | _ => [] end))
  = format_checks Scenario.ground_truth_json.
Proof.
  apply (proj1 format_checks_ignore_untyped_fields). vm_compute. reflexivity.
Defined.

(* ===================================================================== *)
(** ** The span [extract_answer_json] captures *)
(* ===================================================================== *)

Lemma re_star_space {R : Type} (k : str -> option R) :
  (forall c t, is_space c = true -> k (c :: t) = None) ->
  forall s, re_star is_space k s = k (lstrip s).
Proof.
  intros Hk. induction s as [| c t IH]; [reflexivity |].
  cbn [re_star lstrip]. destruct (is_space c) eqn:E; [| reflexivity].
  rewrite IH, (Hk c t E). destruct (k (lstrip t)); reflexivity.
Qed.

Lemma re_match_lits (p : str) (its : list re_item) (g : groups) :
  forall s,
    re_match (map RLit p ++ its) g s =
    if str_prefixb p s then re_match its g (skipn (length p) s) else None.
Proof.
  induction p as [| x p IH]; intros s; [reflexivity |].
  cbn [map app re_match str_prefixb length skipn].
  destruct s as [| y s]; [reflexivity |].
  rewrite (N.eqb_sym x y). destruct (N.eqb y x); [apply IH | reflexivity].
Qed.

Lemma is_space_not (c x : N) :
  is_space x = false -> is_space c = true -> N.eqb c x = false.
Proof.
  intros Hx Hc. destruct (N.eqb_spec c x) as [-> |]; [congruence | reflexivity].
Qed.

Lemma re_match_label_items (its : list re_item) (g : groups) (s : str) :
  starts_with_lit its ->
  re_match (label_items ++ its) g s =
  match after_label s with
  | Some rest => re_match its g rest
  | None => None
  end.
Proof.
  intros Hits. unfold label_items, after_label.
  rewrite <- app_assoc, re_match_lits.
  destruct (str_prefixb (u "Answer") s); [| reflexivity].
  change (length (u "Answer")) with 6%nat.
  cbn [app re_match].
  rewrite re_star_space.
  2:{ intros c t Hc. cbn [re_match].
      rewrite (is_space_not c 58 eq_refl Hc). reflexivity. }
  destruct (lstrip (skipn 6 s)) as [| c t]; [reflexivity |].
  cbn [re_match]. destruct (N.eqb_spec c 58) as [-> | Hne].
  - apply re_star_space. intros c' t' Hc'. apply Hits. exact Hc'.
  - destruct c as [| p]; [reflexivity |].
    do 6 (destruct p as [p | p |]; try reflexivity).
    contradiction Hne; reflexivity.
Qed.

Lemma re_match_label_re (g : groups) (s : str) :
  re_match label_re g s =
  match after_label s with
  | Some (123%N :: tail) => Some (g, tail)
  | _ => None
  end.
Proof.
  unfold label_re. rewrite re_match_label_items.
  - destruct (after_label s) as [[| c t] |]; try reflexivity.
    cbn [re_match]. destruct (N.eqb_spec c 123) as [-> | Hne]; [reflexivity |].
    destruct c as [| p]; [reflexivity |].
    do 7 (destruct p as [p | p |]; try reflexivity).
    contradiction Hne; reflexivity.
  - intros g' c t Hc. cbn [re_match].
    rewrite (is_space_not c 123 eq_refl Hc). reflexivity.
Qed.

(** The greedy [.*] followed by the closing brace stops at the last closing
    brace. *)
Lemma re_star_any_rbrace (g : groups) :
  forall t,
    re_star any_char (re_match [RLit 125; RClose] g) t =
    match upto_last_rbrace t with
    | Some body =>
        Some ((fst g, Some (skipn (length body) t)), skipn (length body) t)
    | None => None
    end.
Proof.
  induction t as [| c t IH]; [reflexivity |].
  cbn [re_star any_char upto_last_rbrace]. rewrite IH.
  destruct (upto_last_rbrace t) as [body |]; [reflexivity |].
  cbn [re_match]. destruct (N.eqb c 125); reflexivity.
Qed.

Lemma re_match_answer_re (g : groups) (s : str) :
  re_match answer_re g s =
  match after_label s with
  | Some (123%N :: tail) =>
      match upto_last_rbrace tail with
      | Some body =>
          Some ((Some (123%N :: tail), Some (skipn (length body) tail)),
                skipn (length body) tail)
      | None => None
      end
  | _ => None
  end.
Proof.
  unfold answer_re. rewrite re_match_label_items.
  - destruct (after_label s) as [[| c t] |]; try reflexivity.
    cbn [re_match]. destruct (N.eqb_spec c 123) as [-> | Hne].
    + apply (re_star_any_rbrace (Some (123%N :: t), snd g)).
    + destruct c as [| p]; [reflexivity |].
      do 7 (destruct p as [p | p |]; try reflexivity).
      contradiction Hne; reflexivity.
  - intros g' c t Hc. cbn [re_match].
    rewrite (is_space_not c 123 eq_refl Hc). reflexivity.
Qed.

Lemma upto_last_rbrace_none (t : str) :
  has_rbrace t = false -> upto_last_rbrace t = None.
Proof.
  induction t as [| c t IH]; [reflexivity |].
  cbn [has_rbrace existsb upto_last_rbrace]. intros H.
  apply orb_false_iff in H. destruct H as [Hc Ht].
  rewrite (IH Ht), N.eqb_sym, Hc. reflexivity.
Qed.

Lemma upto_last_rbrace_has (t : str) :
  upto_last_rbrace t = None -> has_rbrace t = false.
Proof.
  induction t as [| c t IH]; [reflexivity |].
  cbn [has_rbrace existsb upto_last_rbrace].
  destruct (upto_last_rbrace t); [discriminate |].
  rewrite (N.eqb_sym 125 c). destruct (N.eqb c 125); [discriminate |].
  intros _. apply IH. reflexivity.
Qed.

(** The captured text is a prefix of the text, and ends with the brace. *)
Lemma upto_last_rbrace_prefix (t body : str) :
  upto_last_rbrace t = Some body ->
  firstn (length body) t = body /\ exists b, body = b ++ [125%N].
Proof.
  revert body. induction t as [| c t IH]; intros body; [discriminate |].
  cbn [upto_last_rbrace].
  destruct (upto_last_rbrace t) as [body' |].
  - intros H. injection H as <-. destruct (IH body' eq_refl) as (Hp & b & Hb).
    split; [cbn [length firstn]; rewrite Hp; reflexivity |].
    exists (c :: b). rewrite Hb. reflexivity.
  - destruct (N.eqb_spec c 125) as [-> |]; [| discriminate].
    intros H. injection H as <-. split; [reflexivity |].
    exists []. reflexivity.
Qed.

Lemma has_rbrace_lstrip (s : str) : has_rbrace (lstrip s) = has_rbrace s.
Proof.
  induction s as [| c t IH]; [reflexivity |].
  cbn [lstrip]. destruct (is_space c) eqn:E; [| reflexivity].
  rewrite IH. cbn [has_rbrace existsb].
  rewrite N.eqb_sym, (is_space_not c 125 eq_refl E). reflexivity.
Qed.

Lemma str_prefixb_app (p s : str) :
  str_prefixb p s = true -> s = p ++ skipn (length p) s.
Proof.
  revert s. induction p as [| x p IH]; intros s H; [reflexivity |].
  destruct s as [| y s]; [discriminate |].
  cbn [str_prefixb] in H. apply andb_true_iff in H. destruct H as [Hx Hp].
  apply N.eqb_eq in Hx. subst y. cbn [length skipn app].
  f_equal. apply IH. exact Hp.
Qed.

Lemma has_rbrace_app (a b : str) :
  has_rbrace (a ++ b) = has_rbrace a || has_rbrace b.
Proof. apply existsb_app. Qed.

(** With no closing brace after the label's brace, there is none from the
    label on. *)
Lemma after_label_no_rbrace (s tail : str) :
  after_label s = Some (123%N :: tail) ->
  has_rbrace tail = false -> has_rbrace s = false.
Proof.
  unfold after_label. intros H Ht.
  destruct (str_prefixb (u "Answer") s) eqn:Ep; [| discriminate].
  apply str_prefixb_app in Ep. change (length (u "Answer")) with 6%nat in Ep.
  destruct (lstrip (skipn 6 s)) as [| c t] eqn:El; [discriminate |].
  assert (Hc : c = 58%N /\ lstrip t = 123%N :: tail).
  { destruct (N.eqb_spec c 58) as [-> | Hne].
    - injection H as H. split; [reflexivity | exact H].
    - exfalso. destruct c as [| p]; [discriminate |].
      do 6 (destruct p as [p | p |]; try discriminate).
      contradiction Hne; reflexivity. }
  destruct Hc as [-> Hl].
  rewrite Ep, has_rbrace_app.
  rewrite <- (has_rbrace_lstrip (skipn 6 s)), El.
  change (has_rbrace (58%N :: t)) with (has_rbrace t).
  rewrite <- (has_rbrace_lstrip t), Hl.
  change (has_rbrace (123%N :: tail)) with (has_rbrace tail).
  rewrite Ht. reflexivity.
Qed.

Lemma lstrip_suffix (s : str) : exists pre, s = pre ++ lstrip s.
Proof.
  induction s as [| c t [pre IH]]; [exists []; reflexivity |].
  cbn [lstrip]. destruct (is_space c).
  - exists (c :: pre). cbn [app]. rewrite <- IH. reflexivity.
  - exists []. reflexivity.
Qed.

(** The text after the label is a part of the text. *)
Lemma after_label_has_rbrace (s rest : str) :
  after_label s = Some rest -> has_rbrace rest = true -> has_rbrace s = true.
Proof.
  unfold after_label. intros H Hr.
  destruct (str_prefixb (u "Answer") s); [| discriminate].
  rewrite <- (firstn_skipn 6 s), has_rbrace_app.
  destruct (lstrip_suffix (skipn 6 s)) as [pre Hpre]. rewrite Hpre.
  destruct (lstrip (skipn 6 s)) as [| c t]; [discriminate |].
  destruct (lstrip_suffix t) as [pre' Hpre'].
  assert (Hrest : rest = lstrip t).
  { destruct c as [| p]; [discriminate |].
    do 6 (destruct p as [p | p |]; try discriminate).
    injection H as <-. reflexivity. }
  rewrite Hpre', <- Hrest.
  change (c :: pre' ++ rest) with ((c :: pre') ++ rest).
  rewrite !has_rbrace_app, Hr, !orb_true_r. reflexivity.
Qed.

Lemma re_match_answer_re_no_rbrace (g : groups) (s : str) :
  has_rbrace s = false -> re_match answer_re g s = None.
Proof.
  intros Hs. rewrite re_match_answer_re.
  destruct (after_label s) as [[| c tail] |] eqn:E; try reflexivity.
  destruct c as [| p]; [reflexivity |].
  do 7 (destruct p as [p | p |]; try reflexivity).
  destruct (upto_last_rbrace tail) as [body |] eqn:Eb; [| reflexivity].
  exfalso.
  assert (Ht : has_rbrace (123%N :: tail) = true).
  { cbn [has_rbrace existsb]. fold (has_rbrace tail).
    destruct (has_rbrace tail) eqn:Eh; [reflexivity |].
    rewrite (upto_last_rbrace_none tail Eh) in Eb. discriminate. }
  rewrite (after_label_has_rbrace s _ E Ht) in Hs. discriminate.
Qed.

Lemma re_search_answer_re_no_rbrace (s : str) :
  has_rbrace s = false -> re_search answer_re s = None.
Proof.
  induction s as [| c t IH]; intros Hs.
  - reflexivity.
  - cbn [re_search]. rewrite (re_match_answer_re_no_rbrace _ _ Hs).
    apply IH. cbn [has_rbrace existsb] in Hs.
    apply orb_false_iff in Hs. apply Hs.
Qed.

Lemma re_search_nil (its : list re_item) :
  re_search its [] = match re_match its (None, None) [] with
                     | Some m => Some m
                     | None => None
                     end.
Proof. reflexivity. Qed.

(** What the search for the answer pattern finds, in terms of the search
    for the label pattern. *)
Lemma re_search_answer_re (response : str) :
  match re_search label_re response with
  | None => re_search answer_re response = None
  | Some (_, tail) =>
      match upto_last_rbrace tail with
      | Some body =>
          exists m rest,
            re_search answer_re response = Some (m, rest)
            /\ group1 m = 123%N :: body
      | None => re_search answer_re response = None
      end
  end.
Proof.
  induction response as [| c t IH].
  - rewrite !re_search_nil, re_match_label_re, re_match_answer_re.
    reflexivity.
  - cbn [re_search]. rewrite re_match_label_re, re_match_answer_re.
    destruct (after_label (c :: t)) as [[| c' tail] |] eqn:E; try exact IH.
    destruct (N.eqb_spec c' 123) as [-> | Hne].
    + destruct (upto_last_rbrace tail) as [body |] eqn:Eb.
      * eexists. eexists. split; [reflexivity |].
        destruct (upto_last_rbrace_prefix _ _ Eb) as (Hp & _).
        cbn [group1]. rewrite length_skipn.
        assert (Hlen : (length body <= length tail)%nat).
        { rewrite <- Hp. rewrite length_firstn. lia. }
        replace (length (123%N :: tail) - (length tail - length body))%nat
          with (S (length body)) by (cbn [length]; lia).
        cbn [firstn]. rewrite Hp. reflexivity.
      * apply upto_last_rbrace_has in Eb.
        pose proof (after_label_no_rbrace _ _ E Eb) as Hs.
        cbn [has_rbrace existsb] in Hs. apply orb_false_iff in Hs.
        apply re_search_answer_re_no_rbrace. apply Hs.
    + destruct c' as [| p]; [exact IH |].
      do 7 (destruct p as [p | p |]; try exact IH).
      contradiction Hne; reflexivity.
Qed.

Lemma lstrip_nonspace (c : N) (t : str) :
  is_space c = false -> lstrip (c :: t) = c :: t.
Proof. intros H. cbn [lstrip]. rewrite H. reflexivity. Qed.

Lemma rstrip_nonspace (c : N) (t : str) :
  is_space c = false -> rstrip (t ++ [c]) = t ++ [c].
Proof.
  intros H. unfold rstrip. rewrite rev_app_distr. cbn [rev app].
  rewrite (lstrip_nonspace c (rev t) H). cbn [rev].
  rewrite rev_involutive. reflexivity.
Qed.

(** Stripping changes nothing in a text between braces. *)
Lemma strip_braced (b : str) :
  strip (123%N :: b ++ [125%N]) = 123%N :: b ++ [125%N].
Proof.
  unfold strip. rewrite (lstrip_nonspace 123 _ eq_refl).
  apply (rstrip_nonspace 125 (123%N :: b) eq_refl).
Qed.

Lemma extract_answer_json_labelled (response : str) (g : groups) (tail : str) :
  re_search label_re response = Some (g, tail) ->
  extract_answer_json response =
  match upto_last_rbrace tail with
  | Some body =>
      match json_loads (123%N :: body) with
      | Some v => v
      | None => JNull
      end
  | None => JNull
  end.
Proof.
  intros Hl.
  pose proof (re_search_answer_re response) as H. rewrite Hl in H.
  unfold extract_answer_json.
  destruct (upto_last_rbrace tail) as [body |] eqn:Eb.
  - destruct H as (m & rest & Hs & Hg). rewrite Hs, Hg.
    destruct (upto_last_rbrace_prefix _ _ Eb) as (_ & b & ->).
    rewrite strip_braced. reflexivity.
  - rewrite H. reflexivity.
Qed.

Lemma extract_answer_json_unlabelled (response : str) :
  re_search label_re response = None ->
  extract_answer_json response = JNull.
Proof.
  intros Hl.
  pose proof (re_search_answer_re response) as H. rewrite Hl in H.
  unfold extract_answer_json. rewrite H. reflexivity.
Qed.

Module SpansFacts.
Import Spans.

Example trailing_extracted : extract_answer_json trailing_response = JObj [].
Proof. vm_compute. reflexivity. Qed.

Example trailing_span :
  option_map (fun m => group1 (fst m)) (re_search answer_re trailing_response)
  = Some (dq "{}").
Proof. vm_compute. reflexivity. Qed.

Example trailing_to_end_of_text :
  extract_to_end_of_text trailing_response = JNull.
Proof. vm_compute. reflexivity. Qed.

Example two_answers_span :
  option_map (fun m => group1 (fst m))
    (re_search answer_re two_answers_response)
  = Some (first_answer ++ [10%N] ++ u "Answer: " ++ second_answer).
Proof. vm_compute. reflexivity. Qed.

Example two_answers_extracted :
  extract_answer_json two_answers_response = JNull.
Proof. vm_compute. reflexivity. Qed.

Example late_answer_extracted :
  extract_answer_json late_answer_response = JObj [(u "b", JInt 2)].
Proof. vm_compute. reflexivity. Qed.

End SpansFacts.

(** C3, the claim as written: the span would run from the first opening
    brace of the label pattern to the end of the text.  On
    [Answer: {} trailing] the source parses [{}] and returns the empty
    object; the span to the end of the text, [{} trailing], does not
    parse. *)
Lemma extract_span_does_not_reach_end_of_text :
  ~ (forall response,
        re_search label_re response <> None ->
        extract_answer_json response = extract_to_end_of_text response).
Proof.
  intros H. specialize (H Spans.trailing_response).
  rewrite SpansFacts.trailing_extracted, SpansFacts.trailing_to_end_of_text in H.
  assert (Hc : JObj [] = JNull) by (apply H; vm_compute; discriminate).
  discriminate Hc.
Qed.

(** C3, amended: when the label pattern occurs, and [tail] is the text after
    the opening brace of its first occurrence, [extract_answer_json] parses
    exactly the span from that brace to the last closing brace of the text
    (trimming changes nothing in it), and finds no answer when no closing
    brace follows; the text after the last closing brace is not part of the
    span.  In a response with two answers the span runs from the first
    answer's brace through the second label to the end of the second
    answer, which does not parse. *)
Theorem extract_answer_json_span :
  (forall response g tail,
      re_search label_re response = Some (g, tail) ->
      extract_answer_json response =
      match upto_last_rbrace tail with
      | Some body =>
          match json_loads (123%N :: body) with
          | Some v => v
          | None => JNull
          end
      | None => JNull
      end)
  /\ (forall response,
        re_search label_re response = None ->
        extract_answer_json response = JNull)
  /\ option_map (fun m => group1 (fst m))
       (re_search answer_re Spans.two_answers_response)
     = Some (Spans.first_answer ++ [10%N] ++ u "Answer: " ++ Spans.second_answer)
  /\ extract_answer_json Spans.two_answers_response = JNull.
Proof.
  split; [exact extract_answer_json_labelled |].
  split; [exact extract_answer_json_unlabelled |].
  split; [exact SpansFacts.two_answers_span | exact SpansFacts.two_answers_extracted].
Qed.

Lemma extract_answer_json_span_witness :
  extract_answer_json Spans.trailing_response =
  match upto_last_rbrace (dq "} trailing") with
  | Some body =>
      match json_loads (123%N :: body) with
      | Some v => v
      | None => JNull
      end
  | None => JNull
  end.
Proof.
  apply (proj1 extract_answer_json_span Spans.trailing_response (None, None)).
  vm_compute. reflexivity.
Defined.

(* ===================================================================== *)
(** ** The fuel of the JSON reader *)
(* ===================================================================== *)

Lemma skip_ws_length (s : str) : (length (skip_ws s) <= length s)%nat.
Proof.
  induction s as [| c t IH]; [apply le_n |].
  cbn [skip_ws]. destruct (is_json_ws c); cbn [length]; lia.
Qed.

Lemma head_is_tl (c : N) (s : str) :
  head_is c s = true -> length s = S (length (tl s)).
Proof. destruct s; [discriminate | reflexivity]. Qed.

Lemma scanstring_length :
  forall n s acc x r,
    (length s <= n)%nat ->
    scanstring s acc = Some (x, r) -> (length r < length s)%nat.
Proof.
  induction n as [| n IH]; intros s acc x r Hn H.
  - destruct s; [discriminate | cbn [length] in Hn; lia].
  - destruct s as [| c t]; [discriminate |].
    cbn [length] in Hn |- *. cbn [scanstring] in H.
    destruct (c =? 34)%N; [injection H as _ <-; lia |].
    destruct (c =? 92)%N.
    + destruct t as [| e t1]; [discriminate |].
      destruct (e =? 117)%N.
      * destruct t1 as [| h1 [| h2 [| h3 [| h4 t2]]]]; try discriminate.
        destruct (hex4 h1 h2 h3 h4) as [uni |]; [| discriminate].
        cbn [length] in Hn |- *.
        assert (Hplain : forall a,
                   scanstring t2 a = Some (x, r) ->
                   (length r < S (S (S (S (S (S (length t2)))))))%nat).
        { intros a Ha. apply IH in Ha; lia. }
        destruct t2 as [| b [| u' [| l1 [| l2 [| l3 [| l4 t3]]]]]];
          try (apply Hplain in H; exact H).
        destruct (is_high_surrogate uni && (b =? 92)%N && (u' =? 117)%N);
          [| apply Hplain in H; exact H].
        destruct (hex4 l1 l2 l3 l4) as [lo |]; [| discriminate].
        destruct (is_low_surrogate lo); [| apply Hplain in H; exact H].
        apply IH in H; cbn [length] in *; lia.
      * destruct (simple_escape e); [| discriminate].
        apply IH in H; cbn [length] in *; lia.
    + destruct (c <=? 31)%N; [discriminate |].
      apply IH in H; lia.
Qed.

Lemma span_digits_length (s ds r : str) :
  span_digits s = (ds, r) ->
  (length r <= length s)%nat /\ (ds <> [] -> (length r < length s)%nat).
Proof.
  revert ds r. induction s as [| c t IH]; intros ds r H.
  - injection H as <- <-. split; [apply le_n | intros Hc; contradiction Hc; reflexivity].
  - cbn [span_digits] in H. destruct (is_digit c).
    + destruct (span_digits t) as [ds' r'] eqn:E. injection H as <- <-.
      destruct (IH ds' r' eq_refl) as [Hle _]. cbn [length]. split; [lia | intros _; lia].
    + injection H as <- <-. split; [apply le_n | intros Hc; contradiction Hc; reflexivity].
Qed.

Lemma number_sign_length (s : str) :
  (length (snd (number_sign s)) <= length s)%nat.
Proof.
  unfold number_sign. destruct (head_is 45 s) eqn:E; [| apply le_n].
  cbn [snd]. rewrite (head_is_tl _ _ E). lia.
Qed.

Lemma number_integer_length (s ds r : str) :
  number_integer s = Some (ds, r) -> (length r < length s)%nat.
Proof.
  unfold number_integer. destruct s as [| c t]; [discriminate |].
  destruct (c =? 48)%N; [intros H; injection H as _ <-; cbn [length]; lia |].
  destruct (is_digit c) eqn:Ed; [| discriminate].
  intros H.
  assert (Hs : span_digits (c :: t) = (ds, r)) by (injection H as H; exact H).
  pose proof (span_digits_length _ _ _ Hs) as [_ Hlt]. apply Hlt.
  cbn [span_digits] in Hs. rewrite Ed in Hs.
  destruct (span_digits t). injection Hs as <- _. discriminate.
Qed.

Lemma number_frac_length (s : str) :
  (length (snd (number_frac s)) <= length s)%nat.
Proof.
  unfold number_frac. destruct (head_is 46 s) eqn:E; [| apply le_n].
  destruct (span_digits (tl s)) as [ds r] eqn:Es.
  pose proof (span_digits_length _ _ _ Es) as [Hle _].
  rewrite (head_is_tl _ _ E).
  destruct ds; cbn [snd]; [rewrite <- (head_is_tl _ _ E); apply le_n | lia].
Qed.

Lemma number_exp_length (s : str) :
  (length (snd (number_exp s)) <= length s)%nat.
Proof.
  unfold number_exp. destruct (head_is 101 s || head_is 69 s) eqn:E;
    [| apply le_n].
  assert (Hs : length s = S (length (tl s))).
  { destruct s; [discriminate | reflexivity]. }
  assert (Ht1 : (length
                   (snd (if head_is 45 (tl s) then (true, tl (tl s))
                         else if head_is 43 (tl s) then (false, tl (tl s))
                         else (false, tl s)))
                 <= length (tl s))%nat).
  { destruct (head_is 45 (tl s)) eqn:E1.
    - cbn [snd]. rewrite (head_is_tl _ _ E1). lia.
    - destruct (head_is 43 (tl s)) eqn:E2; cbn [snd];
        [rewrite (head_is_tl _ _ E2); lia | apply le_n]. }
  cbv zeta.
  destruct (if head_is 45 (tl s) then _ else _) as [b t1].
  cbn [snd] in Ht1.
  destruct (span_digits t1) as [ds r] eqn:Es.
  pose proof (span_digits_length _ _ _ Es) as [Hle _].
  destruct ds; cbn [snd]; lia.
Qed.

Lemma match_number_length (s : str) (v : json) (r : str) :
  match_number s = Some (v, r) -> (length r < length s)%nat.
Proof.
  unfold match_number.
  pose proof (number_sign_length s) as H1.
  destruct (number_sign s) as [negative s1]. cbn [snd] in H1.
  destruct (number_integer s1) as [[int_ds s2] |] eqn:E2; [| discriminate].
  apply number_integer_length in E2.
  pose proof (number_frac_length s2) as H3.
  destruct (number_frac s2) as [frac_ds s3]. cbn [snd] in H3.
  pose proof (number_exp_length s3) as H4.
  destruct (number_exp s3) as [exp s4]. cbn [snd] in H4.
  destruct frac_ds, exp; intros H; injection H as _ <-; lia.
Qed.

Lemma skipn_prefix_length (p s : str) :
  p <> [] -> str_prefixb p s = true ->
  (length (skipn (length p) s) < length s)%nat.
Proof.
  intros Hp H. rewrite length_skipn.
  destruct p; [contradiction Hp; reflexivity |].
  destruct s; [discriminate |]. cbn [length]. lia.
Qed.

Lemma scan_atom_length (s : str) (v : json) (r : str) :
  scan_atom s = Scanned v r -> (length r < length s)%nat.
Proof.
  unfold scan_atom.
  destruct (str_prefixb (u "null") s) eqn:E1;
    [intros H; injection H as _ <-;
     apply (skipn_prefix_length (u "null")); [discriminate | exact E1] |].
  destruct (str_prefixb (u "true") s) eqn:E2;
    [intros H; injection H as _ <-;
     apply (skipn_prefix_length (u "true")); [discriminate | exact E2] |].
  destruct (str_prefixb (u "false") s) eqn:E3;
    [intros H; injection H as _ <-;
     apply (skipn_prefix_length (u "false")); [discriminate | exact E3] |].
  destruct (match_number s) as [[v' r'] |] eqn:En.
  - intros H. injection H as _ <-. apply (match_number_length _ _ _ En).
  - destruct (str_prefixb (u "NaN") s) eqn:E4;
      [intros H; injection H as _ <-;
       apply (skipn_prefix_length (u "NaN")); [discriminate | exact E4] |].
    destruct (str_prefixb (u "Infinity") s) eqn:E5;
      [intros H; injection H as _ <-;
       apply (skipn_prefix_length (u "Infinity")); [discriminate | exact E5] |].
    destruct (str_prefixb (u "-Infinity") s) eqn:E6;
      [intros H; injection H as _ <-;
       apply (skipn_prefix_length (u "-Infinity")); [discriminate | exact E6] |].
    discriminate.
Qed.

Lemma scan_string_length (t : str) (v : json) (r : str) :
  scan_string t = Scanned v r -> (length r < length t)%nat.
Proof.
  unfold scan_string. destruct (scanstring t []) as [[x r'] |] eqn:E;
    [| discriminate].
  intros H. injection H as _ <-. apply (scanstring_length _ _ _ _ _ (le_n _) E).
Qed.

Lemma scan_fuel :
  forall fuel,
    (forall s, (2 * length s < fuel)%nat -> fuelled fuel s (scan_once fuel s))
    /\ (forall s acc, (2 * length s < fuel)%nat ->
                      fuelled fuel s (parse_members fuel s acc))
    /\ (forall s acc, (2 * length s + 1 < fuel)%nat ->
                      fuelled fuel s (parse_elements fuel s acc)).
Proof.
  induction fuel as [| fuel (IHs & IHm & IHe)].
  - repeat split; intros; lia.
  - split; [| split].
    + intros s Hf. cbn [scan_once].
      destruct (head_is 34 s) eqn:E1.
      { split; [unfold scan_string; destruct (scanstring (tl s) []) as [[? ?] |]; discriminate |].
        intros v r H. apply scan_string_length in H.
        rewrite (head_is_tl _ _ E1). lia. }
      destruct (head_is 123 s) eqn:E2.
      { pose proof (head_is_tl _ _ E2) as Hs.
        pose proof (skip_ws_length (tl s)) as Hw.
        cbv zeta. destruct (head_is 125 (skip_ws (tl s))) eqn:E3.
        - split; [discriminate |]. intros v r H. injection H as _ <-.
          pose proof (head_is_tl _ _ E3). lia.
        - destruct (IHm (skip_ws (tl s)) []) as [Hne Hlen]; [lia |].
          split; [exact Hne |]. intros v r H. apply Hlen in H. lia. }
      destruct (head_is 91 s) eqn:E4.
      { pose proof (head_is_tl _ _ E4) as Hs.
        pose proof (skip_ws_length (tl s)) as Hw.
        cbv zeta. destruct (head_is 93 (skip_ws (tl s))) eqn:E5.
        - split; [discriminate |]. intros v r H. injection H as _ <-.
          pose proof (head_is_tl _ _ E5). lia.
        - destruct (IHe (skip_ws (tl s)) []) as [Hne Hlen]; [lia |].
          split; [exact Hne |]. intros v r H. apply Hlen in H. lia. }
      split.
      * unfold scan_atom.
        repeat match goal with
               | |- context [if ?b then _ else _] => destruct b
               | |- context [match match_number ?x with _ => _ end] =>
                   destruct (match_number x) as [[? ?] |]
               end; discriminate.
      * intros v r H. apply (scan_atom_length _ _ _ H).
    + intros s acc Hf. cbn [parse_members].
      destruct (head_is 34 s) eqn:E1; [| split; [discriminate | discriminate]].
      pose proof (head_is_tl _ _ E1) as Hs.
      destruct (scanstring (tl s) []) as [[key r0] |] eqn:Ek;
        [| split; discriminate].
      apply (scanstring_length _ _ _ _ _ (le_n _)) in Ek.
      cbv zeta. pose proof (skip_ws_length r0) as Hw0.
      destruct (head_is 58 (skip_ws r0)) eqn:E2; [| split; discriminate].
      pose proof (head_is_tl _ _ E2) as H58.
      pose proof (skip_ws_length (tl (skip_ws r0))) as Hw1.
      destruct (IHs (skip_ws (tl (skip_ws r0)))) as [Hne Hlen]; [lia |].
      destruct (scan_once fuel (skip_ws (tl (skip_ws r0)))) as [v r2 | |];
        [| split; discriminate | contradiction Hne; reflexivity].
      specialize (Hlen v r2 eq_refl).
      pose proof (skip_ws_length r2) as Hw2.
      destruct (head_is 125 (skip_ws r2)) eqn:E3.
      * split; [discriminate |]. intros v' r H. injection H as _ <-.
        pose proof (head_is_tl _ _ E3). lia.
      * destruct (head_is 44 (skip_ws r2)) eqn:E4; [| split; discriminate].
        pose proof (head_is_tl _ _ E4) as H44.
        pose proof (skip_ws_length (tl (skip_ws r2))) as Hw3.
        destruct (IHm (skip_ws (tl (skip_ws r2))) (dict_set key v acc))
          as [Hne' Hlen']; [lia |].
        split; [exact Hne' |]. intros v' r H. apply Hlen' in H. lia.
    + intros s acc Hf. cbn [parse_elements].
      destruct (IHs s) as [Hne Hlen]; [lia |].
      destruct (scan_once fuel s) as [v r0 | |];
        [| split; discriminate | contradiction Hne; reflexivity].
      specialize (Hlen v r0 eq_refl). cbv zeta.
      pose proof (skip_ws_length r0) as Hw0.
      destruct (head_is 93 (skip_ws r0)) eqn:E1.
      * split; [discriminate |]. intros v' r H. injection H as _ <-.
        pose proof (head_is_tl _ _ E1). lia.
      * destruct (head_is 44 (skip_ws r0)) eqn:E2; [| split; discriminate].
        pose proof (head_is_tl _ _ E2) as H44.
        pose proof (skip_ws_length (tl (skip_ws r0))) as Hw1.
        destruct (IHe (skip_ws (tl (skip_ws r0))) (acc ++ [v]))
          as [Hne' Hlen']; [lia |].
        split; [exact Hne' |]. intros v' r H. apply Hlen' in H. lia.
Qed.

(** [json_loads] never gives up for want of fuel: its [None] is a text that
    is not JSON. *)
Lemma json_loads_fuel (s : str) :
  scan_once (2 * length s + 2) (skip_ws s) <> OutOfFuel.
Proof.
  destruct (scan_fuel (2 * length s + 2)) as (Hs & _ & _).
  apply (Hs (skip_ws s)). pose proof (skip_ws_length s). lia.
Qed.

(* ===================================================================== *)
(** ** The extracted answer is an object *)
(* ===================================================================== *)

Lemma parse_members_dict :
  forall fuel s acc v r,
    parse_members fuel s acc = Scanned v r -> is_dict v = true.
Proof.
  induction fuel as [| fuel IH]; intros s acc v r H; [discriminate |].
  cbn [parse_members] in H.
  destruct (head_is 34 s); [| discriminate].
  destruct (scanstring (tl s) []) as [[key r0] |]; [| discriminate].
  cbv zeta in H.
  destruct (head_is 58 (skip_ws r0)); [| discriminate].
  destruct (scan_once fuel (skip_ws (tl (skip_ws r0)))) as [v0 r2 | |];
    try discriminate.
  destruct (head_is 125 (skip_ws r2)); [injection H as <- _; reflexivity |].
  destruct (head_is 44 (skip_ws r2)); [| discriminate].
  apply (IH _ _ _ _ H).
Qed.

(** A text that starts with an opening brace parses to an object. *)
Lemma json_loads_braced (body : str) (v : json) :
  json_loads (123%N :: body) = Some v -> is_dict v = true.
Proof.
  unfold json_loads. change (head_is 65279 (123%N :: body)) with false.
  cbv iota. change (skip_ws (123%N :: body)) with (123%N :: body).
  replace (2 * length (123%N :: body) + 2)%nat
    with (S (2 * length (123%N :: body) + 1)) by lia.
  cbn [scan_once]. change (head_is 34 (123%N :: body)) with false.
  change (head_is 123 (123%N :: body)) with true. cbv iota zeta.
  destruct (head_is 125 (skip_ws (tl (123%N :: body)))).
  - destruct (skip_ws _); intros H; [injection H as <-; reflexivity | discriminate].
  - destruct (parse_members _ _ _) as [v0 r | |] eqn:E; try discriminate.
    destruct (skip_ws r); intros H; [| discriminate].
    injection H as <-. apply (parse_members_dict _ _ _ _ _ E).
Qed.

(** [extract_answer_json] returns a [dict] or [None]: the checks of
    [format_reward] always run on a [dict]. *)
Lemma extract_answer_json_dict (response : str) :
  extract_answer_json response = JNull
  \/ is_dict (extract_answer_json response) = true.
Proof.
  destruct (re_search label_re response) as [[g tail] |] eqn:El.
  - rewrite (extract_answer_json_labelled _ _ _ El).
    destruct (upto_last_rbrace tail) as [body |]; [| left; reflexivity].
    destruct (json_loads (123%N :: body)) as [v |] eqn:Ej; [| left; reflexivity].
    right. apply (json_loads_braced _ _ Ej).
  - left. apply extract_answer_json_unlabelled. exact El.
Qed.

(* ===================================================================== *)
(** ** Further properties of the length penalty *)
(* ===================================================================== *)

Lemma bind_raise {A B : Type} (r : result A) (k : A -> result B) (e : exn) :
  bind r k = Raise e ->
  r = Raise e \/ exists a, r = Ok a /\ k a = Raise e.
Proof.
  destruct r as [a | e']; simpl; intros H.
  - right. exists a. split; [reflexivity | exact H].
  - left. injection H as ->. reflexivity.
Qed.

(** X1.  Whatever the three integers (a zero or negative buffer included),
    [soft_overlong_punishment] returns, never dividing by zero, and the
    penalty lies between [-1] and [0]. *)
Theorem soft_overlong_punishment_returns_in_range :
  forall response_length max_response_length overlong_buffer_length : Z,
  exists q,
    soft_overlong_punishment response_length max_response_length
      overlong_buffer_length = Ok q
    /\ -1 <= q <= 0.
Proof. exact soft_overlong_punishment_range. Qed.

Lemma Qdiv_le_compat (x y b : Q) : 0 < b -> x <= y -> x / b <= y / b.
Proof.
  intros Hb Hxy. apply Qle_shift_div_l; [exact Hb |].
  setoid_replace (x / b * b) with x by (field; lra). exact Hxy.
Qed.

(** X2.  The penalty never gets milder as the response gets longer: of two
    lengths, the longer one has the lower or equal penalty, whatever the
    budget and the buffer. *)
Theorem soft_overlong_punishment_monotone :
  forall (len1 len2 max buffer : Z) (q1 q2 : Q),
    (len1 <= len2)%Z ->
    soft_overlong_punishment len1 max buffer = Ok q1 ->
    soft_overlong_punishment len2 max buffer = Ok q2 ->
    q2 <= q1.
Proof.
  intros len1 len2 max buffer q1 q2 Hle H1 H2.
  destruct (soft_overlong_punishment_range len1 max buffer) as (q1' & E1 & R1).
  destruct (soft_overlong_punishment_range len2 max buffer) as (q2' & E2 & R2).
  rewrite H1 in E1. injection E1 as <-.
  rewrite H2 in E2. injection E2 as <-.
  unfold soft_overlong_punishment in H1, H2.
  destruct (len1 <=? max - buffer)%Z eqn:A1.
  - injection H1 as <-. apply R2.
  - destruct (len2 <=? max - buffer)%Z eqn:A2;
      [apply Z.leb_le in A2; apply Z.leb_gt in A1; lia |].
    destruct (len2 <=? max)%Z eqn:B2.
    + destruct (len1 <=? max)%Z eqn:B1;
        [| apply Z.leb_le in B2; apply Z.leb_gt in B1; lia].
      unfold py_truediv in H1, H2.
      apply Z.leb_gt in A1. apply Z.leb_le in B1.
      destruct (buffer =? 0)%Z eqn:Eb; [discriminate |].
      injection H1 as <-. injection H2 as <-.
      apply Qdiv_le_compat.
      * change 0 with (inject_Z 0). rewrite <- Zlt_Qlt. lia.
      * rewrite <- Zle_Qle. lia.
    + injection H2 as <-. apply R1.
Qed.

Lemma soft_overlong_punishment_monotone_witness : -15 # 20 <= -5 # 20.
Proof.
  apply (soft_overlong_punishment_monotone 85 95 100 20 (-5 # 20) (-15 # 20));
    [lia | reflexivity | reflexivity].
Defined.

(* ===================================================================== *)
(** ** What extraction and the format check return *)
(* ===================================================================== *)

(** X3.  [extract_answer_json] returns [None] or a [dict], never a list, a
    string, a number or a boolean: the text it parses starts with an opening
    brace. *)
Theorem extract_answer_json_none_or_dict :
  forall response,
    extract_answer_json response = JNull
    \/ exists d, extract_answer_json response = JObj d.
Proof.
  intros response.
  destruct (extract_answer_json_dict response) as [H | H]; [left; exact H |].
  right. destruct (extract_answer_json response); try discriminate.
  eexists. reflexivity.
Qed.

Lemma check_spatial_rels_raises (rels : list json) (e : exn) :
  check_spatial_rels rels = Raise e -> e = TypeError.
Proof.
  induction rels as [| rel rest IH]; [discriminate |].
  cbn [check_spatial_rels]. unfold py_not_in.
  destruct (hashable rel); cbn [bind]; [| intros H; congruence].
  destruct (negb _); [discriminate | exact IH].
Qed.

Lemma py_all_in_dict (fields : list str) (d : dict) :
  exists b, py_all_in fields (JObj d) = Ok b.
Proof.
  induction fields as [| f rest [b IH]]; [exists true; reflexivity |].
  cbn [py_all_in py_contains bind].
  destruct (dict_mem f d); [exists b; exact IH | exists false; reflexivity].
Qed.

Lemma check_edge_raises (edge : json) (e : exn) :
  check_edge edge = Raise e -> e = TypeError.
Proof.
  unfold check_edge. destruct edge; try discriminate. cbn [is_dict negb].
  destruct (py_all_in_dict required_edge_fields d) as [b Hb]. rewrite Hb.
  cbn [bind]. destruct b; [| discriminate]. cbn [negb py_get bind].
  unfold py_not_in at 1.
  destruct (hashable _); cbn [bind]; [| intros H; congruence].
  destruct (negb _); [discriminate |].
  cbn [py_get_default bind].
  destruct (match dict_get k_spatial_relations d with
            | Some x => x
            | None => JArr []
            end) as [| | | | | rels |]; try discriminate.
  cbn [is_list negb py_iter bind].
  destruct (check_spatial_rels rels) as [[|] | e'] eqn:Es; cbn [bind negb].
  - destruct (is_bool _); discriminate.
  - discriminate.
  - intros H. injection H as <-. apply (check_spatial_rels_raises _ _ Es).
Qed.

Lemma check_edges_outcome (edges : list json) :
  (forall v, check_edges edges = Ok v -> v = 0 \/ v = 1)
  /\ (forall e, check_edges edges = Raise e -> e = TypeError).
Proof.
  induction edges as [| edge rest [IHv IHe]]; cbn [check_edges].
  - split; [intros v H; injection H as <-; right; reflexivity | discriminate].
  - destruct (check_edge edge) as [[|] | e'] eqn:Ec; cbn [bind].
    + split; assumption.
    + split; [intros v H; injection H as <-; left; reflexivity | discriminate].
    + split; [discriminate |].
      intros e H. injection H as <-. apply (check_edge_raises _ _ Ec).
Qed.

Lemma py_not_in_outcome (x : json) (S : list str) :
  (exists b, py_not_in x S = Ok b) \/ py_not_in x S = Raise TypeError.
Proof.
  unfold py_not_in. destruct (hashable x); [left; eexists |right]; reflexivity.
Qed.

Lemma format_checks_outcome (d : dict) :
  (forall v, format_checks (JObj d) = Ok v -> v = 0 \/ v = 1)
  /\ (forall e, format_checks (JObj d) = Raise e -> e = TypeError).
Proof.
  unfold format_checks.
  destruct (py_all_in_dict required_fields d) as [b Hb]. rewrite Hb.
  cbn [bind].
  assert (Hzero : (forall v : Q, @Ok Q 0 = Ok v -> v = 0 \/ v = 1)
                  /\ (forall e, @Ok Q 0 = Raise e -> e = TypeError)).
  { split; [intros v H; injection H as <-; left; reflexivity | discriminate]. }
  destruct b; [| exact Hzero]. cbn [negb py_get bind].
  destruct (is_list _); [| exact Hzero]. cbn [negb].
  destruct (is_list _) eqn:El; [| exact Hzero]. cbn [negb].
  destruct (is_str _); [| exact Hzero]. cbn [negb].
  destruct (py_not_in_outcome
              match dict_get k_action_type d with
              | Some x => x
              | None => JNull
              end VALID_ACTION_TYPES) as [[bad Hbad] | Hbad];
    rewrite Hbad; cbn [bind];
    [| split; [discriminate | intros e H; injection H as <-; reflexivity]].
  destruct bad; [exact Hzero |].
  cbn [py_get_default bind].
  destruct (dict_get k_edges d) as [[| | | | | edges |] |]; try discriminate.
  cbn [py_iter bind]. apply check_edges_outcome.
Qed.





(* ===================================================================== *)
(** ** Further properties of the edges component *)
(* ===================================================================== *)

Lemma best_match_loop_max (pred_edges : list json) (gt_edge : json) :
  forall best b,
    best_match_loop pred_edges gt_edge best = Ok b ->
    best <= b
    /\ (forall pe, In pe pred_edges ->
          exists s, calculate_edge_similarity pe gt_edge = Ok s /\ s <= b)
    /\ (b = best
        \/ exists pe, In pe pred_edges
                      /\ calculate_edge_similarity pe gt_edge = Ok b).
Proof.
  induction pred_edges as [| pe rest IH]; intros best b H.
  - injection H as <-. split; [apply Qle_refl |].
    split; [intros pe [] | left; reflexivity].
  - cbn [best_match_loop] in H. bind_inv H.
    destruct (IH _ _ H) as (Hge & Hall & Hatt).
    split; [apply Qle_trans with (py_max best v); [apply py_max_ge_l | exact Hge] |].
    split.
    + intros pe' [<- | Hin].
      * exists v. split; [exact E |].
        apply Qle_trans with (py_max best v); [apply py_max_ge_r | exact Hge].
      * apply Hall. exact Hin.
    + destruct Hatt as [-> | (pe' & Hin & Hs)].
      * unfold py_max. destruct (Qle_bool v best).
        -- left. reflexivity.
        -- right. exists pe. split; [left; reflexivity | exact E].
      * right. exists pe'. split; [right; exact Hin | exact Hs].
Qed.

(** X6.  The best match of a ground-truth edge is the maximum of [0] and of
    its similarities to the predicted edges: it is at least each of them,
    and it is [0] or the similarity of one predicted edge. *)
Theorem best_match_is_maximum :
  forall (pred_edges : list json) (gt_edge : json) (b : Q),
    best_match_loop pred_edges gt_edge 0 = Ok b ->
    0 <= b
    /\ (forall pe, In pe pred_edges ->
          exists s, calculate_edge_similarity pe gt_edge = Ok s /\ s <= b)
    /\ (b = 0
        \/ exists pe, In pe pred_edges
                      /\ calculate_edge_similarity pe gt_edge = Ok b).
Proof. intros pred_edges gt_edge b. apply best_match_loop_max. Qed.

Lemma best_match_is_maximum_witness :
  0 <= 16 # 16
  /\ (forall pe, In pe [ExtraEdge.unrelated_edge; ExtraEdge.toaster_edge] ->
        exists s,
          calculate_edge_similarity pe ExtraEdge.toaster_edge = Ok s
          /\ s <= 16 # 16)
  /\ (16 # 16 = 0
      \/ exists pe,
           In pe [ExtraEdge.unrelated_edge; ExtraEdge.toaster_edge]
           /\ calculate_edge_similarity pe ExtraEdge.toaster_edge
              = Ok (16 # 16)).
Proof.
  apply (best_match_is_maximum
           [ExtraEdge.unrelated_edge; ExtraEdge.toaster_edge]
           ExtraEdge.toaster_edge (16 # 16)).
  vm_compute. reflexivity.
Defined.

Lemma edge_score_loop_no_prediction (gt_edges : list json) :
  forall acc, exists v,
    edge_score_loop gt_edges (JArr []) acc = Ok v /\ v == acc.
Proof.
  induction gt_edges as [| g rest IH]; intros acc.
  - exists acc. split; reflexivity.
  - cbn [edge_score_loop py_iter bind best_match_loop].
    destruct (IH (acc + 0)) as (v & Hv & Heq).
    exists v. split; [exact Hv | rewrite Heq; ring].
Qed.

(** X7.  With no predicted edge, the edges component is [0] whatever the
    ground-truth edges are: they are not even looked at, so that malformed
    ones do not raise.  With no ground-truth edge, the component is [0]
    whatever the prediction is, a value that cannot be iterated included. *)
Theorem edges_similarity_of_empty_sides :
  (forall gt_edges : list json,
      exists s, edges_similarity (JArr []) (JArr gt_edges) = Ok s /\ s == 0)
  /\ (forall pred_edges : json,
        edges_similarity pred_edges (JArr []) = Ok 0).
Proof.
  split; [| reflexivity].
  intros gt_edges. unfold edges_similarity.
  destruct gt_edges as [| g rest]; [exists 0; split; reflexivity |].
  cbn [py_truthy py_iter py_len bind].
  destruct (edge_score_loop_no_prediction (g :: rest) 0) as (v & Hv & Heq).
  rewrite Hv. cbn [bind length].
  replace (Z.of_nat (S (length rest)) <? Z.of_nat 0)%Z with false
    by (symmetry; apply Z.ltb_ge; lia).
  eexists. split; [reflexivity |]. rewrite Heq. unfold Qdiv. ring.
Qed.

(** X8.  With [k > 0] predicted edges more than ground-truth edges, the
    edges component is at most [max(0, 1 - 0.1 k)]; with ten or more excess
    edges it is [0]. *)
Theorem excess_edges_bound :
  forall (pred_edges gt_edges : list json) (s : Q),
    (length gt_edges < length pred_edges)%nat ->
    edges_similarity (JArr pred_edges) (JArr gt_edges) = Ok s ->
    let k := inject_Z (Z.of_nat (length pred_edges)
                       - Z.of_nat (length gt_edges)) in
    s <= py_max 0 (1 - k * (1 # 10))
    /\ (10 <= k -> s = 0).
Proof.
  intros pred_edges gt_edges s Hlen H k.
  pose proof (edges_similarity_range _ _ _ H) as Hrange.
  unfold edges_similarity in H.
  destruct (py_truthy (JArr gt_edges)) eqn:Ht.
  2:{ injection H as <-. split; [apply py_max_ge_l | reflexivity]. }
  cbn [py_iter py_len bind] in H. bind_inv H.
  pose proof (edge_score_loop_range _ _ _ _ E) as Hsum.
  assert (Hn : 0 < inject_Z (Z.of_nat (length gt_edges))).
  { change 0 with (inject_Z 0). rewrite <- Zlt_Qlt.
    destruct gt_edges; [discriminate Ht | simpl; lia]. }
  assert (Havg : 0 <= v / inject_Z (Z.of_nat (length gt_edges)) <= 1)
    by (apply Qdiv_range; [exact Hn | lra]).
  set (avg := v / inject_Z (Z.of_nat (length gt_edges))) in *. clearbody avg.
  replace (Z.of_nat (length gt_edges) <? Z.of_nat (length pred_edges))%Z
    with true in H by (symmetry; apply Z.ltb_lt; lia).
  fold k in H. injection H as <-. split.
  - apply py_max_le; [apply py_max_ge_l |].
    apply Qle_trans with (1 - k * (1 # 10)); [lra | apply py_max_ge_r].
  - intros Hk. unfold py_max.
    destruct (Qle_bool (avg - k * (1 # 10)) 0) eqn:Hm; [reflexivity |].
    apply Qle_bool_false in Hm. lra.
Qed.

Lemma excess_edges_bound_witness :
  let k := inject_Z (Z.of_nat 2 - Z.of_nat 1) in
  144 # 160 <= py_max 0 (1 - k * (1 # 10)) /\ (10 <= k -> 144 # 160 = 0).
Proof.
  apply (excess_edges_bound
           [ExtraEdge.toaster_edge; ExtraEdge.unrelated_edge]
           [ExtraEdge.toaster_edge] (144 # 160)).
  - simpl. lia.
  - vm_compute. reflexivity.
Defined.

(* ===================================================================== *)
(** ** Caps of the similarity and of the accuracy *)
(* ===================================================================== *)

(** The ways [accuracy_reward] returns. *)
Lemma accuracy_reward_inv (response ground_truth : str) (a : Q) :
  accuracy_reward response ground_truth = Ok a ->
  a = -5 # 10 \/ a = 0
  \/ exists gt_json similarity,
       json_loads (strip ground_truth) = Some gt_json
       /\ calculate_graph_similarity (extract_answer_json response) gt_json
          = Ok similarity
       /\ a = accuracy_step similarity.
Proof.
  unfold accuracy_reward. intros H.
  destruct (json_loads (strip ground_truth)) as [gt_json |];
    [| injection H as <-; left; reflexivity].
  destruct (is_none (extract_answer_json response));
    [injection H as <-; left; reflexivity |].
  bind_inv H.
  destruct (Qeq_bool v 0); [injection H as <-; right; left; reflexivity |].
  bind_inv H. right. right. exists gt_json, v0.
  split; [reflexivity |]. split; [exact E0 |].
  unfold accuracy_step.
  repeat match type of H with
         | (if ?b then _ else _) = _ => destruct b
         end; injection H as <-; reflexivity.
Qed.

Lemma accuracy_step_cap_4 (similarity : Q) :
  similarity <= 4 # 5 -> accuracy_step similarity <= 5 # 10.
Proof.
  intros H. unfold accuracy_step.
  destruct (Qle_bool (98 # 100) similarity) eqn:E1;
    [apply Qle_bool_iff in E1; lra |].
  destruct (Qle_bool (85 # 100) similarity) eqn:E2;
    [apply Qle_bool_iff in E2; lra |].
  repeat match goal with
         | |- context [if ?b then _ else _] => destruct b
         end; discriminate.
Qed.

Lemma accuracy_cap_4 (response ground_truth : str) (a : Q) :
  (forall gt_json similarity,
      json_loads (strip ground_truth) = Some gt_json ->
      calculate_graph_similarity (extract_answer_json response) gt_json
        = Ok similarity ->
      similarity <= 4 # 5) ->
  accuracy_reward response ground_truth = Ok a -> a <= 5 # 10.
Proof.
  intros Hcap H.
  destruct (accuracy_reward_inv _ _ _ H)
    as [-> | [-> | (gt_json & sim & Hg & Hs & ->)]]; try discriminate.
  apply accuracy_step_cap_4. apply (Hcap gt_json sim Hg Hs).
Qed.

Lemma Qdiv5_le_4 (x : Q) : x <= 4 -> x / 5 <= 4 # 5.
Proof. intros H. apply Qle_shift_div_r; [reflexivity | lra]. Qed.

Lemma edges_similarity_falsy (pred_edges gt_edges : json) :
  py_truthy gt_edges = false -> edges_similarity pred_edges gt_edges = Ok 0.
Proof. intros H. unfold edges_similarity. rewrite H. reflexivity. Qed.

Lemma calculate_graph_similarity_no_edges (pred_json gt_json x : json) (v : Q) :
  py_get_default gt_json k_edges (JArr []) = Ok x ->
  py_truthy x = false ->
  calculate_graph_similarity pred_json gt_json = Ok v -> v <= 4 # 5.
Proof.
  intros Hx Ht H. unfold calculate_graph_similarity in H.
  destruct (is_none pred_json || is_none gt_json);
    [injection H as <-; discriminate |].
  do 10 bind_inv H. injection H as <-.
  match goal with
  | E : nodes_similarity _ _ = Ok _ |- _ => apply nodes_similarity_range in E
  end.
  match goal with
  | E : py_get_default gt_json k_edges _ = Ok ?y |- _ =>
      rewrite Hx in E; injection E as <-
  end.
  match goal with
  | E : edges_similarity _ _ = Ok _ |- _ =>
      rewrite (edges_similarity_falsy _ _ Ht) in E; injection E as <-
  end.
  repeat match goal with
         | |- context [if ?b then _ else _] => destruct b
         end; (apply Qdiv5_le_4; lra).
Qed.

Lemma nodes_similarity_no_nodes (pred_json gt_json x : json) (n : Q) :
  py_get_default gt_json k_nodes (JArr []) = Ok x ->
  py_set x = Ok [] ->
  nodes_similarity pred_json gt_json = Ok n -> n = 0.
Proof.
  intros Hx Hs H. unfold nodes_similarity in H. do 2 bind_inv H.
  rewrite Hx in H. cbn [bind] in H. rewrite Hs in H. cbn [bind nonempty] in H.
  injection H as <-. reflexivity.
Qed.

Lemma calculate_graph_similarity_no_nodes (pred_json gt_json x : json) (v : Q) :
  py_get_default gt_json k_nodes (JArr []) = Ok x ->
  py_set x = Ok [] ->
  calculate_graph_similarity pred_json gt_json = Ok v -> v <= 4 # 5.
Proof.
  intros Hx Hs H. unfold calculate_graph_similarity in H.
  destruct (is_none pred_json || is_none gt_json);
    [injection H as <-; discriminate |].
  do 10 bind_inv H. injection H as <-.
  match goal with
  | E : nodes_similarity _ _ = Ok _ |- _ =>
      apply (nodes_similarity_no_nodes _ _ _ _ Hx Hs) in E; subst
  end.
  match goal with
  | E : edges_similarity _ _ = Ok _ |- _ => apply edges_similarity_range in E
  end.
  repeat match goal with
         | |- context [if ?b then _ else _] => destruct b
         end; (apply Qdiv5_le_4; lra).
Qed.

(** X9.  A ground truth whose [edges] are missing or empty (or whose nodes
    are an empty collection) caps the graph similarity at [0.8] and the
    accuracy at [0.5], whatever the prediction: the empty component counts
    as [0] among the five. *)
Theorem empty_ground_truth_component_caps :
  (forall pred_json gt_json x v,
      py_get_default gt_json k_edges (JArr []) = Ok x ->
      py_truthy x = false ->
      calculate_graph_similarity pred_json gt_json = Ok v -> v <= 4 # 5)
  /\ (forall pred_json gt_json x v,
        py_get_default gt_json k_nodes (JArr []) = Ok x ->
        py_set x = Ok [] ->
        calculate_graph_similarity pred_json gt_json = Ok v -> v <= 4 # 5)
  /\ (forall response ground_truth gt_json x a,
        json_loads (strip ground_truth) = Some gt_json ->
        py_get_default gt_json k_edges (JArr []) = Ok x ->
        py_truthy x = false ->
        accuracy_reward response ground_truth = Ok a -> a <= 5 # 10)
  /\ (forall response ground_truth gt_json x a,
        json_loads (strip ground_truth) = Some gt_json ->
        py_get_default gt_json k_nodes (JArr []) = Ok x ->
        py_set x = Ok [] ->
        accuracy_reward response ground_truth = Ok a -> a <= 5 # 10).
Proof.
  split; [exact calculate_graph_similarity_no_edges |].
  split; [exact calculate_graph_similarity_no_nodes |].
  split.
  - intros response ground_truth gt_json x a Hg Hx Ht.
    apply accuracy_cap_4. intros gt' sim Hg' Hs.
    rewrite Hg in Hg'. injection Hg' as <-.
    apply (calculate_graph_similarity_no_edges _ _ _ _ Hx Ht Hs).
  - intros response ground_truth gt_json x a Hg Hx Hs0.
    apply accuracy_cap_4. intros gt' sim Hg' Hs.
    rewrite Hg in Hg'. injection Hg' as <-.
    apply (calculate_graph_similarity_no_nodes _ _ _ _ Hx Hs0 Hs).
Qed.

Lemma empty_ground_truth_component_caps_witness : 5 # 10 <= 5 # 10.
Proof.
  apply (proj1 (proj2 (proj2 empty_ground_truth_component_caps))
           NoEdges.same_response NoEdges.ground_truth_text
           NoEdges.ground_truth_json (JArr []) (5 # 10));
    vm_compute; reflexivity.
Defined.

Lemma calculate_graph_similarity_mismatch (pred_json gt_json : json)
  (k : str) (p g : json) (v : Q) :
  k = k_task_instruction \/ k = k_action_type \/ k = k_function_type ->
  py_get pred_json k = Ok p -> py_get gt_json k = Ok g ->
  py_eq p g = false ->
  calculate_graph_similarity pred_json gt_json = Ok v -> v <= 4 # 5.
Proof.
  intros Hk Hp Hg Hne H. unfold calculate_graph_similarity in H.
  destruct (is_none pred_json || is_none gt_json);
    [injection H as <-; discriminate |].
  do 10 bind_inv H. injection H as <-.
  match goal with
  | E : nodes_similarity _ _ = Ok _ |- _ => apply nodes_similarity_range in E
  end.
  match goal with
  | E : edges_similarity _ _ = Ok _ |- _ => apply edges_similarity_range in E
  end.
  destruct Hk as [-> | [-> | ->]];
    repeat match goal with
           | E : py_get pred_json ?k' = Ok _ |- _ =>
               rewrite Hp in E; injection E as <-
           | E : py_get gt_json ?k' = Ok _ |- _ =>
               rewrite Hg in E; injection E as <-
           end;
    rewrite Hne;
    repeat match goal with
           | |- context [if ?b then _ else _] => destruct b
           end; (apply Qdiv5_le_4; lra).
Qed.

(** X10.  A prediction whose [task_instruction], [action_type] or
    [function_type] differs from the ground truth's has a graph similarity of
    at most [0.8], hence an accuracy of at most [0.5], however good the rest
    of it is. *)
Theorem mismatching_field_caps :
  (forall pred_json gt_json k p g v,
      k = k_task_instruction \/ k = k_action_type \/ k = k_function_type ->
      py_get pred_json k = Ok p -> py_get gt_json k = Ok g ->
      py_eq p g = false ->
      calculate_graph_similarity pred_json gt_json = Ok v -> v <= 4 # 5)
  /\ (forall response ground_truth gt_json k p g a,
        k = k_task_instruction \/ k = k_action_type \/ k = k_function_type ->
        json_loads (strip ground_truth) = Some gt_json ->
        py_get (extract_answer_json response) k = Ok p ->
        py_get gt_json k = Ok g ->
        py_eq p g = false ->
        accuracy_reward response ground_truth = Ok a -> a <= 5 # 10).
Proof.
  split; [exact calculate_graph_similarity_mismatch |].
  intros response ground_truth gt_json k p g a Hk Hg Hp Hgk Hne.
  apply accuracy_cap_4. intros gt' sim Hg' Hs.
  rewrite Hg in Hg'. injection Hg' as <-.
  apply (calculate_graph_similarity_mismatch _ _ k p g sim Hk Hp Hgk Hne Hs).
Qed.

Lemma mismatching_field_caps_witness : 5 # 10 <= 5 # 10.
Proof.
  apply (proj2 mismatching_field_caps
           Scenario.press_response Scenario.ground_truth_text
           Scenario.ground_truth_json k_action_type
           (JStr (u "press")) (JStr (u "insert")) (5 # 10));
    try (vm_compute; reflexivity).
  right. left. reflexivity.
Defined.

(* ===================================================================== *)
(** ** The similarity of a graph to itself *)
(* ===================================================================== *)

Lemma py_eq_id_str_refl (x : json) : is_str x = true -> py_eq_id x x = true.
Proof. destruct x; try discriminate. intros _. simpl. apply str_eqb_refl. Qed.

Lemma py_eq_str_refl (x : json) : is_str x = true -> py_eq x x = true.
Proof. destruct x; try discriminate. intros _. simpl. apply str_eqb_refl. Qed.

Lemma py_eq_bool_refl (x : json) : is_bool x = true -> py_eq x x = true.
Proof. destruct x as [| [|] | | | | |]; try discriminate; reflexivity. Qed.

Lemma set_add_strings (x : json) (s : pyset) :
  is_str x = true -> forallb is_str s = true ->
  forallb is_str (set_add x s) = true /\ set_add x s <> [].
Proof.
  intros Hx Hs. unfold set_add. destruct (set_mem x s) eqn:E.
  - split; [exact Hs |]. destruct s; [discriminate E | discriminate].
  - split; [rewrite forallb_app, Hs; simpl; rewrite Hx; reflexivity |].
    destruct s; discriminate.
Qed.

Lemma set_of_list_strings_inv (l : list json) :
  forallb is_str l = true ->
  forall acc s,
    forallb is_str acc = true ->
    set_of_list l acc = Ok s ->
    forallb is_str s = true /\ (l <> [] \/ acc <> [] -> s <> []).
Proof.
  induction l as [| x l IH]; intros Hl acc s Hacc H.
  - injection H as <-. split; [exact Hacc |].
    intros [Hc | Hc]; [contradiction Hc; reflexivity | exact Hc].
  - simpl in Hl. apply andb_true_iff in Hl. destruct Hl as [Hx Hl].
    cbn [set_of_list] in H.
    destruct x; try discriminate. cbn [hashable atom_of] in H.
    destruct (set_add_strings (JStr s0) acc eq_refl Hacc) as [Hs Hne].
    destruct (IH Hl _ _ Hs H) as [Hall Hnon].
    split; [exact Hall |]. intros _. apply Hnon. right. exact Hne.
Qed.

Lemma filter_all {A : Type} (f : A -> bool) (l : list A) :
  (forall x, In x l -> f x = true) -> filter f l = l.
Proof.
  intros H. apply forallb_filter_id. apply forallb_forall. exact H.
Qed.

Lemma filter_none {A : Type} (f : A -> bool) (l : list A) :
  (forall x, In x l -> f x = false) -> filter f l = [].
Proof.
  induction l as [| x l IH]; intros H; [reflexivity |].
  cbn [filter]. rewrite (H x (or_introl eq_refl)).
  apply IH. intros y Hy. apply H. right. exact Hy.
Qed.

Lemma set_mem_self (x : json) (s : pyset) :
  In x s -> py_eq_id x x = true -> set_mem x s = true.
Proof.
  intros Hin Hx. unfold set_mem. apply existsb_exists.
  exists x. split; assumption.
Qed.

Lemma set_mem_strings (s : pyset) :
  forallb is_str s = true -> forall x, In x s -> set_mem x s = true.
Proof.
  intros Hs x Hin. apply set_mem_self; [exact Hin |].
  apply py_eq_id_str_refl.
  rewrite forallb_forall in Hs. apply Hs. exact Hin.
Qed.

Lemma intersection_over_union_self (s : pyset) :
  forallb is_str s = true -> s <> [] -> intersection_over_union s s == 1.
Proof.
  intros Hs Hne. unfold intersection_over_union, set_intersection, set_union.
  rewrite (filter_all _ s (set_mem_strings s Hs)).
  rewrite (filter_none (fun x => negb (set_mem x s)) s)
    by (intros x Hx; rewrite (set_mem_strings s Hs x Hx); reflexivity).
  rewrite app_nil_r.
  assert (Hn : (0 < Z.of_nat (length s))%Z)
    by (destruct s; [contradiction Hne; reflexivity | simpl; lia]).
  replace (0 <? Z.of_nat (length s))%Z with true
    by (symmetry; apply Z.ltb_lt; exact Hn).
  field. change 0 with (inject_Z 0). rewrite inject_Z_injective. lia.
Qed.

Lemma py_set_str_list_inv (v : json) (s : pyset) :
  is_str_list v = true -> py_set v = Ok s ->
  forallb is_str s = true /\ (nonempty_list v = true -> s <> []).
Proof.
  destruct v as [| | | | | l |]; try discriminate. cbn [is_str_list].
  intros Hl H. cbn [py_set py_iter bind] in H.
  destruct (set_of_list_strings_inv l Hl [] s eq_refl H) as [Hs Hne].
  split; [exact Hs |]. intros Hn. apply Hne. left.
  destruct l; discriminate.
Qed.

Lemma calculate_edge_similarity_self (e : json) (v : Q) :
  is_full_edge e = true ->
  calculate_edge_similarity e e = Ok v -> v == 1.
Proof.
  unfold is_full_edge. intros Hf H.
  apply andb_true_iff in Hf. destruct Hf as [He Hsp].
  destruct e as [| | | | | | d]; try discriminate.
  unfold is_edge in He.
  repeat (apply andb_true_iff in He; destruct He as [He ?]).
  unfold calculate_edge_similarity in H.
  destruct (field d k_object1) as [| | | | a | |] eqn:E1; try discriminate.
  destruct (field d k_object2) as [| | | | b | |] eqn:E2; try discriminate.
  rewrite (objects_component_strings d d a b a b E1 E2 E1 E2) in H.
  replace (same_pairb a b a b) with true in H
    by (unfold same_pairb; rewrite !str_eqb_refl; reflexivity).
  cbn [bind py_get] in H.
  fold (field d k_functional_relationship) in H.
  rewrite (py_eq_str_refl _ He) in H.
  rewrite !py_get_default_field in H
    by (apply is_str_list_not_none; assumption).
  cbn [bind] in H.
  bind_inv H. rewrite E in H. cbn [bind] in H.
  destruct (py_set_str_list_inv _ _ ltac:(eassumption) E) as [Hs Hne].
  specialize (Hne Hsp).
  replace (nonempty v0) with true in H
    by (destruct v0; [contradiction Hne; reflexivity | reflexivity]).
  fold (field d k_is_touching) in H.
  rewrite (py_eq_bool_refl _ ltac:(eassumption)) in H.
  injection H as <-.
  rewrite (intersection_over_union_self v0 Hs Hne). reflexivity.
Qed.

Lemma is_full_edge_is_edge (e : json) : is_full_edge e = true -> is_edge e = true.
Proof. unfold is_full_edge. intros H. apply andb_true_iff in H. apply H. Qed.

Lemma forallb_is_full_edge (l : list json) :
  forallb is_full_edge l = true -> forallb is_edge l = true.
Proof.
  intros H. apply forallb_forall. intros x Hx.
  apply is_full_edge_is_edge. rewrite forallb_forall in H. apply H. exact Hx.
Qed.

Lemma edge_score_loop_self (edges gts : list json) :
  forallb is_full_edge edges = true ->
  (forall g, In g gts -> In g edges) ->
  forall acc v,
    edge_score_loop gts (JArr edges) acc = Ok v ->
    v == acc + inject_Z (Z.of_nat (length gts)).
Proof.
  intros Hfull. induction gts as [| g rest IH]; intros Hsub acc v H.
  - injection H as <-. simpl. change (inject_Z 0) with 0. ring.
  - cbn [edge_score_loop py_iter bind] in H. bind_inv H.
    assert (Hg : In g edges) by (apply Hsub; left; reflexivity).
    assert (Hgf : is_full_edge g = true)
      by (rewrite forallb_forall in Hfull; apply Hfull; exact Hg).
    pose proof (best_match_loop_range _ _ 0 v0 ltac:(lra) E) as Hr.
    destruct (best_match_loop_max _ _ _ _ E) as (_ & Hall & _).
    destruct (Hall g Hg) as (s & Hs & Hle).
    apply (calculate_edge_similarity_self g s Hgf) in Hs.
    assert (Hone : v0 == 1) by lra.
    rewrite (IH (fun g' Hin => Hsub g' (or_intror Hin)) _ _ H).
    cbn [length]. rewrite inject_Z_succ, Hone. ring.
Qed.

Lemma edges_similarity_self (edges : list json) (v : Q) :
  edges <> [] -> forallb is_full_edge edges = true ->
  edges_similarity (JArr edges) (JArr edges) = Ok v -> v == 1.
Proof.
  intros Hne Hfull H. unfold edges_similarity in H.
  destruct edges as [| e0 rest]; [contradiction Hne; reflexivity |].
  cbn [py_truthy py_iter py_len bind] in H. bind_inv H.
  rewrite Z.ltb_irrefl in H. injection H as <-.
  rewrite (edge_score_loop_self (e0 :: rest) (e0 :: rest) Hfull
             (fun g Hin => Hin) 0 v0 E).
  cbn [length Z.of_nat].
  set (n := inject_Z (Z.pos (Pos.of_succ_nat (length rest)))).
  assert (Hn : ~ n == 0) by (unfold n, Qeq; simpl; lia).
  field. exact Hn.
Qed.

Lemma calculate_graph_similarity_self (g : json) (v : Q) :
  is_full_scene_graph g = true ->
  calculate_graph_similarity g g = Ok v -> v == 1.
Proof.
  unfold is_full_scene_graph. intros Hf H.
  apply andb_true_iff in Hf. destruct Hf as [Hg Hc].
  destruct g as [| | | | | | d]; try discriminate.
  unfold is_scene_graph in Hg.
  repeat (apply andb_true_iff in Hg; destruct Hg as [Hg ?]).
  repeat (apply andb_true_iff in Hc; destruct Hc as [Hc ?]).
  unfold calculate_graph_similarity in H.
  cbn [is_none orb bind py_get] in H.
  fold (field d k_task_instruction) in H.
  fold (field d k_action_type) in H.
  fold (field d k_function_type) in H.
  rewrite !py_eq_str_refl in H by assumption.
  bind_inv H.
  assert (Hnodes : v0 == 1).
  { unfold nodes_similarity in E.
    rewrite !py_get_default_field in E
      by (apply is_str_list_not_none; assumption).
    cbn [bind] in E.
    bind_inv E. rewrite E0 in E. cbn [bind] in E.
    destruct (py_set_str_list_inv _ _ ltac:(eassumption) E0) as [Hs Hne].
    specialize (Hne ltac:(assumption)).
    replace (nonempty v1) with true in E
      by (destruct v1; [contradiction Hne; reflexivity | reflexivity]).
    injection E as <-. apply intersection_over_union_self; assumption. }
  rewrite !py_get_default_field in H
    by (apply is_edge_list_not_none; assumption).
  cbn [bind] in H. bind_inv H. injection H as <-.
  assert (Hedges : v1 == 1).
  { destruct (field d k_edges) as [| | | | | l |]; try discriminate.
    apply (edges_similarity_self l v1); try assumption.
    destruct l; discriminate. }
  rewrite Hnodes, Hedges. reflexivity.
Qed.

(** X11.  A data-model edge with at least one spatial relation has
    similarity [1] to itself, and a data-model scene graph with at least one
    node and one edge, each edge with a spatial relation, has similarity
    [1] to itself; a response that passes the format check and whose payload
    is such a ground truth scores accuracy [1.0]. *)
Theorem similarity_to_itself :
  (forall e, is_full_edge e = true ->
             exists v, calculate_edge_similarity e e = Ok v /\ v == 1)
  /\ (forall g, is_full_scene_graph g = true ->
                exists v, calculate_graph_similarity g g = Ok v /\ v == 1)
  /\ (forall response ground_truth g,
        is_full_scene_graph g = true ->
        json_loads (strip ground_truth) = Some g ->
        extract_answer_json response = g ->
        format_reward response = Ok 1 ->
        accuracy_reward response ground_truth = Ok 1).
Proof.
  assert (Hgraph : forall g, is_full_scene_graph g = true ->
            exists v, calculate_graph_similarity g g = Ok v /\ v == 1).
  { intros g Hg.
    assert (Hs : is_scene_graph g = true)
      by (unfold is_full_scene_graph in Hg; apply andb_true_iff in Hg; apply Hg).
    destruct (calculate_graph_similarity_total g g Hs Hs) as [v Hv].
    exists v. split; [exact Hv |].
    apply (calculate_graph_similarity_self g v Hg Hv). }
  split; [| split; [exact Hgraph |]].
  - intros e He.
    destruct (calculate_edge_similarity_total e e
                (is_full_edge_is_edge e He) (is_full_edge_is_edge e He))
      as [v Hv].
    exists v. split; [exact Hv |].
    apply (calculate_edge_similarity_self e v He Hv).
  - intros response ground_truth g Hg Hgt He Hfmt.
    destruct (Hgraph g Hg) as (v & Hv & Hone).
    assert (Hne : extract_answer_json response <> JNull).
    { rewrite He. destruct g; discriminate. }
    rewrite (accuracy_reward_scored _ _ _ Hgt Hne Hfmt), He, Hv.
    cbn [bind]. unfold accuracy_step.
    replace (Qle_bool (98 # 100) v) with true; [reflexivity |].
    symmetry. apply Qle_bool_iff. rewrite Hone. discriminate.
Qed.

Lemma similarity_to_itself_witness :
  accuracy_reward Scenario.exact_response Scenario.ground_truth_text = Ok 1.
Proof.
  apply (proj2 (proj2 similarity_to_itself)
           Scenario.exact_response Scenario.ground_truth_text
           Scenario.ground_truth_json); vm_compute; reflexivity.
Defined.

(* ===================================================================== *)
(** ** The records of a batch *)
(* ===================================================================== *)

Lemma format_reward_zero_or_one (response : str) (v : Q) :
  format_reward response = Ok v -> v = 0 \/ v = 1.
Proof.
  unfold format_reward.
  destruct (re_search label_re response);
    [| intros H; injection H as <-; left; reflexivity].
  destruct (extract_answer_json_dict response) as [-> | Hd].
  - intros H; injection H as <-; left; reflexivity.
  - destruct (extract_answer_json response); try discriminate.
    cbn [is_none]. apply format_checks_outcome.
Qed.

Lemma accuracy_reward_gated (response ground_truth : str) (a : Q) :
  format_reward response = Ok 0 ->
  accuracy_reward response ground_truth = Ok a -> a <= 0.
Proof.
  intros Hfmt. unfold accuracy_reward.
  destruct (json_loads (strip ground_truth));
    [| intros H; injection H as <-; discriminate].
  destruct (is_none (extract_answer_json response));
    [intros H; injection H as <-; discriminate |].
  rewrite Hfmt. cbn [bind]. change (Qeq_bool 0 0) with true. cbv iota.
  intros H; injection H as <-. discriminate.
Qed.

Lemma score_one_record_ok (s : reward_input) (max buffer : Z)
  (factor weight : Q) (r : reward_record) :
  score_one s max buffer factor weight = Ok r -> record_ok weight factor r.
Proof.
  unfold score_one. intros H. bind_inv H. bind_inv H. bind_inv H.
  injection H as <-. unfold record_ok.
  cbn [format accuracy overlong accuracy_normalized overall].
  pose proof (format_reward_zero_or_one _ _ E) as Hf.
  pose proof (accuracy_reward_values _ _ _ E0) as Ha.
  assert (Hgate : v = 0 -> v0 <= 0).
  { intros ->. apply (accuracy_reward_gated _ _ _ E E0). }
  destruct (soft_overlong_punishment_range
              (Z.of_nat (length (response s))) max buffer) as (q & Hq & Hr).
  rewrite Hq in E1. injection E1 as <-.
  split; [exact Hf |]. split; [exact Ha |]. split; [exact Hgate |].
  split; [exact Hr |].
  split.
  { destruct Ha as [-> | [-> | [-> | [-> | [-> | ->]]]]]; split; discriminate. }
  intros Hw Hfac.
  assert (Hp : - factor <= q * factor <= 0).
  { split.
    - setoid_replace (- factor) with (-1 * factor) by ring.
      apply Qmult_le_compat_r; [apply Hr | exact Hfac].
    - setoid_replace 0 with (0 * factor) by ring.
      apply Qmult_le_compat_r; [apply Hr | exact Hfac]. }
  set (p := q * factor) in *. clearbody p.
  split; [| intros Hz; specialize (Hgate Hz); rewrite Hz].
  - destruct Hf as [-> | ->];
      destruct Ha as [-> | [-> | [-> | [-> | [-> | ->]]]]];
      split; try lra;
      exfalso; (assert (Hc : (0 : Q) = 0) by reflexivity);
      specialize (Hgate Hc); lra.
  - destruct Ha as [-> | [-> | [-> | [-> | [-> | ->]]]]]; lra.
Qed.

Lemma Forall2_Forall_r {A B : Type} (R : A -> B -> Prop) (P : B -> Prop)
  (l : list A) (l' : list B) :
  (forall a b, R a b -> P b) -> Forall2 R l l' -> Forall P l'.
Proof.
  intros H HF. induction HF; constructor; eauto.
Qed.

(** X12.  When [compute_score] returns, it returns one record per sample,
    and in every record: [format] is [0.0] or [1.0]; [accuracy] is one of
    the six rewards and is at most [0.0] when [format] is [0.0]; [overlong]
    lies in [[-1, 0]]; [accuracy_normalized] lies in [[0.25, 1]]; and for
    a format weight in [[0, 1]] and a penalty factor that is not negative,
    [overall] lies between [-0.5 - factor] and [1.0], and is at most [0.0]
    when [format] is [0.0]. *)
Theorem compute_score_record_invariants :
  forall samples max buffer factor weight out,
    compute_score (PyList samples) max buffer factor weight = Ok out ->
    length out = length samples
    /\ Forall (record_ok weight factor) out.
Proof.
  intros samples max buffer factor weight out H.
  apply compute_score_records in H. split.
  - symmetry. apply (Forall2_length H).
  - apply (Forall2_Forall_r _ _ _ _
             (fun s r => score_one_record_ok s max buffer factor weight r) H).
Qed.

Lemma compute_score_record_invariants_witness :
  exists out,
    compute_score (PyList [Batch.exact_sample; Batch.no_answer_sample])
      1024 128 1 default_format_weight = Ok out
    /\ length out = 2%nat
    /\ Forall (record_ok default_format_weight 1) out.
Proof.
  destruct (compute_score (PyList [Batch.exact_sample; Batch.no_answer_sample])
              1024 128 1 default_format_weight) as [out | e] eqn:H;
    [| vm_compute in H; discriminate].
  exists out. split; [reflexivity |].
  apply (compute_score_record_invariants _ _ _ _ _ _ H).
Defined.

(* ===================================================================== *)
(** ** Batches *)
(* ===================================================================== *)

Lemma score_loop_acc (samples : list reward_input) (max buffer : Z)
  (factor weight : Q) :
  forall scores,
    score_loop samples max buffer factor weight scores =
    (new <- score_loop samples max buffer factor weight [] ;;
     Ok (scores ++ new))%py.
Proof.
  induction samples as [| s rest IH]; intros scores.
  - cbn [score_loop bind]. rewrite app_nil_r. reflexivity.
  - cbn [score_loop].
    destruct (score_one s max buffer factor weight) as [r | e];
      cbn [bind]; [| reflexivity].
    rewrite (IH (scores ++ [r])), (IH ([] ++ [r])).
    destruct (score_loop rest max buffer factor weight []) as [new | e];
      cbn [bind]; [| reflexivity].
    rewrite <- app_assoc. reflexivity.
Qed.

Lemma score_loop_app (l1 l2 : list reward_input) (max buffer : Z)
  (factor weight : Q) :
  forall scores,
    score_loop (l1 ++ l2) max buffer factor weight scores =
    (r1 <- score_loop l1 max buffer factor weight scores ;;
     score_loop l2 max buffer factor weight r1)%py.
Proof.
  induction l1 as [| s rest IH]; intros scores; [reflexivity |].
  cbn [app score_loop].
  destruct (score_one s max buffer factor weight) as [r | e];
    cbn [bind]; [apply IH | reflexivity].
Qed.

Lemma score_loop_returns (samples : list reward_input) (max buffer : Z)
  (factor weight : Q) :
  Forall (fun s => exists r, score_one s max buffer factor weight = Ok r)
         samples ->
  forall scores,
    exists out, score_loop samples max buffer factor weight scores = Ok out.
Proof.
  induction 1 as [| s rest [r Hr] _ IH]; intros scores.
  - exists scores. reflexivity.
  - cbn [score_loop]. rewrite Hr. cbn [bind]. apply IH.
Qed.

(** X13.  [compute_score] scores the samples one after the other: the
    result on a concatenation is the result on the first part followed by
    the result on the second; the call returns exactly when every sample
    can be scored; and when a sample raises after samples that can be
    scored, the call raises that exception and returns no record, whatever
    follows. *)
Theorem compute_score_batch :
  (forall l1 l2 max buffer factor weight,
      compute_score (PyList (l1 ++ l2)) max buffer factor weight =
      (r1 <- compute_score (PyList l1) max buffer factor weight ;;
       r2 <- compute_score (PyList l2) max buffer factor weight ;;
       Ok (r1 ++ r2))%py)
  /\ (forall samples max buffer factor weight,
        (exists out,
            compute_score (PyList samples) max buffer factor weight = Ok out)
        <-> Forall (fun s => exists r,
                       score_one s max buffer factor weight = Ok r) samples)
  /\ (forall before s after max buffer factor weight e,
        Forall (fun s' => exists r,
                   score_one s' max buffer factor weight = Ok r) before ->
        score_one s max buffer factor weight = Raise e ->
        compute_score (PyList (before ++ s :: after)) max buffer factor weight
        = Raise e).
Proof.
  split; [| split].
  - intros l1 l2 max buffer factor weight. cbn [compute_score].
    rewrite score_loop_app.
    destruct (score_loop l1 max buffer factor weight []) as [r1 | e];
      cbn [bind]; [| reflexivity].
    apply score_loop_acc.
  - intros samples max buffer factor weight. cbn [compute_score]. split.
    + intros [out H]. apply score_loop_records in H.
      destruct H as (new & _ & Hall).
      clear out. induction Hall; constructor; eauto.
    + intros H. apply (score_loop_returns _ _ _ _ _ H).
  - intros before s after max buffer factor weight e Hall Hs.
    cbn [compute_score]. rewrite score_loop_app.
    destruct (score_loop_returns _ _ _ _ _ Hall []) as [out ->].
    cbn [bind score_loop]. rewrite Hs. reflexivity.
Qed.

Lemma compute_score_batch_witness :
  compute_score
    (PyList ([Batch.exact_sample] ++ Batch.list_action_sample
               :: [Batch.exact_sample]))
    1024 128 1 default_format_weight
  = Raise TypeError.
Proof.
  apply (proj2 (proj2 compute_score_batch)).
  - constructor; [| constructor].
    destruct (score_one Batch.exact_sample 1024 128 1 default_format_weight)
      as [r | e] eqn:H; [exists r; reflexivity | vm_compute in H; discriminate].
  - vm_compute. reflexivity.
Defined.

(* ===================================================================== *)
(** ** Samples of the data model are scored *)
(* ===================================================================== *)










(* ===================================================================== *)
(** ** What the format check accepts *)
(* ===================================================================== *)

Lemma field_present (d : dict) (k : str) :
  field d k <> JNull -> dict_mem k d = true.
Proof.
  unfold field, dict_mem. destruct (dict_get k d); [reflexivity |].
  intros H. contradiction H. reflexivity.
Qed.

Lemma py_get_default_present (d : dict) (k : str) (default : json) :
  dict_mem k d = true -> py_get_default (JObj d) k default = Ok (field d k).
Proof.
  unfold dict_mem, py_get_default, field.
  destruct (dict_get k d); [reflexivity | discriminate].
Qed.

Lemma py_all_in_dict_true (fields : list str) (d : dict) :
  py_all_in fields (JObj d) = Ok true
  <-> forallb (fun k => dict_mem k d) fields = true.
Proof.
  induction fields as [| f rest IH]; [split; reflexivity |].
  cbn [py_all_in py_contains bind forallb].
  destruct (dict_mem f d); cbn [andb]; [exact IH |].
  split; discriminate.
Qed.

Lemma str_mem_In (s : str) (S : list str) : str_mem s S = true <-> In s S.
Proof.
  unfold str_mem. rewrite existsb_exists. split.
  - intros (x & Hin & Heq). apply str_eqb_eq in Heq. subst x. exact Hin.
  - intros Hin. exists s. split; [exact Hin | apply str_eqb_refl].
Qed.

Lemma py_not_in_false (x : json) (S : list str) :
  py_not_in x S = Ok false <-> valid_string S x.
Proof.
  unfold py_not_in, valid_string. split.
  - destruct x; cbn [hashable atom_of negb]; try discriminate.
    + destruct f; discriminate.
    + destruct (str_mem s S) eqn:E; [| discriminate].
      intros _. exists s. split; [reflexivity | apply str_mem_In; exact E].
  - intros (s & -> & Hin). cbn [hashable atom_of].
    apply str_mem_In in Hin. rewrite Hin. reflexivity.
Qed.

Lemma check_spatial_rels_true (rels : list json) :
  check_spatial_rels rels = Ok true
  <-> Forall (valid_string VALID_SPATIAL_RELATIONS) rels.
Proof.
  induction rels as [| rel rest IH]; [split; [constructor | reflexivity] |].
  cbn [check_spatial_rels].
  destruct (py_not_in rel VALID_SPATIAL_RELATIONS) as [[|] | e] eqn:E;
    cbn [bind].
  - split; [discriminate |]. intros H. inversion H as [| ? ? Hv _]; subst.
    apply py_not_in_false in Hv. congruence.
  - apply py_not_in_false in E. rewrite IH. split.
    + intros H. constructor; assumption.
    + intros H. inversion H; assumption.
  - split; [discriminate |]. intros H. inversion H as [| ? ? Hv _]; subst.
    apply py_not_in_false in Hv. congruence.
Qed.

Lemma check_edge_true (e : json) : check_edge e = Ok true <-> edge_schema e.
Proof.
  split.
  - unfold check_edge. destruct e as [| | | | | | d]; try discriminate.
    cbn [is_dict negb].
    destruct (py_all_in required_edge_fields (JObj d)) as [[|] | x] eqn:Ep;
      cbn [bind negb]; try discriminate.
    apply py_all_in_dict_true in Ep.
    unfold required_edge_fields in Ep. cbn [forallb] in Ep.
    repeat (apply andb_true_iff in Ep; destruct Ep as [? Ep]).
    cbn [py_get bind]. fold (field d k_functional_relationship).
    destruct (py_not_in (field d k_functional_relationship)
                VALID_FUNCTIONAL_RELATIONSHIPS) as [[|] | x] eqn:Ef;
      cbn [bind]; try discriminate.
    apply py_not_in_false in Ef.
    rewrite (py_get_default_present d k_spatial_relations) by assumption.
    cbn [bind].
    destruct (field d k_spatial_relations) as [| | | | | rels |] eqn:Es;
      cbn [is_list negb]; try discriminate.
    cbn [py_iter bind].
    destruct (check_spatial_rels rels) as [[|] | x] eqn:Ec;
      cbn [bind negb]; try discriminate.
    apply check_spatial_rels_true in Ec.
    fold (field d k_is_touching).
    destruct (is_bool (field d k_is_touching)) eqn:Eb;
      cbn [negb]; try discriminate.
    intros _. exists d. repeat split; try assumption.
    exists rels. split; [exact Es | exact Ec].
  - intros (d & -> & Ho1 & Ho2 & Hfr & (rels & Hs & Hrels) & Hb).
    assert (Hpf : dict_mem k_functional_relationship d = true).
    { apply field_present. destruct Hfr as (s & -> & _). discriminate. }
    assert (Hps : dict_mem k_spatial_relations d = true).
    { apply field_present. rewrite Hs. discriminate. }
    assert (Hpt : dict_mem k_is_touching d = true).
    { apply field_present. intros Hc. rewrite Hc in Hb. discriminate. }
    unfold check_edge. cbn [is_dict negb].
    rewrite (proj2 (py_all_in_dict_true required_edge_fields d))
      by (unfold required_edge_fields; cbn [forallb];
          rewrite Hpf, Ho1, Ho2, Hps, Hpt; reflexivity).
    cbn [bind negb py_get]. fold (field d k_functional_relationship).
    rewrite (proj2 (py_not_in_false _ _) Hfr). cbn [bind].
    rewrite (py_get_default_present d k_spatial_relations _ Hps), Hs.
    cbn [bind is_list negb py_iter].
    rewrite (proj2 (check_spatial_rels_true rels) Hrels).
    cbn [bind negb]. fold (field d k_is_touching). rewrite Hb. reflexivity.
Qed.

Lemma check_edges_one (edges : list json) :
  check_edges edges = Ok 1 <-> Forall edge_schema edges.
Proof.
  induction edges as [| edge rest IH]; [split; [constructor | reflexivity] |].
  cbn [check_edges].
  destruct (check_edge edge) as [[|] | e] eqn:E; cbn [bind].
  - apply check_edge_true in E. rewrite IH. split.
    + intros H. constructor; assumption.
    + intros H. inversion H; assumption.
  - split; [discriminate |]. intros H. inversion H as [| ? ? Hv _]; subst.
    apply check_edge_true in Hv. congruence.
  - split; [discriminate |]. intros H. inversion H as [| ? ? Hv _]; subst.
    apply check_edge_true in Hv. congruence.
Qed.

Lemma format_checks_one (d : dict) :
  format_checks (JObj d) = Ok 1 <-> answer_schema (JObj d).
Proof.
  split.
  - unfold format_checks.
    destruct (py_all_in required_fields (JObj d)) as [[|] | x] eqn:Ep;
      cbn [bind negb]; try discriminate.
    apply py_all_in_dict_true in Ep.
    unfold required_fields in Ep. cbn [forallb] in Ep.
    repeat (apply andb_true_iff in Ep; destruct Ep as [? Ep]).
    cbn [py_get bind].
    fold (field d k_nodes). fold (field d k_edges).
    fold (field d k_task_instruction). fold (field d k_action_type).
    destruct (is_list (field d k_nodes)) eqn:En;
      cbn [negb]; try discriminate.
    destruct (is_list (field d k_edges)) eqn:Ee;
      cbn [negb]; try discriminate.
    destruct (is_str (field d k_task_instruction)) eqn:Ei;
      cbn [negb]; try discriminate.
    destruct (py_not_in (field d k_action_type) VALID_ACTION_TYPES)
      as [[|] | x] eqn:Ea; cbn [bind]; try discriminate.
    apply py_not_in_false in Ea.
    rewrite (py_get_default_present d k_edges) by assumption. cbn [bind].
    destruct (field d k_edges) as [| | | | | edges |] eqn:Es;
      try discriminate.
    cbn [py_iter bind]. intros Hc. apply check_edges_one in Hc.
    exists d. repeat split; try assumption.
    exists edges. split; [exact Es | exact Hc].
  - intros (d' & Hd & Hft & Hn & Hi & Ha & (edges & Hs & Hedges)).
    injection Hd as <-.
    assert (Hpi : dict_mem k_task_instruction d = true).
    { apply field_present. intros Hc. rewrite Hc in Hi. discriminate. }
    assert (Hpn : dict_mem k_nodes d = true).
    { apply field_present. intros Hc. rewrite Hc in Hn. discriminate. }
    assert (Hpe : dict_mem k_edges d = true).
    { apply field_present. rewrite Hs. discriminate. }
    assert (Hpa : dict_mem k_action_type d = true).
    { apply field_present. destruct Ha as (s & -> & _). discriminate. }
    unfold format_checks.
    rewrite (proj2 (py_all_in_dict_true required_fields d))
      by (unfold required_fields; cbn [forallb];
          rewrite Hpi, Hpn, Hpe, Hpa, Hft; reflexivity).
    cbn [bind negb py_get].
    fold (field d k_nodes). fold (field d k_edges).
    fold (field d k_task_instruction). fold (field d k_action_type).
    rewrite Hn, Hi. cbn [negb].
    rewrite (proj2 (py_not_in_false _ _) Ha).
    rewrite (py_get_default_present d k_edges _ Hpe), Hs.
    cbn [is_list negb bind py_iter].
    apply check_edges_one. exact Hedges.
Qed.

(** X15.  [format_reward] is [1.0] exactly for the responses whose extracted
    payload is a dict with [function_type] present, a list as [nodes], a
    string as [task_instruction], a name of [VALID_ACTION_TYPES] as
    [action_type], and as [edges] a list of dicts, each with [object1] and
    [object2] present, a name of [VALID_FUNCTIONAL_RELATIONSHIPS] as
    [functional_relationship], a list of names of [VALID_SPATIAL_RELATIONS]
    as [spatial_relations] and a boolean as [is_touching].  The value of
    [function_type], the values of [object1] and [object2] and the elements
    of [nodes] are not inspected. *)
Theorem format_reward_accepts :
  forall response,
    format_reward response = Ok 1
    <-> answer_schema (extract_answer_json response).
Proof.
  intros response. unfold format_reward. split.
  - destruct (re_search label_re response); [| discriminate].
    destruct (extract_answer_json_dict response) as [Hn | Hd].
    + rewrite Hn. discriminate.
    + destruct (extract_answer_json response); try discriminate.
      cbn [is_none]. apply format_checks_one.
  - intros Hs.
    destruct (re_search label_re response) eqn:El.
    + destruct (extract_answer_json response) eqn:E;
        try (destruct Hs as (d' & Hd & _); discriminate).
      cbn [is_none]. apply format_checks_one. exact Hs.
    + rewrite (extract_answer_json_unlabelled _ El) in Hs.
      destruct Hs as (d' & Hd & _). discriminate.
Qed.

Lemma format_reward_accepts_witness :
  answer_schema (extract_answer_json Scenario.exact_response).
Proof.
  apply (proj1 (format_reward_accepts Scenario.exact_response)).
  vm_compute. reflexivity.
Defined.

(* ===================================================================== *)
(** ** The order of nodes and edges *)
(* ===================================================================== *)

Lemma py_max_compat (a a' b b' : Q) :
  a == a' -> b == b' -> py_max a b == py_max a' b'.
Proof.
  unfold py_max. intros Ha Hb.
  destruct (Qle_bool b a) eqn:E1; destruct (Qle_bool b' a') eqn:E2;
    try assumption.
  - apply Qle_bool_iff in E1. apply Qle_bool_false in E2. lra.
  - apply Qle_bool_false in E1. apply Qle_bool_iff in E2. lra.
Qed.

Lemma best_match_loop_returns (pred_edges : list json) (gt_edge : json) :
  (forall pe, In pe pred_edges ->
     exists s, calculate_edge_similarity pe gt_edge = Ok s) ->
  forall best, exists b, best_match_loop pred_edges gt_edge best = Ok b.
Proof.
  induction pred_edges as [| pe rest IH]; intros H best.
  - exists best. reflexivity.
  - destruct (H pe (or_introl eq_refl)) as [s Hs].
    cbn [best_match_loop]. rewrite Hs. cbn [bind].
    apply IH. intros pe' Hin. apply H. right. exact Hin.
Qed.

Lemma best_match_loop_le (l l' : list json) (g : json) (best best' b b' : Q) :
  best == best' ->
  (forall pe, In pe l -> In pe l') ->
  best_match_loop l g best = Ok b ->
  best_match_loop l' g best' = Ok b' ->
  b <= b'.
Proof.
  intros Hbest Hsub H H'.
  destruct (best_match_loop_max _ _ _ _ H) as (_ & _ & Hatt).
  destruct (best_match_loop_max _ _ _ _ H') as (Hge' & Hall' & _).
  destruct Hatt as [-> | (pe & Hin & Hs)].
  - rewrite Hbest. exact Hge'.
  - destruct (Hall' pe (Hsub pe Hin)) as (s & Hs' & Hle).
    rewrite Hs in Hs'. injection Hs' as <-. exact Hle.
Qed.

Lemma edge_score_loop_same_preds (preds preds' : list json) :
  (forall pe, In pe preds <-> In pe preds') ->
  forall gts acc acc' v,
    acc == acc' ->
    edge_score_loop gts (JArr preds) acc = Ok v ->
    exists v', edge_score_loop gts (JArr preds') acc' = Ok v' /\ v' == v.
Proof.
  intros Hsame. induction gts as [| g rest IH]; intros acc acc' v Hacc H.
  - injection H as <-. exists acc'. split; [reflexivity |].
    symmetry. exact Hacc.
  - cbn [edge_score_loop py_iter bind] in H |- *. bind_inv H.
    destruct (best_match_loop_max _ _ _ _ E) as (_ & Hall & _).
    destruct (best_match_loop_returns preds' g) with (best := 0) as [b' Hb'].
    { intros pe Hin. apply Hsame in Hin.
      destruct (Hall pe Hin) as (s & Hs & _). exists s. exact Hs. }
    rewrite Hb'. cbn [bind].
    assert (Hb : b' == v0).
    { apply Qle_antisym.
      - apply (best_match_loop_le preds' preds g 0 0 b' v0);
          [reflexivity | intros pe; apply Hsame | exact Hb' | exact E].
      - apply (best_match_loop_le preds preds' g 0 0 v0 b');
          [reflexivity | intros pe; apply Hsame | exact E | exact Hb']. }
    apply (IH (acc + v0) (acc' + b') v); [| exact H].
    rewrite Hacc, Hb. reflexivity.
Qed.

Lemma edges_similarity_perm_preds (preds preds' : list json) (gt_edges : json)
  (v : Q) :
  Permutation preds preds' ->
  edges_similarity (JArr preds) gt_edges = Ok v ->
  exists v', edges_similarity (JArr preds') gt_edges = Ok v' /\ v' == v.
Proof.
  intros Hp H. unfold edges_similarity in *.
  destruct (py_truthy gt_edges);
    [| exists v; split; [exact H | reflexivity]].
  bind_inv H. rewrite E. cbn [bind].
  bind_inv H.
  assert (Hsame : forall pe, In pe preds <-> In pe preds').
  { intros pe. split; apply Permutation_in;
      [exact Hp | apply Permutation_sym; exact Hp]. }
  destruct (edge_score_loop_same_preds preds preds' Hsame v0
              0 0 v1 (Qeq_refl 0) E0) as (v2 & Hv2 & Heq).
  rewrite Hv2. cbn [bind].
  bind_inv H. rewrite E1. cbn [bind].
  cbn [py_len bind] in H |- *. rewrite E1 in H. cbn [bind] in H |- *.
  rewrite <- (Permutation_length Hp).
  destruct (_ <? _)%Z; injection H as <-; eexists;
    (split; [reflexivity |]).
  - apply py_max_compat; [reflexivity |]. rewrite Heq. reflexivity.
  - rewrite Heq. reflexivity.
Qed.

(** *** Sets of strings *)

Lemma py_eq_id_str (a : str) (y : json) :
  is_str y = true -> (py_eq_id (JStr a) y = true <-> y = JStr a).
Proof.
  destruct y; try discriminate. intros _. simpl. rewrite str_eqb_eq.
  split; [intros -> | intros H; injection H as ->]; reflexivity.
Qed.

Lemma forallb_is_str_In (s : list json) (x : json) :
  forallb is_str s = true -> In x s -> is_str x = true.
Proof. intros H. rewrite forallb_forall in H. apply H. Qed.

Lemma set_mem_In_str (x : json) (s : pyset) :
  is_str x = true -> forallb is_str s = true ->
  (set_mem x s = true <-> In x s).
Proof.
  intros Hx Hs. unfold set_mem. rewrite existsb_exists.
  destruct x; try discriminate. split.
  - intros (y & Hin & Heq).
    apply py_eq_id_str in Heq; [subst y; exact Hin |].
    apply (forallb_is_str_In s y Hs Hin).
  - intros Hin. exists (JStr s0). split; [exact Hin |].
    apply py_eq_id_str; reflexivity.
Qed.

Lemma set_mem_same_elements (x : json) (s s' : pyset) :
  is_str x = true -> forallb is_str s = true -> forallb is_str s' = true ->
  (forall y, In y s <-> In y s') -> set_mem x s = set_mem x s'.
Proof.
  intros Hx Hs Hs' Hsame. apply eq_true_iff_eq.
  rewrite (set_mem_In_str x s Hx Hs), (set_mem_In_str x s' Hx Hs').
  apply Hsame.
Qed.

Lemma set_of_list_strings_nodup (l : list json) :
  forallb is_str l = true ->
  forall acc s,
    forallb is_str acc = true -> NoDup acc ->
    set_of_list l acc = Ok s ->
    forallb is_str s = true
    /\ NoDup s
    /\ (forall x, In x s <-> In x acc \/ In x l).
Proof.
  induction l as [| x l IH]; intros Hl acc s Hacc Hnd H.
  - injection H as <-. split; [exact Hacc |]. split; [exact Hnd |].
    intros x. simpl. tauto.
  - cbn [forallb] in Hl. apply andb_true_iff in Hl. destruct Hl as [Hx Hl].
    cbn [set_of_list] in H.
    replace (hashable x) with true in H
      by (destruct x; try discriminate; reflexivity).
    unfold set_add in H. destruct (set_mem x acc) eqn:Em.
    + apply (set_mem_In_str x acc Hx Hacc) in Em.
      destruct (IH Hl acc s Hacc Hnd H) as (Hs & Hn & Hin).
      split; [exact Hs |]. split; [exact Hn |].
      intros y. rewrite Hin. simpl. split; [tauto |].
      intros [Hy | [<- | Hy]]; tauto.
    + assert (Hnot : ~ In x acc).
      { intros Hc. apply (set_mem_In_str x acc Hx Hacc) in Hc. congruence. }
      assert (Hacc' : forallb is_str (acc ++ [x]) = true).
      { rewrite forallb_app, Hacc. simpl. rewrite Hx. reflexivity. }
      assert (Hnd' : NoDup (acc ++ [x])).
      { apply (Permutation_NoDup (Permutation_cons_append acc x)).
        constructor; assumption. }
      destruct (IH Hl (acc ++ [x]) s Hacc' Hnd' H) as (Hs & Hn & Hin).
      split; [exact Hs |]. split; [exact Hn |].
      intros y. rewrite Hin, in_app_iff. simpl. tauto.
Qed.

Lemma py_set_strings (l : list json) :
  forallb is_str l = true ->
  exists s,
    py_set (JArr l) = Ok s
    /\ forallb is_str s = true /\ NoDup s /\ (forall x, In x s <-> In x l).
Proof.
  intros Hl. cbn [py_set py_iter bind].
  destruct (set_of_list_strings l Hl []) as [s Hs]. exists s.
  split; [exact Hs |].
  destruct (set_of_list_strings_nodup l Hl [] s eq_refl (NoDup_nil _) Hs)
    as (H1 & H2 & H3).
  split; [exact H1 |]. split; [exact H2 |].
  intros x. rewrite H3. simpl. tauto.
Qed.

Lemma filter_perm {A : Type} (f : A -> bool) (l l' : list A) :
  Permutation l l' -> Permutation (filter f l) (filter f l').
Proof.
  induction 1 as [| x l l' _ IH | x y l | l l' l'' _ IH1 _ IH2].
  - constructor.
  - cbn [filter]. destruct (f x); [constructor |]; exact IH.
  - cbn [filter]. destruct (f x); destruct (f y);
      try apply Permutation_refl. apply perm_swap.
  - apply (Permutation_trans IH1 IH2).
Qed.

Lemma filter_length_same {A : Type} (f f' : A -> bool) (l l' : list A) :
  Permutation l l' -> (forall x, In x l -> f x = f' x) ->
  length (filter f l) = length (filter f' l').
Proof.
  intros Hp Hf. rewrite (filter_ext_in f f' l Hf).
  apply Permutation_length. apply filter_perm. exact Hp.
Qed.

Lemma filter_partition_length {A : Type} (f : A -> bool) (l : list A) :
  (length (filter f l) + length (filter (fun x => negb (f x)) l))%nat
  = length l.
Proof.
  induction l as [| x l IH]; [reflexivity |].
  cbn [filter]. destruct (f x); cbn [negb length]; lia.
Qed.

Lemma intersection_over_union_same_elements (sp sp' sg sg' : pyset) :
  forallb is_str sp = true -> forallb is_str sp' = true ->
  forallb is_str sg = true -> forallb is_str sg' = true ->
  NoDup sp -> NoDup sp' -> NoDup sg -> NoDup sg' ->
  (forall x, In x sp <-> In x sp') -> (forall x, In x sg <-> In x sg') ->
  intersection_over_union sp sg = intersection_over_union sp' sg'.
Proof.
  intros Hp Hp' Hg Hg' Np Np' Ng Ng' Sp Sg.
  assert (Pp : Permutation sp sp') by (apply NoDup_Permutation; assumption).
  assert (Pg : Permutation sg sg') by (apply NoDup_Permutation; assumption).
  unfold intersection_over_union, set_intersection, set_union.
  rewrite !length_app.
  rewrite (filter_length_same (fun x => set_mem x sg) (fun x => set_mem x sg')
             sp sp' Pp)
    by (intros x Hx; apply set_mem_same_elements; try assumption;
        apply (forallb_is_str_In sp x Hp Hx)).
  rewrite (filter_length_same (fun x => negb (set_mem x sp))
             (fun x => negb (set_mem x sp')) sg sg' Pg)
    by (intros x Hx; f_equal; apply set_mem_same_elements; try assumption;
        apply (forallb_is_str_In sg x Hg Hx)).
  rewrite (Permutation_length Pp). reflexivity.
Qed.

Lemma intersection_over_union_sym (sp sg : pyset) :
  forallb is_str sp = true -> forallb is_str sg = true ->
  NoDup sp -> NoDup sg ->
  intersection_over_union sp sg = intersection_over_union sg sp.
Proof.
  intros Hp Hg Np Ng.
  unfold intersection_over_union, set_intersection, set_union.
  rewrite !length_app.
  assert (Hi : length (filter (fun x => set_mem x sg) sp)
               = length (filter (fun x => set_mem x sp) sg)).
  { apply Permutation_length. apply NoDup_Permutation;
      try (apply NoDup_filter; assumption).
    intros x. rewrite !filter_In. split; intros [Hin Hm].
    - pose proof (forallb_is_str_In sp x Hp Hin) as Hx.
      apply (set_mem_In_str x sg Hx Hg) in Hm.
      split; [exact Hm | apply (set_mem_In_str x sp Hx Hp); exact Hin].
    - pose proof (forallb_is_str_In sg x Hg Hin) as Hx.
      apply (set_mem_In_str x sp Hx Hp) in Hm.
      split; [exact Hm | apply (set_mem_In_str x sg Hx Hg); exact Hin]. }
  pose proof (filter_partition_length (fun x => set_mem x sg) sp) as Pp.
  pose proof (filter_partition_length (fun x => set_mem x sp) sg) as Pg.
  rewrite Hi.
  replace (length sp + length (filter (fun x => negb (set_mem x sp)) sg))%nat
    with (length sg + length (filter (fun x => negb (set_mem x sg)) sp))%nat
    by lia.
  reflexivity.
Qed.

Lemma intersection_over_union_empty_l (s : pyset) :
  intersection_over_union [] s == 0.
Proof.
  unfold intersection_over_union. cbn [set_intersection filter length Z.of_nat].
  destruct (0 <? _)%Z; [| reflexivity].
  unfold Qdiv. apply Qmult_0_l.
Qed.

Lemma nonempty_same_elements (s s' : pyset) :
  (forall x, In x s <-> In x s') -> nonempty s = nonempty s'.
Proof.
  intros H. destruct s as [| a s]; destruct s' as [| a' s']; try reflexivity.
  - destruct (proj2 (H a') (or_introl eq_refl)).
  - destruct (proj1 (H a) (or_introl eq_refl)).
Qed.

Lemma forallb_is_str_same (l l' : list json) :
  forallb is_str l = true -> (forall x, In x l <-> In x l') ->
  forallb is_str l' = true.
Proof.
  intros Hl Hsame. apply forallb_forall. intros x Hx.
  apply (forallb_is_str_In l x Hl). apply Hsame. exact Hx.
Qed.

Lemma nodes_similarity_lists (pd gd : dict) (lp lg : list json) :
  field pd k_nodes = JArr lp -> field gd k_nodes = JArr lg ->
  forallb is_str lp = true -> forallb is_str lg = true ->
  exists sp sg,
    py_set (JArr lp) = Ok sp /\ py_set (JArr lg) = Ok sg
    /\ forallb is_str sp = true /\ NoDup sp /\ (forall x, In x sp <-> In x lp)
    /\ forallb is_str sg = true /\ NoDup sg /\ (forall x, In x sg <-> In x lg)
    /\ nodes_similarity (JObj pd) (JObj gd)
       = Ok (if nonempty sg then intersection_over_union sp sg else 0).
Proof.
  intros Fp Fg Hp Hg.
  destruct (py_set_strings lp Hp) as (sp & Hsp & Sp & Np & Ip).
  destruct (py_set_strings lg Hg) as (sg & Hsg & Sg & Ng & Ig).
  exists sp, sg. repeat (split; [assumption |]).
  unfold nodes_similarity.
  rewrite !py_get_default_field by (rewrite ?Fp, ?Fg; discriminate).
  rewrite Fp, Fg. cbn [bind]. rewrite Hsp. cbn [bind]. rewrite Hsg.
  cbn [bind]. destruct (nonempty sg); reflexivity.
Qed.

Lemma nodes_similarity_same_elements (pd pd' gd gd' : dict)
  (lp lp' lg lg' : list json) :
  field pd k_nodes = JArr lp -> field pd' k_nodes = JArr lp' ->
  field gd k_nodes = JArr lg -> field gd' k_nodes = JArr lg' ->
  forallb is_str lp = true -> forallb is_str lg = true ->
  (forall x, In x lp <-> In x lp') -> (forall x, In x lg <-> In x lg') ->
  nodes_similarity (JObj pd') (JObj gd') = nodes_similarity (JObj pd) (JObj gd).
Proof.
  intros Fp Fp' Fg Fg' Hp Hg Sp Sg.
  pose proof (forallb_is_str_same lp lp' Hp Sp) as Hp'.
  pose proof (forallb_is_str_same lg lg' Hg Sg) as Hg'.
  destruct (nodes_similarity_lists pd gd lp lg Fp Fg Hp Hg)
    as (sp & sg & _ & _ & A1 & A2 & A3 & B1 & B2 & B3 & ->).
  destruct (nodes_similarity_lists pd' gd' lp' lg' Fp' Fg' Hp' Hg')
    as (sp' & sg' & _ & _ & A1' & A2' & A3' & B1' & B2' & B3' & ->).
  assert (Ssp : forall x, In x sp' <-> In x sp)
    by (intros x; rewrite A3, A3', Sp; reflexivity).
  assert (Ssg : forall x, In x sg' <-> In x sg)
    by (intros x; rewrite B3, B3', Sg; reflexivity).
  rewrite (nonempty_same_elements sg' sg Ssg).
  rewrite (intersection_over_union_same_elements sp' sp sg' sg); try assumption.
  reflexivity.
Qed.

Lemma calculate_graph_similarity_prediction_order (p p' g g' : json) (v : Q) :
  same_up_to_order p p' -> same_up_to_node_order g g' ->
  calculate_graph_similarity p g = Ok v ->
  exists v', calculate_graph_similarity p' g' = Ok v' /\ v' == v.
Proof.
  intros (pd & pd' & pn & pn' & pe & pe' & -> & -> & Pt & Pa & Pf & Pn & Pn'
          & Ps & Pi & Pe & Pe' & Pp)
         (gd & gd' & gn & gn' & -> & -> & Gt & Ga & Gf & Gn & Gn'
          & Gs & Gi & Ge) H.
  unfold calculate_graph_similarity in *.
  cbn [is_none orb py_get bind] in H |- *.
  fold (field pd k_task_instruction) in H. fold (field gd k_task_instruction) in H.
  fold (field pd k_action_type) in H. fold (field gd k_action_type) in H.
  fold (field pd k_function_type) in H. fold (field gd k_function_type) in H.
  fold (field pd' k_task_instruction). fold (field gd' k_task_instruction).
  fold (field pd' k_action_type). fold (field gd' k_action_type).
  fold (field pd' k_function_type). fold (field gd' k_function_type).
  rewrite Pt, Pa, Pf, Gt, Ga, Gf.
  rewrite (nodes_similarity_same_elements pd pd' gd gd' pn pn' gn gn')
    by assumption.
  bind_inv H. rewrite E. cbn [bind].
  rewrite (py_get_default_field pd) in H by (rewrite Pe; discriminate).
  rewrite (py_get_default_field pd') by (rewrite Pe'; discriminate).
  rewrite Pe in H. rewrite Pe'.
  cbn [py_get_default bind] in H |- *. rewrite Ge.
  bind_inv H.
  destruct (edges_similarity_perm_preds pe pe' _ v1 Pp E0) as (v2 & -> & Heq).
  cbn [bind]. injection H as <-. eexists. split; [reflexivity |].
  rewrite Heq. reflexivity.
Qed.

(** X16.  The graph similarity does not depend on the order of the nodes, on
    either side, nor on the order of the predicted edges: for two
    predictions that carry the same string fields, lists of string nodes
    with the same elements (in any order, with any repetition) and lists of
    edges that are permutations of each other, and two ground truths that
    carry the same string fields, lists of string nodes with the same
    elements and the same edges in the same order, the similarity that is
    returned for one pair is returned for the other.  The edges component
    alone is the same for every permutation of the predicted edges: each
    best match is a maximum over them, and the best matches are added in
    the order of the ground-truth edges, which is kept. *)
Theorem similarity_ignores_prediction_order :
  (forall preds preds' gt_edges v,
      Permutation preds preds' ->
      edges_similarity (JArr preds) gt_edges = Ok v ->
      exists v', edges_similarity (JArr preds') gt_edges = Ok v' /\ v' == v)
  /\ (forall p p' g g' v,
        same_up_to_order p p' -> same_up_to_node_order g g' ->
        calculate_graph_similarity p g = Ok v ->
        exists v', calculate_graph_similarity p' g' = Ok v' /\ v' == v).
Proof.
  split.
  - intros preds preds' gt_edges v. apply edges_similarity_perm_preds.
  - intros p p' g g' v. apply calculate_graph_similarity_prediction_order.
Qed.

Lemma similarity_ignores_prediction_order_witness :
  exists v',
    calculate_graph_similarity Reordered.shuffled Reordered.graph = Ok v'.
Proof.
  assert (Hs : same_up_to_order Reordered.graph Reordered.shuffled).
  { eexists _, _, _, _, _, _.
    split; [reflexivity |]. split; [reflexivity |].
    split; [reflexivity |]. split; [reflexivity |]. split; [reflexivity |].
    split; [reflexivity |]. split; [reflexivity |]. split; [reflexivity |].
    split; [intros x; cbn [In]; tauto |].
    split; [reflexivity |]. split; [reflexivity |]. apply perm_swap. }
  assert (Hr : same_up_to_node_order Reordered.graph Reordered.graph).
  { eexists _, _, _, _.
    split; [reflexivity |]. split; [reflexivity |].
    split; [reflexivity |]. split; [reflexivity |]. split; [reflexivity |].
    split; [reflexivity |]. split; [reflexivity |]. split; [reflexivity |].
    split; [intros x; reflexivity | reflexivity]. }
  destruct (calculate_graph_similarity Reordered.graph Reordered.graph)
    as [v | e] eqn:H; [| vm_compute in H; discriminate].
  destruct (proj2 similarity_ignores_prediction_order _ _ _ _ v Hs Hr H)
    as (v' & Hv' & _).
  exists v'. exact Hv'.
Defined.

(** X17.  The nodes component is symmetric: on lists of strings, the
    prediction and the ground truth can be exchanged without changing it
    (it is the Jaccard index of the two sets, [0] when both are empty). *)
Theorem nodes_similarity_symmetric :
  forall pd gd lp lg,
    field pd k_nodes = JArr lp -> field gd k_nodes = JArr lg ->
    forallb is_str lp = true -> forallb is_str lg = true ->
    exists a b,
      nodes_similarity (JObj pd) (JObj gd) = Ok a
      /\ nodes_similarity (JObj gd) (JObj pd) = Ok b
      /\ a == b.
Proof.
  intros pd gd lp lg Fp Fg Hp Hg.
  destruct (nodes_similarity_lists pd gd lp lg Fp Fg Hp Hg)
    as (sp & sg & Hsp & Hsg & A1 & A2 & A3 & B1 & B2 & B3 & Hpg).
  destruct (nodes_similarity_lists gd pd lg lp Fg Fp Hg Hp)
    as (sg' & sp' & Hsg' & Hsp' & _ & _ & _ & _ & _ & _ & Hgp).
  rewrite Hsg in Hsg'. injection Hsg' as <-.
  rewrite Hsp in Hsp'. injection Hsp' as <-.
  eexists _, _. split; [exact Hpg |]. split; [exact Hgp |].
  destruct sg as [| y sg]; destruct sp as [| x sp]; cbn [nonempty].
  - reflexivity.
  - symmetry. apply intersection_over_union_empty_l.
  - apply intersection_over_union_empty_l.
  - rewrite (intersection_over_union_sym (x :: sp) (y :: sg) A1 B1 A2 B2).
    reflexivity.
Qed.

Lemma nodes_similarity_symmetric_witness :
  exists a b,
    nodes_similarity Reordered.graph Scenario.ground_truth_json = Ok a
    /\ nodes_similarity Scenario.ground_truth_json Reordered.graph = Ok b
    /\ a == b.
Proof.
  refine (nodes_similarity_symmetric _ _ _ _ _ _ _ _);
    vm_compute; reflexivity.
Defined.
